(** * AvatarAI orchestration core: a shallow embedding and its properties

    The development follows the Python sources under [python_ai/]:

    - [main.py]                         the decision gate, the event loop, the
                                        chat handler and the game loop;
    - [state_machine/state_manager.py]  the activity state machine;
    - [planner_layer/unity_client.py]   the outbound channel and its sender;
    - [planner_layer/executor.py]       the rate-limited action executor;
    - [game_layer/manual_controller.py] the control commands of the chat;
    - [planner_layer/planner.py]        the keyword planner;
    - [brain_layer/memory.py]           the short-term memory;
    - [chat_layer/chat_listener.py]     the chat listener's rate limit.

    Time is a rational number of seconds.  The clock a function reads is
    passed to it as an argument (or kept in an explicit world state), so that
    every definition below is a total, executable function. *)

From Stdlib Require Import List Bool Arith ZArith QArith Qminmax Lia Lqa.
From Stdlib Require Import String Ascii Sorted Permutation.
Import ListNotations.

Set Implicit Arguments.

Local Open Scope Q_scope.

(** ** Rational comparisons as booleans *)

(** Python's [a >= b] on times. *)
Definition Qge_bool (a b : Q) : bool := Qle_bool b a.

(** Python's [a > b] on times. *)
Definition Qgt_bool (a b : Q) : bool := negb (Qle_bool a b).

(** ** Python list slices *)

Module Py.

(** The index a slice bound stands for in a list of length [n]: a negative
    bound counts from the end, and every bound is clamped to [0 .. n]. *)
Definition clamp (n : nat) (i : Z) : nat :=
  Z.to_nat (if (i <? 0)%Z then Z.max 0 (Z.of_nat n + i)
            else Z.min i (Z.of_nat n)).

(** [l[start:]]. *)
Definition slice_from {A : Type} (start : Z) (l : list A) : list A :=
  skipn (clamp (List.length l) start) l.

(** [l[:stop]]. *)
Definition slice_to {A : Type} (stop : Z) (l : list A) : list A :=
  firstn (clamp (List.length l) stop) l.

End Py.

(** ** The rate-limited decision gate ([main.py], [AvatarAISystem]) *)

Module Gate.

(** The two attributes of [AvatarAISystem] the gate reads and writes. *)
Record t : Type := mk {
  last_brain_decision_time : Q;
  brain_decision_interval : Q
}.

(** [__init__]: [last_brain_decision_time = 0.0] and
    [brain_decision_interval = 1.0 / brain_decisions_per_sec].  With a
    setting of zero the division raises [ZeroDivisionError] and no gate is
    built: [None]. *)
Definition init (brain_decisions_per_sec : Q) : option t :=
  if Qeq_bool brain_decisions_per_sec 0 then None
  else Some {| last_brain_decision_time := 0;
               brain_decision_interval := 1 / brain_decisions_per_sec |}.

(** [_can_make_brain_decision], with [current_time] the reading of the
    event loop's clock.  Returns the answer and the gate afterwards. *)
Definition _can_make_brain_decision (current_time : Q) (g : t) : bool * t :=
  let time_since_last := current_time - last_brain_decision_time g in
  if Qge_bool time_since_last (brain_decision_interval g)
  then (true, {| last_brain_decision_time := current_time;
                 brain_decision_interval := brain_decision_interval g |})
  else (false, g).

(** A sequence of calls: the answers, in order, and the final gate. *)
Fixpoint calls (times : list Q) (g : t) : list bool * t :=
  match times with
  | [] => ([], g)
  | now :: rest =>
      let (b, g1) := _can_make_brain_decision now g in
      let (bs, g2) := calls rest g1 in
      (b :: bs, g2)
  end.

(** The times of the admitted calls of a sequence. *)
Fixpoint admitted (times : list Q) (g : t) : list Q :=
  match times with
  | [] => []
  | now :: rest =>
      let (b, g1) := _can_make_brain_decision now g in
      if b then now :: admitted rest g1 else admitted rest g1
  end.

(** [n] calls, the first at [t0], each [T/2] after the one before. *)
Definition nth_time (t0 T : Q) (k : nat) : Q :=
  t0 + inject_Z (Z.of_nat k) * (T / 2).

Definition spaced (t0 T : Q) (first n : nat) : list Q :=
  map (nth_time t0 T) (seq first n).

(** Two admitted calls are at least one interval apart. *)
Definition apart (T a b : Q) : Prop := a + T <= b.

End Gate.

(** ** The activity state machine ([state_machine/state_manager.py]) *)

Module StateManager.

(** [class State(Enum)]. *)
Inductive State : Type := IDLE | TALKING | PLAYING | THINKING.

Definition State_eqb (a b : State) : bool :=
  match a, b with
  | IDLE, IDLE | TALKING, TALKING | PLAYING, PLAYING
  | THINKING, THINKING => true
  | _, _ => false
  end.

(** An element of [state_history]: the tuple
    [(datetime.now(), new_state, reason)]. *)
Definition Entry : Type := (Q * State * option string)%type.

(** The object's three attributes. *)
Record t : Type := mk {
  current_state : State;
  state_history : list Entry;
  state_start_time : Q
}.

(** [__init__], constructed at wall-clock time [now]. *)
Definition init (initial_state : State) (now : Q) : t :=
  {| current_state := initial_state;
     state_history := [];
     state_start_time := now |}.

(** [transition_to] reads [datetime.now()] three times when it accepts a
    request: for the duration, for the new start time and for the history
    tuple. *)
Record Readings : Type := mkReadings {
  at_duration : Q;
  at_start : Q;
  at_record : Q
}.

(** The message [transition_to] hands to [logger.info]:
    old state, new state, duration of the old state, reason. *)
Record LogLine : Type := mkLogLine {
  log_from : State;
  log_to : State;
  log_duration : Q;
  log_reason : string
}.

(** Python's [reason or 'N/A']. *)
Definition reason_or_na (reason : option string) : string :=
  match reason with
  | None => "N/A"%string
  | Some EmptyString => "N/A"%string
  | Some r => r
  end.

(** [transition_to(new_state, reason)]: the object afterwards and the log
    line written, if any. *)
Definition transition_to (new_state : State) (reason : option string)
    (clk : Readings) (sm : t) : t * option LogLine :=
  if State_eqb new_state (current_state sm) then (sm, None)
  else
    let old_state := current_state sm in
    let duration := at_duration clk - state_start_time sm in
    ({| current_state := new_state;
        state_history :=
          state_history sm ++ [(at_record clk, new_state, reason)];
        state_start_time := at_start clk |},
     Some {| log_from := old_state; log_to := new_state;
             log_duration := duration;
             log_reason := reason_or_na reason |}).

(** [can_transition_to]: every branch returns [True]. *)
Definition can_transition_to (new_state : State) (sm : t) : bool :=
  if State_eqb (current_state sm) PLAYING && State_eqb new_state TALKING
  then true
  else if State_eqb (current_state sm) TALKING && State_eqb new_state PLAYING
  then true
  else if State_eqb (current_state sm) THINKING then true
  else true.

(** [update_state_from_decision(decision_type)]. *)
Definition update_state_from_decision (decision_type : string)
    (clk : Readings) (sm : t) : t * option LogLine :=
  if String.eqb decision_type "GOAL" then
    if can_transition_to PLAYING sm
    then transition_to PLAYING (Some "Decisão: GOAL"%string) clk sm
    else (sm, None)
  else if String.eqb decision_type "SAY" then
    if can_transition_to TALKING sm
    then transition_to TALKING (Some "Decisão: SAY"%string) clk sm
    else (sm, None)
  else if String.eqb decision_type "IDLE" then
    if can_transition_to IDLE sm
    then transition_to IDLE (Some "Decisão: IDLE"%string) clk sm
    else (sm, None)
  else (sm, None).

(** [set_thinking]. *)
Definition set_thinking (clk : Readings) (sm : t) : t * option LogLine :=
  if can_transition_to THINKING sm
  then transition_to THINKING (Some "Processando decisão"%string) clk sm
  else (sm, None).

(** A transition request together with the clock readings it would make. *)
Record Request : Type := mkRequest {
  target : State;
  why : option string;
  clock : Readings
}.

(** A sequence of requests: the object afterwards and the log lines written,
    in order. *)
Fixpoint run (reqs : list Request) (sm : t) : t * list LogLine :=
  match reqs with
  | [] => (sm, [])
  | r :: rest =>
      let (sm1, line) := transition_to (target r) (why r) (clock r) sm in
      let (sm2, lines) := run rest sm1 in
      (sm2, match line with Some l => l :: lines | None => lines end)
  end.

(** How many requests of a sequence target a state other than the one the
    machine is in when they arrive. *)
Fixpoint accepted (reqs : list Request) (sm : t) : nat :=
  match reqs with
  | [] => 0
  | r :: rest =>
      let sm1 := fst (transition_to (target r) (why r) (clock r) sm) in
      if State_eqb (target r) (current_state sm)
      then accepted rest sm1
      else S (accepted rest sm1)
  end.

(** The wall clock never runs backwards over the readings of a sequence of
    requests, [prev] being the latest reading before it. *)
Fixpoint clock_monotone (prev : Q) (reqs : list Request) : Prop :=
  match reqs with
  | [] => True
  | r :: rest =>
      prev <= at_duration (clock r)
      /\ at_duration (clock r) <= at_start (clock r)
      /\ at_start (clock r) <= at_record (clock r)
      /\ clock_monotone (at_record (clock r)) rest
  end.

(** The reading of the claim that every history record carries the
    from-state and the prior duration: both could be read off the record
    appended by an accepted transition. *)
Definition record_carries_from_and_duration : Prop :=
  exists (from_of : Entry -> State) (duration_of : Entry -> Q),
  forall new_state reason clk sm,
    State_eqb new_state (current_state sm) = false ->
    exists e,
      state_history (fst (transition_to new_state reason clk sm))
        = state_history sm ++ [e]
      /\ from_of e = current_state sm
      /\ duration_of e == at_duration clk - state_start_time sm.

(** [get_state_duration()] at wall-clock time [now]. *)
Definition get_state_duration (now : Q) (sm : t) : Q :=
  now - state_start_time sm.

(** [get_current_state()]. *)
Definition get_current_state (sm : t) : State := current_state sm.

(** [get_recent_history(count)]:
    [state_history[-count:] if len(state_history) > count else
    state_history]. *)
Definition get_recent_history (count : Z) (sm : t) : list Entry :=
  if (count <? Z.of_nat (List.length (state_history sm)))%Z
  then Py.slice_from (- count) (state_history sm)
  else state_history sm.

(** The state a history record names. *)
Definition entry_state (e : Entry) : State := snd (fst e).

(** The timestamp of a history record. *)
Definition entry_time (e : Entry) : Q := fst (fst e).

(** No record of the list names the state of the record before it, [prev]
    being the state before the first. *)
Fixpoint no_stutter (prev : State) (h : list Entry) : Prop :=
  match h with
  | [] => True
  | e :: rest => entry_state e <> prev /\ no_stutter (entry_state e) rest
  end.

(** The state the last record names, or [initial] when there is none. *)
Definition last_state (initial : State) (h : list Entry) : State :=
  last (map entry_state h) initial.

(** The history is the path the machine took. *)
Definition on_path (initial : State) (sm : t) : Prop :=
  no_stutter initial (state_history sm)
  /\ current_state sm = last_state initial (state_history sm).

(** The record times are sorted and none is later than [prev]; the state
    started no later than [prev] either. *)
Definition timed (prev : Q) (sm : t) : Prop :=
  StronglySorted Qle (map entry_time (state_history sm))
  /\ Forall (fun a => a <= prev) (map entry_time (state_history sm))
  /\ state_start_time sm <= prev.

(** The state [update_state_from_decision] asks for. *)
Definition decision_state (decision_type : string) : option State :=
  if String.eqb decision_type "GOAL" then Some PLAYING
  else if String.eqb decision_type "SAY" then Some TALKING
  else if String.eqb decision_type "IDLE" then Some IDLE
  else None.

End StateManager.

(** ** [asyncio.Queue], as far as the channel uses it *)

Module AsyncQueue.

(** A FIFO with its [maxsize]; [maxsize <= 0] means no bound. *)
Record t (A : Type) : Type := mk {
  maxsize : Z;
  items : list A
}.
Arguments mk {A} _ _.
Arguments maxsize {A} _.
Arguments items {A} _.

(** [asyncio.Queue()]: the default [maxsize] is [0]. *)
Definition create {A : Type} : t A := mk 0%Z [].

Definition qsize {A : Type} (q : t A) : Z := Z.of_nat (List.length (items q)).

(** [full()]: never, when [maxsize <= 0]. *)
Definition full {A : Type} (q : t A) : bool :=
  if (maxsize q <=? 0)%Z then false else (maxsize q <=? qsize q)%Z.

(** [put_nowait(x)]: [None] stands for [QueueFull]. *)
Definition put_nowait {A : Type} (x : A) (q : t A) : option (t A) :=
  if full q then None else Some (mk (maxsize q) (items q ++ [x])).

(** [get_nowait()]: [None] stands for [QueueEmpty]. *)
Definition get_nowait {A : Type} (q : t A) : option (A * t A) :=
  match items q with
  | [] => None
  | x :: rest => Some (x, mk (maxsize q) rest)
  end.

End AsyncQueue.

(** ** The actuation channel ([planner_layer/unity_client.py]) *)

Module UnityClient.

(** The [cmd] field of a message. *)
Inductive Cmd : Type := ACTION | SAY | EMOTION | PING.

(** The message dictionaries built by [send_action], [send_say],
    [send_emotion] and [ping]; an absent key is [None]. *)
Record Message : Type := mkMessage {
  cmd : Cmd;
  value : option string;
  timestamp : Q;
  duration : option Q;
  audio_data : option string;
  audio_format : option string
}.

(** The client.  [writer] is whether [self.writer] is set; [wire] lists the
    messages fully written to the connection, [attempts] every message whose
    transmission was started, and [reconnects] counts the
    [_schedule_reconnect] tasks created. *)
Record t : Type := mk {
  is_connected : bool;
  writer : bool;
  should_reconnect : bool;
  _send_queue : AsyncQueue.t Message;
  wire : list Message;
  attempts : list Message;
  reconnects : nat
}.

(** [__init__]: disconnected, with [asyncio.Queue()] as send queue. *)
Definition init : t :=
  {| is_connected := false; writer := false; should_reconnect := true;
     _send_queue := AsyncQueue.create;
     wire := []; attempts := []; reconnects := 0 |}.

Definition with_queue (q : AsyncQueue.t Message) (c : t) : t :=
  {| is_connected := is_connected c; writer := writer c;
     should_reconnect := should_reconnect c;
     _send_queue := q;
     wire := wire c; attempts := attempts c; reconnects := reconnects c |}.

(** [_queue_message(message)]: [put_nowait]; on [QueueFull], [get_nowait]
    then [put_nowait] again, any exception of the two being swallowed. *)
Definition _queue_message (message : Message) (c : t) : t :=
  match AsyncQueue.put_nowait message (_send_queue c) with
  | Some q => with_queue q c
  | None =>
      match AsyncQueue.get_nowait (_send_queue c) with
      | None => c
      | Some (_, q1) =>
          match AsyncQueue.put_nowait message q1 with
          | Some q2 => with_queue q2 c
          | None => with_queue q1 c
          end
      end
  end.

(** [send_action(action)] at wall-clock time [now]. *)
Definition send_action (action : string) (now : Q) (c : t) : t :=
  _queue_message
    {| cmd := ACTION; value := Some action; timestamp := now;
       duration := None; audio_data := None; audio_format := None |} c.

(** Python's truth value of an optional string: set and not empty. *)
Definition truthy (s : option string) : bool :=
  match s with
  | None => false
  | Some EmptyString => false
  | Some _ => true
  end.

(** [send_say(text, audio_data, audio_format)] at wall-clock time [now]. *)
Definition send_say (text : option string) (audio : option string)
    (format : string) (now : Q) (c : t) : t :=
  _queue_message
    {| cmd := SAY; value := text; timestamp := now; duration := None;
       audio_data := if truthy audio then audio else None;
       audio_format := if truthy audio then Some format else None |} c.

(** What happens to a transmission: the three statements
    [_prepare_message_data], [writer.write], [writer.drain] all return, or
    one of them raises. *)
Inductive Outcome : Type := Delivered | Raised.

(** One turn of the [while] loop of [_sender_loop], entered with the loop
    condition true.  An empty queue makes [wait_for] time out and the loop
    [continue]. *)
Definition sender_iteration (o : Outcome) (c : t) : t :=
  match AsyncQueue.get_nowait (_send_queue c) with
  | None => c
  | Some (message, q) =>
      if is_connected c && writer c then
        match o with
        | Delivered =>
            {| is_connected := is_connected c; writer := writer c;
               should_reconnect := should_reconnect c;
               _send_queue := q;
               wire := wire c ++ [message];
               attempts := attempts c ++ [message];
               reconnects := reconnects c |}
        | Raised =>
            {| is_connected := false; writer := false;
               should_reconnect := should_reconnect c;
               _send_queue := q;
               wire := wire c;
               attempts := attempts c ++ [message];
               reconnects :=
                 if should_reconnect c then S (reconnects c)
                 else reconnects c |}
        end
      else
        {| is_connected := is_connected c; writer := writer c;
           should_reconnect := should_reconnect c;
           _send_queue :=
             AsyncQueue.mk (AsyncQueue.maxsize q)
                           (AsyncQueue.items q ++ [message]);
           wire := wire c; attempts := attempts c;
           reconnects := reconnects c |}
  end.

(** [connect()], [opened] telling whether [asyncio.open_connection]
    returned. *)
Definition connect (opened : bool) (c : t) : t :=
  if is_connected c then c
  else if opened then
    {| is_connected := true; writer := true;
       should_reconnect := should_reconnect c;
       _send_queue := _send_queue c;
       wire := wire c; attempts := attempts c; reconnects := reconnects c |}
  else
    {| is_connected := false; writer := writer c;
       should_reconnect := should_reconnect c;
       _send_queue := _send_queue c;
       wire := wire c; attempts := attempts c;
       reconnects :=
         if should_reconnect c then S (reconnects c) else reconnects c |}.

(** What the channel does next: a turn of the sender loop, or a [connect]
    run by a reconnect task.  Producers are not interleaved here. *)
Inductive Step : Type :=
| Turn (o : Outcome)
| Reconnect (opened : bool).

Definition step (s : Step) (c : t) : t :=
  match s with
  | Turn o =>
      if should_reconnect c || is_connected c
      then sender_iteration o c else c
  | Reconnect opened =>
      if should_reconnect c && negb (is_connected c)
      then connect opened c else c
  end.

Definition run (steps : list Step) (c : t) : t :=
  fold_left (fun acc s => step s acc) steps c.

(** Producers enqueue a list of messages, one call each. *)
Definition enqueue_all (ms : list Message) (c : t) : t :=
  fold_left (fun acc m => _queue_message m acc) ms c.

Definition pending (c : t) : list Message := AsyncQueue.items (_send_queue c).

(** A message lost in flight: its transmission was started, it is not on the
    wire, and no message is both attempted and pending, or attempted or
    pending twice. *)
Definition lost (m : Message) (c : t) : Prop :=
  NoDup (attempts c ++ pending c)
  /\ In m (attempts c)
  /\ ~ In m (wire c).

(** [send_emotion(emotion, duration)] at wall-clock time [now]. *)
Definition send_emotion (emotion : string) (seconds : Q) (now : Q) (c : t)
    : t :=
  _queue_message
    {| cmd := EMOTION; value := Some emotion; timestamp := now;
       duration := Some seconds; audio_data := None; audio_format := None |} c.

(** [ping()] at wall-clock time [now]: the answer and the client
    afterwards. *)
Definition ping (now : Q) (c : t) : bool * t :=
  if is_connected c && writer c then
    (true,
     _queue_message
       {| cmd := PING; value := None; timestamp := now; duration := None;
          audio_data := None; audio_format := None |} c)
  else (false, c).


(** A list turned by [j] places: its first [j] elements moved to the end. *)
Definition rotate {A : Type} (j : nat) (l : list A) : list A :=
  skipn j l ++ firstn j l.

(** A step with the reconnect tasks followed: [tasks] counts the
    [_schedule_reconnect] tasks created and not yet run.  A [Reconnect] step
    runs one of them, and cannot happen ([None]) when there is none. *)
Definition step_tasks (s : Step) (st : t * nat) : option (t * nat) :=
  let (c, tasks) := st in
  let c1 := step s c in
  let created := (reconnects c1 - reconnects c)%nat in
  match s with
  | Turn _ => Some (c1, (tasks + created)%nat)
  | Reconnect _ =>
      match tasks with
      | O => None
      | S n => Some (c1, (n + created)%nat)
      end
  end.

Fixpoint run_tasks (steps : list Step) (st : t * nat) : option (t * nat) :=
  match steps with
  | [] => Some st
  | s :: rest =>
      match step_tasks s st with
      | Some st1 => run_tasks rest st1
      | None => None
      end
  end.

(** At most one reconnect task waits, and none while the channel is up. *)
Definition tidy (st : t * nat) : Prop :=
  (snd st <= 1)%nat /\ (is_connected (fst st) = true -> snd st = O).

End UnityClient.

(** ** The action executor ([planner_layer/executor.py]) *)

Module Executor.

(** The constructor's two numeric arguments. *)
Record Config : Type := mkConfig {
  action_cooldown : Q;
  max_actions_per_sec : Q
}.

(** [self.min_interval = 1.0 / max_actions_per_sec if max_actions_per_sec > 0
    else 0]. *)
Definition min_interval (cfg : Config) : Q :=
  if Qgt_bool (max_actions_per_sec cfg) 0
  then 1 / max_actions_per_sec cfg else 0.

(** The executor's mutable attributes. *)
Record t : Type := mk {
  last_action_time : option Q;
  action_times : list Q
}.

Definition init : t := {| last_action_time := None; action_times := [] |}.

(** What the executor runs in: the clock, the channel it hands commands to,
    the time a call of [send_action] takes, and the sleeps made so far.
    [asyncio.sleep(d)] is taken to last exactly [d], its guaranteed
    minimum. *)
Record World : Type := mkWorld {
  clock : Q;
  unity_client : UnityClient.t;
  send_latency : Q;
  sleeps : list Q
}.

Definition sleep (d : Q) (w : World) : World :=
  {| clock := clock w + d; unity_client := unity_client w;
     send_latency := send_latency w; sleeps := sleeps w ++ [d] |}.

(** [await self.unity_client.send_action(action)]. *)
Definition send (action : string) (w : World) : World :=
  {| clock := clock w + send_latency w;
     unity_client := UnityClient.send_action action (clock w) (unity_client w);
     send_latency := send_latency w; sleeps := sleeps w |}.

(** [_check_rate_limit()] at time [now]. *)
Definition _check_rate_limit (cfg : Config) (now : Q) (ex : t) : bool :=
  match action_times ex with
  | [] => true
  | _ :: _ =>
      let recent_count :=
        List.length
          (filter (fun t => Qle_bool (now - t) 1) (action_times ex)) in
      negb (Qle_bool (max_actions_per_sec cfg)
                     (inject_Z (Z.of_nat recent_count)))
  end.

(** The body of the [for] loop of [execute_actions]. *)
Definition execute_one (cfg : Config) (st : World * t) (action : string)
    : World * t :=
  let (w, ex) := st in
  let w1 :=
    if _check_rate_limit cfg (clock w) ex then w
    else sleep (min_interval cfg) w in
  let w2 := send action w1 in
  let now := clock w2 in
  let cutoff := now - 1 in
  let ex1 :=
    {| last_action_time := Some now;
       action_times :=
         filter (fun t => Qgt_bool t cutoff) (action_times ex ++ [now]) |} in
  let w3 :=
    if Qgt_bool (action_cooldown cfg) 0
    then sleep (action_cooldown cfg) w2 else w2 in
  (w3, ex1).

(** [execute_actions(actions)]. *)
Definition execute_actions (cfg : Config) (actions : list string)
    (st : World * t) : World * t :=
  match actions with
  | [] => st
  | _ :: _ => fold_left (execute_one cfg) actions st
  end.

(** The times at which the commands now in the channel were handed over. *)
Definition sent_times (w : World) : list Q :=
  map UnityClient.timestamp (UnityClient.pending (unity_client w)).

(** The action names now in the channel, oldest first. *)
Definition sent_actions (w : World) : list (option string) :=
  map UnityClient.value (UnityClient.pending (unity_client w)).

(** How many commands were handed over in the trailing one-second window
    that ends at [t], the window being open at its far end. *)
Definition window_count (t : Q) (times : list Q) : nat :=
  List.length
    (filter (fun s => Qgt_bool s (t - 1) && Qle_bool s t) times).

(** A fresh world at time [t0] with an empty, disconnected channel. *)
Definition fresh_world (t0 latency : Q) : World :=
  {| clock := t0; unity_client := UnityClient.init;
     send_latency := latency; sleeps := [] |}.

(** Two hand-overs are at least [c] apart. *)
Definition gap (c a b : Q) : Prop := a + c <= b.

(** The hand-overs so far are at least [c] apart from one another and lie at
    least [c] before the present. *)
Definition cooled (c : Q) (w : World) : Prop :=
  StronglySorted (gap c) (sent_times w)
  /\ Forall (fun t => t + c <= clock w) (sent_times w).

End Executor.

(** ** The fixed-timestep game loop ([main.py], [_pokemon_game_loop]) *)

Module GameLoop.

(** [class GameBoyButton(IntEnum)]. *)
Inductive GameBoyButton : Type :=
  A | B | SELECT | START | RIGHT | LEFT | UP | DOWN.

(** The integer behind each member. *)
Definition button_value (b : GameBoyButton) : Z :=
  match b with
  | A => 0 | B => 1 | SELECT => 2 | START => 3
  | RIGHT => 4 | LEFT => 5 | UP => 6 | DOWN => 7
  end%Z.

(** The dictionary [button_map] of the loop. *)
Definition button_map (action : Z) : option GameBoyButton :=
  if (action =? 1)%Z then Some A
  else if (action =? 2)%Z then Some B
  else if (action =? 3)%Z then Some START
  else if (action =? 4)%Z then Some SELECT
  else if (action =? 5)%Z then Some UP
  else if (action =? 6)%Z then Some DOWN
  else if (action =? 7)%Z then Some LEFT
  else if (action =? 8)%Z then Some RIGHT
  else None.

(** The two ways [pending_action_future] is created: by [run_in_executor],
    completed when the worker returns, or as an [asyncio.Future] whose result
    is set on the spot. *)
Inductive Future : Type :=
| InExecutor
| Completed (action : Z).

(** [self.rl_agent] when set: an agent with an [env] attribute
    ([PokemonRLAgent]) or one without ([SimpleAgent]). *)
Inductive Agent : Type := WithEnv | Simple.

(** The loop's local variables. *)
Record Loop : Type := mkLoop {
  frame_count : Z;
  last_action_frame : Z;
  last_vision_frame : Z;
  pending_action_future : option Future;
  current_button : option GameBoyButton;
  button_frames_remaining : Z
}.

(** The values the locals are given before the [while]. *)
Definition init : Loop :=
  {| frame_count := 0; last_action_frame := 0; last_vision_frame := 0;
     pending_action_future := None; current_button := None;
     button_frames_remaining := 0 |}.

Definition action_interval_frames : Z := 12.
Definition vision_update_interval : Z := 120.

(** What the surroundings decide in one frame: the control mode, whether a
    future handed to the worker is done and what its [result()] gives
    ([None]: it raises), and what [SimpleAgent.predict] gives ([None]: it
    raises).  Calls into the emulator are taken to return. *)
Record Frame : Type := mkFrame {
  is_manual_mode : bool;
  worker_done : bool;
  worker_result : option Z;
  simple_predict : option Z
}.

(** What a frame does, in order. *)
Inductive Event : Type :=
| EmulatorTick
| Button (b : GameBoyButton)
| ButtonRelease (b : GameBoyButton)
| VisionRefresh
| Collected
| Dispatched (a : Agent)
| DispatchFailed.

(** Python's truth value of [current_button]: an [IntEnum] member is false
    when its integer is zero. *)
Definition button_truthy (b : option GameBoyButton) : bool :=
  match b with
  | None => false
  | Some x => negb (button_value x =? 0)%Z
  end.

Definition with_frame_count (n : Z) (l : Loop) : Loop :=
  {| frame_count := n; last_action_frame := last_action_frame l;
     last_vision_frame := last_vision_frame l;
     pending_action_future := pending_action_future l;
     current_button := current_button l;
     button_frames_remaining := button_frames_remaining l |}.

Definition with_button (b : option GameBoyButton) (n : Z) (l : Loop) : Loop :=
  {| frame_count := frame_count l; last_action_frame := last_action_frame l;
     last_vision_frame := last_vision_frame l;
     pending_action_future := pending_action_future l;
     current_button := b;
     button_frames_remaining := n |}.

Definition with_pending (p : option Future) (l : Loop) : Loop :=
  {| frame_count := frame_count l; last_action_frame := last_action_frame l;
     last_vision_frame := last_vision_frame l;
     pending_action_future := p;
     current_button := current_button l;
     button_frames_remaining := button_frames_remaining l |}.

Definition with_last_action (n : Z) (l : Loop) : Loop :=
  {| frame_count := frame_count l; last_action_frame := n;
     last_vision_frame := last_vision_frame l;
     pending_action_future := pending_action_future l;
     current_button := current_button l;
     button_frames_remaining := button_frames_remaining l |}.

Definition with_last_vision (n : Z) (l : Loop) : Loop :=
  {| frame_count := frame_count l; last_action_frame := last_action_frame l;
     last_vision_frame := n;
     pending_action_future := pending_action_future l;
     current_button := current_button l;
     button_frames_remaining := button_frames_remaining l |}.

(** [self.pyboy_client.tick(1); frame_count += 1]. *)
Definition emulate (l : Loop) : list Event * Loop :=
  ([EmulatorTick], with_frame_count (frame_count l + 1) l).

(** The block under [if button_frames_remaining > 0]. *)
Definition hold_button (l : Loop) : list Event * Loop :=
  if (0 <? button_frames_remaining l)%Z then
    let held :=
      match current_button l with
      | Some b => if button_truthy (Some b) then [Button b] else []
      | None => []
      end in
    let n := (button_frames_remaining l - 1)%Z in
    match current_button l with
    | Some b =>
        if (n =? 0)%Z
        then (held ++ [ButtonRelease b], with_button None n l)
        else (held, with_button (Some b) n l)
    | None => (held, with_button None n l)
    end
  else ([], l).

(** The vision refresh, every [vision_update_interval] frames. *)
Definition refresh_vision (l : Loop) : list Event * Loop :=
  if (vision_update_interval <=? frame_count l - last_vision_frame l)%Z
  then ([VisionRefresh], with_last_vision (frame_count l) l)
  else ([], l).

(** [pending_action_future.done()] and [.result()] for each kind of
    future. *)
Definition future_done (f : Frame) (p : Future) : bool :=
  match p with InExecutor => worker_done f | Completed _ => true end.

Definition future_result (f : Frame) (p : Future) : option Z :=
  match p with InExecutor => worker_result f | Completed a => Some a end.

(** The block under the first [if not is_manual_mode]: collect a finished
    decision and press its button. *)
Definition collect (f : Frame) (l : Loop) : list Event * Loop :=
  if is_manual_mode f then ([], l)
  else
    match pending_action_future l with
    | None => ([], l)
    | Some p =>
        if future_done f p then
          match future_result f p with
          | None => ([Collected], with_pending None l)
          | Some action =>
              let l1 := with_pending None l in
              if (0 <? action)%Z then
                match button_map action with
                | Some b => ([Collected; Button b], with_button (Some b) 8 l1)
                | None => ([Collected], l1)
                end
              else ([Collected], l1)
          end
        else ([], l)
    end.

(** The block under the second [if not is_manual_mode and ...]: start a new
    decision. *)
Definition dispatch (agent : option Agent) (f : Frame) (l : Loop)
    : list Event * Loop :=
  if negb (is_manual_mode f)
     && match pending_action_future l with None => true | Some _ => false end
     && (action_interval_frames <=? frame_count l - last_action_frame l)%Z
  then
    let l1 := with_last_action (frame_count l) l in
    match agent with
    | None => ([], l1)
    | Some a =>
        if (button_frames_remaining l1 =? 0)%Z then
          match a with
          | WithEnv => ([Dispatched WithEnv], with_pending (Some InExecutor) l1)
          | Simple =>
              match simple_predict f with
              | Some action =>
                  ([Dispatched Simple],
                   with_pending (Some (Completed action)) l1)
              | None => ([DispatchFailed], l1)
              end
          end
        else ([], l1)
    end
  else ([], l).

(** The locals as they stand when the dispatch condition is evaluated. *)
Definition before_dispatch (f : Frame) (l : Loop) : Loop :=
  snd (collect f (snd (refresh_vision (snd (hold_button (snd (emulate l))))))).

(** One turn of the [while] loop. *)
Definition tick (agent : option Agent) (f : Frame) (l : Loop)
    : list Event * Loop :=
  let (e1, l1) := emulate l in
  let (e2, l2) := hold_button l1 in
  let (e3, l3) := refresh_vision l2 in
  let (e4, l4) := collect f l3 in
  let (e5, l5) := dispatch agent f l4 in
  (e1 ++ e2 ++ e3 ++ e4 ++ e5, l5).

(** A run of the loop over the given frames. *)
Fixpoint run (agent : option Agent) (frames : list Frame) (l : Loop)
    : list Event * Loop :=
  match frames with
  | [] => ([], l)
  | f :: rest =>
      let (e, l1) := tick agent f l in
      let (es, l2) := run agent rest l1 in
      (e ++ es, l2)
  end.

(** A decision request was made: a handle was stored, or the request itself
    failed. *)
Definition is_dispatch (e : Event) : bool :=
  match e with
  | Dispatched _ | DispatchFailed => true
  | _ => false
  end.

Definition dispatches (es : list Event) : nat :=
  List.length (filter is_dispatch es).

(** Scans a trace, [outstanding] telling whether a decision is in flight:
    no request is made while one is in flight, and only a decision in flight
    is collected. *)
Fixpoint single_in_flight (outstanding : bool) (es : list Event) : bool :=
  match es with
  | [] => true
  | Dispatched _ :: rest =>
      negb outstanding && single_in_flight true rest
  | DispatchFailed :: rest =>
      negb outstanding && single_in_flight false rest
  | Collected :: rest =>
      outstanding && single_in_flight false rest
  | _ :: rest => single_in_flight outstanding rest
  end.

(** Events that neither start nor collect a decision. *)
Definition neutral (e : Event) : bool :=
  match e with
  | Collected | Dispatched _ | DispatchFailed => false
  | _ => true
  end.

(** Whether a decision is in flight after a trace, given whether one was
    before it. *)
Fixpoint in_flight_after (outstanding : bool) (es : list Event) : bool :=
  match es with
  | [] => outstanding
  | Dispatched _ :: rest => in_flight_after true rest
  | DispatchFailed :: rest => in_flight_after false rest
  | Collected :: rest => in_flight_after false rest
  | _ :: rest => in_flight_after outstanding rest
  end.

(** Whether the loop holds a decision handle. *)
Definition has_pending (l : Loop) : bool :=
  match pending_action_future l with Some _ => true | None => false end.

(** How many events of a trace satisfy [p]. *)
Definition count (p : Event -> bool) (es : list Event) : nat :=
  List.length (filter p es).

Definition is_tick (e : Event) : bool :=
  match e with EmulatorTick => true | _ => false end.

Definition is_refresh (e : Event) : bool :=
  match e with VisionRefresh => true | _ => false end.

Definition is_release (e : Event) : bool :=
  match e with ButtonRelease _ => true | _ => false end.

Definition is_press (e : Event) : bool :=
  match e with Button _ => true | _ => false end.

(** The held-button countdown is within [0 .. 8], it is zero exactly when no
    button is held, and it is zero while a decision is in flight. *)
Definition steady (l : Loop) : Prop :=
  (0 <= button_frames_remaining l <= 8)%Z
  /\ (button_frames_remaining l = 0%Z <-> current_button l = None)
  /\ (pending_action_future l <> None -> button_frames_remaining l = 0%Z).

End GameLoop.

(** ** Text helpers for chat commands *)

Module Text.

(** Python's [x in [...]] on strings. *)
Definition mem (x : string) (l : list string) : bool :=
  existsb (String.eqb x) l.

End Text.

(** ** The event loop and its handlers ([main.py]) *)

Module MainLoop.

(** [class EventType(Enum)] of the platform-event listener. *)
Inductive EventType : Type :=
  FOLLOW | SUBSCRIBE | SUBSCRIPTION_GIFT | CHEER | RAID.

(** A platform event, as far as the loop reads it. *)
Record TwitchEvent : Type := mkTwitchEvent {
  event_type : EventType;
  display_name : string
}.

(** An in-session game event: its [event_type.value]. *)
Record GameEvent : Type := mkGameEvent {
  game_event_type : string
}.

(** [class ControlMode(Enum)] of the manual controller. *)
Inductive ControlMode : Type := AI | MANUAL.

(** The dictionary a brain call returns: its ["type"] and ["value"]. *)
Record Decision : Type := mkDecision {
  dtype : string;
  dvalue : option string
}.

(** The four entry points of the decision collaborator. *)
Inductive Request : Type :=
| ProcessEvent (event_type_str username : string)
| ProcessGameEvent (event_type_str : string)
| ProcessChatMessage (username message : string)
| MakeDecision.

(** What is configured: the [gameplay_comments.disable_brain_while_gaming]
    setting and which optional collaborators exist. *)
Record Config : Type := mkConfig {
  disable_brain_while_gaming : bool;
  overlay_server : bool;
  chat_listener : bool;
  tts_service : bool
}.

(** Where a dequeued item came from. *)
Inductive Item : Type :=
| PlatformItem (e : TwitchEvent)
| GameItem (g : GameEvent)
| ChatItem (username message : string).

(** What the loop and its handlers do to their surroundings, in order. *)
Inductive Effect : Type :=
| Dequeued (i : Item)
| AutonomousRequest
| BrainCall (r : Request)
| OverlayEvent (event_type_str username : string)
| OverlaySpeech (text : string)
| ChatSend (text : string)
| ModeNotification (m : ControlMode)
| SaveGame
| LoadGame.

(** A coroutine a callback has handed to [asyncio.create_task] and that has
    not run yet: [unity_client.send_say(text)], also as wrapped by
    [_send_control_mode_notification], and
    [chat_listener.send_chat_message(text)]. *)
Inductive Task : Type :=
| SayTask (text : string)
| ChatTask (text : string).

(** The places where a handler awaits something that may or may not hand
    control to the event loop: [wait_for(queue.get(), ...)] on a queue that
    has an item, a call of the decision collaborator, a broadcast to the
    overlay, a message to the chat, the speech synthesiser. *)
Inductive Await : Type :=
  AwaitGet | AwaitBrain | AwaitOverlay | AwaitChat | AwaitSpeech.

(** The attributes of [AvatarAISystem] the loop works on, the loop clock
    [now], the effects so far and the tasks created and not yet run. *)
Record Sys : Type := mkSys {
  events_queue : list TwitchEvent;
  game_events_queue : list GameEvent;
  chat_queue : list (string * string);
  gate : Gate.t;
  state_manager : StateManager.t;
  unity_client : UnityClient.t;
  manual_controller : option ControlMode;
  pokemon_enabled : bool;
  now : Q;
  trace : list Effect;
  tasks : list Task
}.

Definition set_events_queue (q : list TwitchEvent) (s : Sys) : Sys :=
  mkSys q (game_events_queue s) (chat_queue s) (gate s) (state_manager s)
        (unity_client s) (manual_controller s) (pokemon_enabled s) (now s)
        (trace s) (tasks s).

Definition set_game_events_queue (q : list GameEvent) (s : Sys) : Sys :=
  mkSys (events_queue s) q (chat_queue s) (gate s) (state_manager s)
        (unity_client s) (manual_controller s) (pokemon_enabled s) (now s)
        (trace s) (tasks s).

Definition set_chat_queue (q : list (string * string)) (s : Sys) : Sys :=
  mkSys (events_queue s) (game_events_queue s) q (gate s) (state_manager s)
        (unity_client s) (manual_controller s) (pokemon_enabled s) (now s)
        (trace s) (tasks s).

Definition set_gate (g : Gate.t) (s : Sys) : Sys :=
  mkSys (events_queue s) (game_events_queue s) (chat_queue s) g
        (state_manager s) (unity_client s) (manual_controller s)
        (pokemon_enabled s) (now s) (trace s) (tasks s).

Definition set_state_manager (m : StateManager.t) (s : Sys) : Sys :=
  mkSys (events_queue s) (game_events_queue s) (chat_queue s) (gate s) m
        (unity_client s) (manual_controller s) (pokemon_enabled s) (now s)
        (trace s) (tasks s).

Definition set_unity_client (c : UnityClient.t) (s : Sys) : Sys :=
  mkSys (events_queue s) (game_events_queue s) (chat_queue s) (gate s)
        (state_manager s) c (manual_controller s) (pokemon_enabled s) (now s)
        (trace s) (tasks s).

Definition set_manual_controller (m : option ControlMode) (s : Sys) : Sys :=
  mkSys (events_queue s) (game_events_queue s) (chat_queue s) (gate s)
        (state_manager s) (unity_client s) m (pokemon_enabled s) (now s)
        (trace s) (tasks s).

Definition set_now (t : Q) (s : Sys) : Sys :=
  mkSys (events_queue s) (game_events_queue s) (chat_queue s) (gate s)
        (state_manager s) (unity_client s) (manual_controller s)
        (pokemon_enabled s) t (trace s) (tasks s).

Definition set_trace (tr : list Effect) (s : Sys) : Sys :=
  mkSys (events_queue s) (game_events_queue s) (chat_queue s) (gate s)
        (state_manager s) (unity_client s) (manual_controller s)
        (pokemon_enabled s) (now s) tr (tasks s).

Definition set_tasks (ts : list Task) (s : Sys) : Sys :=
  mkSys (events_queue s) (game_events_queue s) (chat_queue s) (gate s)
        (state_manager s) (unity_client s) (manual_controller s)
        (pokemon_enabled s) (now s) (trace s) ts.

(** A task that gets its turn: the command is queued for the remote
    consumer, or the message goes out to the chat. *)
Definition run_task (t : Task) (s : Sys) : Sys :=
  match t with
  | SayTask text =>
      set_unity_client
        (UnityClient.send_say (Some text) None "mp3" (now s) (unity_client s))
        s
  | ChatTask text => set_trace (trace s ++ [ChatSend text]) s
  end.

(** The loop's coroutine suspends: the tasks created so far run, in the
    order of their creation. *)
Definition run_tasks (s : Sys) : Sys :=
  fold_left (fun acc t => run_task t acc) (tasks s) (set_tasks [] s).

(** An await that did or did not suspend. *)
Definition resume (suspended : bool) (s : Sys) : Sys :=
  if suspended then run_tasks s else s.

(** *** A state-and-exception monad for the coroutines *)

Inductive Res (A : Type) : Type :=
| Returned (a : A)
| Raised (exn : string).
Arguments Returned {A} _.
Arguments Raised {A} _.

Definition M (A : Type) : Type := Sys -> Res A * Sys.

Definition ret {A : Type} (a : A) : M A := fun s => (Returned a, s).

Definition raise {A : Type} (exn : string) : M A := fun s => (Raised exn, s).

Definition bind {A B : Type} (c : M A) (k : A -> M B) : M B :=
  fun s =>
    match c s with
    | (Returned a, s1) => k a s1
    | (Raised e, s1) => (Raised e, s1)
    end.

Definition gets {A : Type} (f : Sys -> A) : M A := fun s => (Returned (f s), s).

Definition modify (f : Sys -> Sys) : M unit := fun s => (Returned tt, f s).

Notation "x <- c ;; k" := (bind c (fun x => k))
  (at level 61, c at next level, right associativity).
Notation "c ;; k" := (bind c (fun _ => k))
  (at level 61, right associativity).

Definition emit (e : Effect) : M unit :=
  modify (fun s => set_trace (trace s ++ [e]) s).

(** [asyncio.create_task(...)]. *)
Definition spawn (t : Task) : M unit :=
  modify (fun s => set_tasks (tasks s ++ [t]) s).

(** [await asyncio.sleep(d)] with a positive [d], and a [wait_for] that runs
    into its timeout after [d]: the coroutine suspends, the tasks created so
    far run, and [d] passes. *)
Definition sleep (d : Q) : M unit :=
  modify (fun s => set_now (now s + d) (run_tasks s)).

(** Time that passes. *)
Definition pass (d : Q) : M unit :=
  modify (fun s => set_now (now s + d) s).

Definition when (b : bool) (c : M unit) : M unit :=
  if b then c else ret tt.

Section Handlers.

(** The collaborators: the decision collaborator, the time one of its calls
    takes, and the speech synthesiser ([None]: no audio came back); whether
    an await hands control to the event loop; Python's [str.strip] and
    [str.lower], left open; and what [pyboy_client.save_state] and
    [load_state] give ([None]: the call raises). *)
Variable cfg : Config.
Variable brain : Request -> Decision.
Variable brain_latency : Q.
Variable generate_speech : string -> option (string * string).
Variable suspends : Await -> Sys -> bool.
Variable strip : string -> string.
Variable lower : string -> string.
Variable save_state : option bool.
Variable load_state : option bool.

(** An await that may suspend. *)
Definition await (a : Await) : M unit :=
  modify (fun s => resume (suspends a s) s).

(** A call of the decision collaborator. *)
Definition ask (r : Request) : M Decision :=
  emit (BrainCall r) ;;
  await AwaitBrain ;;
  pass brain_latency ;;
  ret (brain r).

(** [self._can_make_brain_decision()], reading the loop clock. *)
Definition _can_make_brain_decision : M bool :=
  fun s =>
    let (ok, g) := Gate._can_make_brain_decision (now s) (gate s) in
    (Returned ok, set_gate g s).

(** The wall clock is read where the loop clock stands. *)
Definition readings (s : Sys) : StateManager.Readings :=
  StateManager.mkReadings (now s) (now s) (now s).

(** [self.state_manager.set_thinking()]. *)
Definition set_thinking : M unit :=
  modify (fun s =>
    set_state_manager
      (fst (StateManager.set_thinking (readings s) (state_manager s))) s).

(** [self.state_manager.update_state_from_decision(decision["type"])]. *)
Definition update_state_from_decision (decision_type : string) : M unit :=
  modify (fun s =>
    set_state_manager
      (fst (StateManager.update_state_from_decision
              decision_type (readings s) (state_manager s))) s).

(** [await self.unity_client.send_say(text, audio_data, audio_format)]: the
    command is put on the queue without the coroutine suspending. *)
Definition send_say (text : option string) (audio : option string)
    (format : string) : M unit :=
  modify (fun s =>
    set_unity_client
      (UnityClient.send_say text audio format (now s) (unity_client s)) s).

(** The message [_on_control_mode_change] chooses. *)
Definition mode_message (mode : ControlMode) : string :=
  match mode with
  | MANUAL => "🎮 Modo MANUAL ativado! O streamer assumiu o controle."
  | AI => "🤖 Modo AI ativado! O bot voltou a jogar."
  end.

(** [ManualController.set_mode(mode)]; on a change the callback
    [_on_control_mode_change] creates a task that sends the mode's message
    to the remote consumer. *)
Definition set_mode (mode : ControlMode) : M unit :=
  mc <- gets manual_controller ;;
  match mc, mode with
  | Some AI, AI | Some MANUAL, MANUAL | None, _ => ret tt
  | Some _, _ =>
      modify (set_manual_controller (Some mode)) ;;
      emit (ModeNotification mode) ;;
      spawn (SayTask (mode_message mode))
  end.

(** [ManualController.toggle_mode()]. *)
Definition toggle_mode : M unit :=
  mc <- gets manual_controller ;;
  match mc with
  | Some AI => set_mode MANUAL
  | _ => set_mode AI
  end.

(** The callback [_on_manual_control_message(message)]: a task that sends the
    message to the remote consumer and, with a chat listener, a task that
    sends it to the chat.  The reset of the gameplay commentator is not
    followed. *)
Definition _on_manual_control_message (message : string) : M unit :=
  spawn (SayTask message) ;;
  when (chat_listener cfg) (spawn (ChatTask message)).

(** [ManualController.save_game()]. *)
Definition save_game : M unit :=
  emit SaveGame ;;
  match save_state with
  | Some true => _on_manual_control_message "✅ Jogo salvo com sucesso!"
  | Some false => _on_manual_control_message "❌ Erro ao salvar jogo."
  | None => ret tt
  end.

(** [ManualController.load_game()]. *)
Definition load_game : M unit :=
  emit LoadGame ;;
  match load_state with
  | Some true => _on_manual_control_message "📂 Jogo carregado com sucesso!"
  | Some false =>
      _on_manual_control_message "❌ Erro ao carregar (arquivo não existe?)."
  | None => ret tt
  end.

(** [ManualController.process_chat_command(message)]. *)
Definition process_chat_command (message : string) : M bool :=
  let msg_lower := lower (strip message) in
  if Text.mem msg_lower ["!takeover"; "!manual"; "!control"; "!me"]%string
  then set_mode MANUAL ;; ret true
  else if Text.mem msg_lower ["!auto"; "!ai"; "!release"; "!bot"]%string
  then set_mode AI ;; ret true
  else if Text.mem msg_lower ["!toggle"; "!switch"]%string
  then toggle_mode ;; ret true
  else if Text.mem msg_lower ["!save"; "!savegame"]%string
  then save_game ;; ret true
  else if Text.mem msg_lower ["!load"; "!loadgame"]%string
  then load_game ;; ret true
  else ret false.

(** Whether [process_chat_command] takes the message as a control
    command. *)
Definition is_control_command (message : string) : bool :=
  Text.mem (lower (strip message))
    ["!takeover"; "!manual"; "!control"; "!me";
     "!auto"; "!ai"; "!release"; "!bot";
     "!toggle"; "!switch";
     "!save"; "!savegame";
     "!load"; "!loadgame"]%string.

(** The text [get_status_message()] returns in a mode. *)
Definition status_text (mode : ControlMode) : string :=
  match mode with
  | MANUAL =>
      "🎮 MODO MANUAL - Você está no controle! (F1 ou !ai para devolver)"
  | AI => "🤖 MODO IA - Bot está jogando (F1 ou !manual para assumir)"
  end.

(** [ManualController.get_status_message()]. *)
Definition get_status_message : M string :=
  mc <- gets manual_controller ;;
  match mc with
  | Some MANUAL => ret (status_text MANUAL)
  | _ => ret (status_text AI)
  end.

(** [_execute_decision(decision)].  In the [GOAL] branch the call
    [self.executor.execute_actions] raises: [__init__] rebinds
    [self.executor] to a [ThreadPoolExecutor], which has no such
    method. *)
Definition _execute_decision (decision : Decision) : M unit :=
  let decision_type := dtype decision in
  let decision_value := dvalue decision in
  if String.eqb decision_type "GOAL" then
    raise "AttributeError"
  else if String.eqb decision_type "SAY" then
    let with_speech := tts_service cfg && UnityClient.truthy decision_value in
    let speech :=
      if with_speech
      then match decision_value with
           | Some text => generate_speech text
           | None => None
           end
      else None in
    let audio_data := option_map fst speech in
    let audio_format :=
      match speech with Some (_, f) => f | None => "mp3"%string end in
    when with_speech (await AwaitSpeech) ;;
    send_say decision_value audio_data audio_format ;;
    when (overlay_server cfg && UnityClient.truthy decision_value)
         (match decision_value with
          | Some text => emit (OverlaySpeech text) ;; await AwaitOverlay
          | None => ret tt
          end) ;;
    when (chat_listener cfg && UnityClient.truthy decision_value)
         (match decision_value with
          | Some text => emit (ChatSend text) ;; await AwaitChat
          | None => ret tt
          end)
  else ret tt.

(** The dictionary [event_type_map] of [_process_twitch_event]. *)
Definition event_type_map (e : EventType) : string :=
  match e with
  | FOLLOW => "follow"
  | SUBSCRIBE => "subscribe"
  | SUBSCRIPTION_GIFT => "subscription_gift"
  | CHEER => "cheer"
  | RAID => "raid"
  end.

(** [_process_twitch_event(event)]: no gate. *)
Definition _process_twitch_event (event : TwitchEvent) : M unit :=
  set_thinking ;;
  let event_type_str := event_type_map (event_type event) in
  when (overlay_server cfg)
       (emit (OverlayEvent event_type_str (display_name event)) ;;
        await AwaitOverlay) ;;
  decision <- ask (ProcessEvent event_type_str (display_name event)) ;;
  update_state_from_decision (dtype decision) ;;
  _execute_decision decision.

(** [_process_game_event(game_event)]: no gate either. *)
Definition _process_game_event (game_event : GameEvent) : M unit :=
  if disable_brain_while_gaming cfg then ret tt
  else
    set_thinking ;;
    decision <- ask (ProcessGameEvent (game_event_type game_event)) ;;
    update_state_from_decision (dtype decision) ;;
    _execute_decision decision.

(** [_process_chat_message(username, message)]. *)
Definition _process_chat_message (username message : string) : M unit :=
  mc <- gets manual_controller ;;
  handled <- match mc with
             | Some _ => process_chat_command message
             | None => ret false
             end ;;
  if handled then
    status <- get_status_message ;;
    send_say (Some status) None "mp3" ;;
    when (chat_listener cfg) (emit (ChatSend status) ;; await AwaitChat)
  else
    ok <- _can_make_brain_decision ;;
    if negb ok then ret tt
    else
      set_thinking ;;
      decision <- ask (ProcessChatMessage username message) ;;
      update_state_from_decision (dtype decision) ;;
      _execute_decision decision.

(** [_make_autonomous_decision()]. *)
Definition _make_autonomous_decision : M unit :=
  enabled <- gets pokemon_enabled ;;
  if enabled && disable_brain_while_gaming cfg then ret tt
  else
    ok <- _can_make_brain_decision ;;
    if negb ok then ret tt
    else
      set_thinking ;;
      decision <- ask MakeDecision ;;
      update_state_from_decision (dtype decision) ;;
      _execute_decision decision.

(** [await asyncio.wait_for(queue.get(), timeout=0.05)]: the head of the
    queue, or a timeout after 0.05 s when the queue is empty.  Items are taken
    to arrive between turns of the loop, not during a wait. *)
Definition poll {A : Type} (queue : Sys -> list A)
    (set_queue : list A -> Sys -> Sys) : M (option A) :=
  q <- gets queue ;;
  match q with
  | x :: rest => await AwaitGet ;; modify (set_queue rest) ;; ret (Some x)
  | [] => sleep (1 # 20) ;; ret None
  end.

(** How a turn of the [while] loop of [_main_loop] ends: at a [continue],
    at the end of the body, or in the [except] clause. *)
Inductive Flow : Type := Restarted | RanToEnd | Caught.

Definition autonomous_decision_interval : Q := 5.

(** The third poll of the body: a chat message, if one is queued, is handed to
    [_process_chat_message]; there is no [continue] after it. *)
Definition serve_chat : M unit :=
  chat <- poll chat_queue set_chat_queue ;;
  match chat with
  | Some (username, message) =>
      emit (Dequeued (ChatItem username message)) ;;
      _process_chat_message username message
  | None => ret tt
  end.

(** The periodic autonomous decision of the body; the value returned is the
    new [last_autonomous_decision]. *)
Definition autonomous_check (last_autonomous_decision : Q) : M Q :=
  current_time <- gets now ;;
  if Qge_bool (current_time - last_autonomous_decision)
              autonomous_decision_interval
  then
    chat_q <- gets chat_queue ;;
    events_q <- gets events_queue ;;
    match chat_q, events_q with
    | [], [] => emit AutonomousRequest ;; _make_autonomous_decision
    | _, _ => ret tt
    end ;;
    ret current_time
  else ret last_autonomous_decision.

(** The body of the [try] of [_main_loop]; the value returned is how the
    turn ended and the new [last_autonomous_decision]. *)
Definition body (last_autonomous_decision : Q) : M (Flow * Q) :=
  event <- poll events_queue set_events_queue ;;
  match event with
  | Some e =>
      emit (Dequeued (PlatformItem e)) ;;
      _process_twitch_event e ;;
      ret (Restarted, last_autonomous_decision)
  | None =>
      game_event <- poll game_events_queue set_game_events_queue ;;
      match game_event with
      | Some g =>
          emit (Dequeued (GameItem g)) ;;
          _process_game_event g ;;
          ret (Restarted, last_autonomous_decision)
      | None =>
          serve_chat ;;
          last <- autonomous_check last_autonomous_decision ;;
          sleep (1 # 20) ;;
          ret (RanToEnd, last)
      end
  end.

(** One turn of the [while] loop, the [except Exception] clause with its
    [asyncio.sleep(1.0)] included. *)
Definition iteration (last_autonomous_decision : Q) (s : Sys)
    : Flow * Q * Sys :=
  match body last_autonomous_decision s with
  | (Returned (flow, last), s1) => (flow, last, s1)
  | (Raised _, s1) =>
      (Caught, last_autonomous_decision,
       set_now (now s1 + 1) (run_tasks s1))
  end.

(** The items a trace shows as dequeued, in order. *)
Fixpoint dequeued (tr : list Effect) : list Item :=
  match tr with
  | [] => []
  | Dequeued i :: rest => i :: dequeued rest
  | _ :: rest => dequeued rest
  end.

(** The outbound commands in the channel's queue. *)
Definition outbound (s : Sys) : list UnityClient.Message :=
  UnityClient.pending (unity_client s).

(** The calls of the decision collaborator a trace shows. *)
Fixpoint brain_calls (tr : list Effect) : list Request :=
  match tr with
  | [] => []
  | BrainCall r :: rest => r :: brain_calls rest
  | _ :: rest => brain_calls rest
  end.

End Handlers.

(** The effects that take an item off a queue. *)
Definition is_dequeue (e : Effect) : bool :=
  match e with
  | Dequeued _ => true
  | _ => false
  end.

(** The effects that take an item off a queue or ask for an autonomous
    decision. *)
Definition is_marker (e : Effect) : bool :=
  match e with
  | Dequeued _ | AutonomousRequest => true
  | _ => false
  end.

(** A computation is settled when it leaves the three queues alone and only
    appends to the trace, effects that [allowed] accepts. *)
Definition settled (allowed : Effect -> bool) {A : Type} (c : M A) : Prop :=
  forall s,
    events_queue (snd (c s)) = events_queue s
    /\ game_events_queue (snd (c s)) = game_events_queue s
    /\ chat_queue (snd (c s)) = chat_queue s
    /\ exists new,
         trace (snd (c s)) = trace s ++ new
         /\ forallb allowed new = true.

(** Quiet: settled, and neither taking an item nor asking for an autonomous
    decision. *)
Definition quiet {A : Type} (c : M A) : Prop :=
  settled (fun e => negb (is_marker e)) c.

(** A computation that, when it returns, returns the flow [flow]. *)
Definition ends_with (flow : Flow) (c : M (Flow * Q)) : Prop :=
  forall s,
    match fst (c s) with
    | Returned (f, _) => f = flow
    | Raised _ => True
    end.

(** A state change that keeps the queues and the trace. *)
Definition keeps (f : Sys -> Sys) : Prop :=
  forall s,
    events_queue (f s) = events_queue s
    /\ game_events_queue (f s) = game_events_queue s
    /\ chat_queue (f s) = chat_queue s
    /\ trace (f s) = trace s.

(** The effects that send a message to the chat. *)
Definition is_chat_send (e : Effect) : bool :=
  match e with
  | ChatSend _ => true
  | _ => false
  end.

(** What tasks that run leave alone: everything but the channel to the
    remote consumer, the list of tasks, and the trace, which grows by
    messages to the chat only. *)
Definition undisturbed (s s' : Sys) : Prop :=
  events_queue s' = events_queue s
  /\ game_events_queue s' = game_events_queue s
  /\ chat_queue s' = chat_queue s
  /\ gate s' = gate s
  /\ state_manager s' = state_manager s
  /\ manual_controller s' = manual_controller s
  /\ pokemon_enabled s' = pokemon_enabled s
  /\ now s' = now s
  /\ exists new,
       trace s' = trace s ++ new
       /\ forallb is_chat_send new = true.

(** The system after a poll that ran into its timeout. *)
Definition after_timeout (s : Sys) : Sys :=
  set_now (now s + (1 # 20)) (run_tasks s).

(** A computation whose every run relates the system before and after
    by [R]. *)
Definition respects (R : Sys -> Sys -> Prop) {A : Type} (c : M A) : Prop :=
  forall s, R s (snd (c s)).

(** The loop clock does not go back. *)
Definition clock_forward (s s' : Sys) : Prop := now s <= now s'.

(** What the steps around a call of the decision collaborator leave alone:
    the gate, the control mode, the loop clock and the calls made so far. *)
Definition calm (s s' : Sys) : Prop :=
  gate s' = gate s
  /\ manual_controller s' = manual_controller s
  /\ now s' = now s
  /\ brain_calls (trace s') = brain_calls (trace s).

(** Every outbound command pending in [s'] was pending in [s] already or is a
    [SAY] command. *)
Definition only_says_added (s s' : Sys) : Prop :=
  forall m,
    In m (outbound s') ->
    In m (outbound s) \/ UnityClient.cmd m = UnityClient.SAY.

End MainLoop.

(** ** The planner ([planner_layer/planner.py]) *)

Module Planner.

(** Python's [sub in s] on strings. *)
Fixpoint contains (sub s : string) : bool :=
  if String.prefix sub s then true
  else match s with
       | EmptyString => false
       | String _ rest => contains sub rest
       end.

(** The class attribute [ACTION_KEYWORDS], in the order of the dictionary. *)
Definition ACTION_KEYWORDS : list (string * list string) :=
  [("MOVE_LEFT",
    ["esquerda"; "left"; "esquerdo"; "fugir esquerda"; "desviar esquerda"]);
   ("MOVE_RIGHT",
    ["direita"; "right"; "direito"; "fugir direita"; "desviar direita"]);
   ("JUMP",
    ["pular"; "jump"; "pulo"; "saltar"; "obstáculo"; "obstaculo";
     "plataforma"]);
   ("ATTACK",
    ["atacar"; "attack"; "golpear"; "bater"; "inimigo"; "enemy"]);
   ("IDLE",
    ["parar"; "idle"; "esperar"; "aguardar"; "nada"])]%string.

(** One of the words occurs in [s].  This is what the inner [for] of [plan]
    finds out before its [break], and what [re.search] does with a pattern
    of alternatives [(a|b|...)]. *)
Definition any_in (words : list string) (s : string) : bool :=
  existsb (fun word => contains word s) words.

(** The inner [for] of [plan]: the first keyword found in the goal appends
    the action, unless it is there already, and ends the search. *)
Definition scan_one (goal_lower : string) (actions : list string)
    (entry : string * list string) : list string :=
  let (action, keywords) := entry in
  if any_in keywords goal_lower
  then if Text.mem action actions then actions else actions ++ [action]
  else actions.

(** The outer [for] of [plan]. *)
Definition scan (goal_lower : string) : list string :=
  fold_left (scan_one goal_lower) ACTION_KEYWORDS [].

(** [_infer_action(goal)]. *)
Definition _infer_action (goal : string) : list string :=
  let actions1 :=
    if any_in ["desviar"; "fugir"; "esquivar"; "evitar"]%string goal then
      if contains "esquerda" goal || contains "left" goal
      then ["MOVE_LEFT"%string]
      else if contains "direita" goal || contains "right" goal
      then ["MOVE_RIGHT"%string]
      else ["MOVE_LEFT"%string]
    else [] in
  let actions2 :=
    if any_in ["pular"; "saltar"; "pulo"; "jump"]%string goal
    then actions1 ++ ["JUMP"%string] else actions1 in
  if any_in ["atacar"; "golpear"; "bater"; "attack"]%string goal
  then actions2 ++ ["ATTACK"%string] else actions2.

(** Python's [not actions] on a list. *)
Definition is_empty (actions : list string) : bool :=
  match actions with [] => true | _ => false end.

Section Lower.

(** [str.lower()], left open. *)
Variable lower : string -> string.

(** [plan(goal)]; the goal may be [None]. *)
Definition plan (goal : option string) : list string :=
  match goal with
  | None => ["IDLE"%string]
  | Some EmptyString => ["IDLE"%string]
  | Some g =>
      let goal_lower := lower g in
      let actions := scan goal_lower in
      let actions :=
        if is_empty actions then _infer_action goal_lower else actions in
      if is_empty actions then ["IDLE"%string] else actions
  end.

(** [plan_sequence(goal, max_actions)]. *)
Definition plan_sequence (goal : option string) (max_actions : Z)
    : list string :=
  let actions := plan goal in
  if (max_actions <? Z.of_nat (List.length actions))%Z
  then Py.slice_to max_actions actions
  else actions.

End Lower.

(** The place of an action in [ACTION_KEYWORDS]. *)
Definition rank (action : string) : nat :=
  if String.eqb action "MOVE_LEFT" then 0
  else if String.eqb action "MOVE_RIGHT" then 1
  else if String.eqb action "JUMP" then 2
  else if String.eqb action "ATTACK" then 3
  else if String.eqb action "IDLE" then 4
  else 5.

(** A plan names actions of [ACTION_KEYWORDS], each at most once, in the
    order of the dictionary. *)
Definition ordered (actions : list string) : Prop :=
  StronglySorted (fun a b => (rank a < rank b)%nat) actions
  /\ Forall (fun a => (rank a < 5)%nat) actions.

End Planner.

(** ** The short-term memory ([brain_layer/memory.py]) *)

Module Memory.

(** The [metadata] dictionary. *)
Definition Meta : Type := list (string * string).

(** [@dataclass MemoryEntry]. *)
Record MemoryEntry : Type := mkMemoryEntry {
  timestamp : Q;
  type : string;
  content : string;
  metadata : option Meta
}.

(** The dictionary [to_dict()] builds. *)
Record EntryDict : Type := mkEntryDict {
  dict_timestamp : Q;
  dict_type : string;
  dict_content : string;
  dict_metadata : Meta
}.

(** [to_dict()]: [self.metadata or {}]. *)
Definition to_dict (e : MemoryEntry) : EntryDict :=
  {| dict_timestamp := timestamp e;
     dict_type := type e;
     dict_content := content e;
     dict_metadata := match metadata e with Some m => m | None => [] end |}.

(** The object: [max_size] and the [deque(maxlen=max_size)]. *)
Record t : Type := mk {
  max_size : Z;
  buffer : list MemoryEntry
}.

(** [__init__(max_size)]: [deque] raises [ValueError] for a negative
    [maxlen]. *)
Definition init (max_size : Z) : option t :=
  if (max_size <? 0)%Z then None
  else Some {| max_size := max_size; buffer := [] |}.

(** [deque.append] on a bounded deque: the item is appended on the right,
    and one item is dropped on the left if that made the deque longer than
    [maxlen]. *)
Definition deque_append {A : Type} (maxlen : Z) (x : A) (items : list A)
    : list A :=
  let items1 := items ++ [x] in
  if (maxlen <? Z.of_nat (List.length items1))%Z then tl items1 else items1.

(** [add(entry_type, content, metadata)] at wall-clock time [now]; a
    [content] of [None] becomes the empty string. *)
Definition add (entry_type : string) (content : option string)
    (metadata : option Meta) (now : Q) (m : t) : t :=
  let entry :=
    {| timestamp := now; type := entry_type;
       content := match content with Some c => c | None => EmptyString end;
       metadata := metadata |} in
  {| max_size := max_size m;
     buffer := deque_append (max_size m) entry (buffer m) |}.

(** [get_context(max_entries)]: [None] and [0] both mean all entries. *)
Definition get_context (max_entries : option Z) (m : t) : list EntryDict :=
  let entries := buffer m in
  let entries :=
    match max_entries with
    | None => entries
    | Some n => if (n =? 0)%Z then entries else Py.slice_from (- n) entries
    end in
  map to_dict entries.

(** [get_recent_by_type(entry_type, limit)]. *)
Definition get_recent_by_type (entry_type : string) (limit : Z) (m : t)
    : list EntryDict :=
  let entries :=
    map to_dict (filter (fun e => String.eqb (type e) entry_type) (buffer m)) in
  if (limit <? Z.of_nat (List.length entries))%Z
  then Py.slice_from (- limit) entries
  else entries.

(** [clear()]. *)
Definition clear (m : t) : t := {| max_size := max_size m; buffer := [] |}.

(** [size()]. *)
Definition size (m : t) : Z := Z.of_nat (List.length (buffer m)).

(** [is_full()]. *)
Definition is_full (m : t) : bool := (max_size m <=? size m)%Z.

(** One call of [add], with the wall-clock time it is made at. *)
Record Call : Type := mkCall {
  call_type : string;
  call_content : option string;
  call_metadata : option Meta;
  call_time : Q
}.

(** The entry a call stores. *)
Definition entry_of (c : Call) : MemoryEntry :=
  {| timestamp := call_time c; type := call_type c;
     content := match call_content c with
                | Some x => x
                | None => EmptyString
                end;
     metadata := call_metadata c |}.

(** A sequence of calls of [add]. *)
Definition add_all (calls : list Call) (m : t) : t :=
  fold_left
    (fun acc c =>
       add (call_type c) (call_content c) (call_metadata c) (call_time c) acc)
    calls m.

End Memory.

(** ** The chat listener's rate limit ([chat_layer/chat_listener.py]) *)

Module ChatListener.

(** The two attributes [_check_rate_limit] works on. *)
Record t : Type := mk {
  rate_limit_per_sec : Q;
  message_times : list Q
}.

(** [__init__]: an empty [deque()]. *)
Definition init (rate_limit_per_sec : Q) : t :=
  {| rate_limit_per_sec := rate_limit_per_sec; message_times := [] |}.

(** The [while] of [_check_rate_limit]: [popleft()] as long as the oldest
    time lies more than a second back. *)
Fixpoint expire (now : Q) (times : list Q) : list Q :=
  match times with
  | [] => []
  | oldest :: rest =>
      if Qgt_bool (now - oldest) 1 then expire now rest else times
  end.

(** [_check_rate_limit()], with [now] the reading of [datetime.now()]. *)
Definition _check_rate_limit (now : Q) (c : t) : bool * t :=
  let times := expire now (message_times c) in
  if Qge_bool (inject_Z (Z.of_nat (List.length times))) (rate_limit_per_sec c)
  then (false, {| rate_limit_per_sec := rate_limit_per_sec c;
                  message_times := times |})
  else (true, {| rate_limit_per_sec := rate_limit_per_sec c;
                 message_times := times ++ [now] |}).

(** The listener after a sequence of calls at the given times. *)
Definition run (times : list Q) (c : t) : t :=
  fold_left (fun acc now => snd (_check_rate_limit now acc)) times c.

(** The times of the calls of a sequence that were let through. *)
Fixpoint admitted (times : list Q) (c : t) : list Q :=
  match times with
  | [] => []
  | now :: rest =>
      let (ok, c1) := _check_rate_limit now c in
      if ok then now :: admitted rest c1 else admitted rest c1
  end.

(** The times that lie no more than a second before [now]. *)
Definition recent (now : Q) (times : list Q) : list Q :=
  filter (fun t => Qle_bool (now - t) 1) times.

End ChatListener.

(** * Properties *)

(** ** Rational comparisons *)

Lemma Qge_bool_true (a b : Q) : Qge_bool a b = true <-> b <= a.
Proof. unfold Qge_bool. apply Qle_bool_iff. Qed.

Lemma Qge_bool_false (a b : Q) : Qge_bool a b = false <-> a < b.
Proof.
  unfold Qge_bool. split; intro H.
  - apply Qnot_le_lt. intro Hle. apply Qle_bool_iff in Hle. congruence.
  - destruct (Qle_bool b a) eqn:E; [|reflexivity].
    apply Qle_bool_iff in E. lra.
Qed.

Lemma Qgt_bool_true (a b : Q) : Qgt_bool a b = true <-> b < a.
Proof.
  unfold Qgt_bool. rewrite negb_true_iff. apply (Qge_bool_false b a).
Qed.

Lemma Qgt_bool_false (a b : Q) : Qgt_bool a b = false <-> a <= b.
Proof.
  unfold Qgt_bool. rewrite negb_false_iff. apply Qle_bool_iff.
Qed.

(** ** The decision gate *)

Module GateFacts.

Import Gate.

Lemma admit_iff (now : Q) (g : t) :
  fst (_can_make_brain_decision now g) = true
  <-> last_brain_decision_time g + brain_decision_interval g <= now.
Proof.
  unfold _can_make_brain_decision.
  destruct (Qge_bool _ _) eqn:E; simpl.
  - apply Qge_bool_true in E. split; [intros _; lra | reflexivity].
  - apply Qge_bool_false in E. split; [discriminate | intro; lra].
Qed.

Lemma admit_state (now : Q) (g : t) :
  fst (_can_make_brain_decision now g) = true ->
  snd (_can_make_brain_decision now g)
    = mk now (brain_decision_interval g).
Proof.
  unfold _can_make_brain_decision.
  destruct (Qge_bool _ _); simpl; [reflexivity | discriminate].
Qed.

Lemma reject_state (now : Q) (g : t) :
  fst (_can_make_brain_decision now g) = false ->
  snd (_can_make_brain_decision now g) = g.
Proof.
  unfold _can_make_brain_decision.
  destruct (Qge_bool _ _); simpl; [discriminate | reflexivity].
Qed.

(** Every admitted call of a sequence lies one interval or more after the
    timestamp the gate started with. *)
Lemma admitted_after (times : list Q) :
  forall g, 0 <= brain_decision_interval g ->
  Forall (apart (brain_decision_interval g) (last_brain_decision_time g))
         (admitted times g).
Proof.
  induction times as [|now rest IH]; intros g HT; simpl; [constructor|].
  destruct (_can_make_brain_decision now g) as [b g1] eqn:E.
  assert (Hb : fst (_can_make_brain_decision now g) = b) by (rewrite E; auto).
  assert (Hg : snd (_can_make_brain_decision now g) = g1) by (rewrite E; auto).
  destruct b.
  - pose proof (proj1 (admit_iff now g) Hb) as Hle.
    rewrite (admit_state _ _ Hb) in Hg. subst g1.
    constructor; [exact Hle|].
    specialize (IH (mk now (brain_decision_interval g)) HT). simpl in IH.
    eapply Forall_impl; [|exact IH].
    unfold apart. intros a Ha. lra.
  - rewrite (reject_state _ _ Hb) in Hg. subst g1. apply IH; exact HT.
Qed.

(** Any two admitted calls of a sequence are an interval or more apart. *)
Lemma admitted_apart (times : list Q) :
  forall g, 0 <= brain_decision_interval g ->
  StronglySorted (apart (brain_decision_interval g)) (admitted times g).
Proof.
  induction times as [|now rest IH]; intros g HT; simpl; [constructor|].
  destruct (_can_make_brain_decision now g) as [b g1] eqn:E.
  assert (Hb : fst (_can_make_brain_decision now g) = b) by (rewrite E; auto).
  assert (Hg : snd (_can_make_brain_decision now g) = g1) by (rewrite E; auto).
  destruct b.
  - rewrite (admit_state _ _ Hb) in Hg. subst g1.
    constructor.
    + apply (IH (mk now (brain_decision_interval g))). exact HT.
    + apply (admitted_after rest (mk now (brain_decision_interval g))).
      exact HT.
  - rewrite (reject_state _ _ Hb) in Hg. subst g1. apply IH; exact HT.
Qed.

Lemma half_step (a b c T : Q) :
  0 < T -> b == a + T / 2 -> c == b + T / 2 ->
  b < a + T /\ a + T <= c.
Proof.
  intros H0 H1 H2. unfold Qdiv in *. change (/ 2) with (1 # 2) in *.
  split; lra.
Qed.

Lemma nth_time_succ (t0 T : Q) (k : nat) :
  nth_time t0 T (S k) == nth_time t0 T k + T / 2.
Proof.
  unfold nth_time. rewrite Nat2Z.inj_succ. unfold Z.succ.
  rewrite inject_Z_plus. field.
Qed.

Lemma spaced_cons (t0 T : Q) (k n : nat) :
  spaced t0 T k (S n) = nth_time t0 T k :: spaced t0 T (S k) n.
Proof. reflexivity. Qed.

(** Calls half an interval apart are admitted alternately: counting from a
    call the gate admits gives the upper half, counting from the call after
    an admitted one the lower half. *)
Lemma alternate (t0 T : Q) (HT : 0 < T) (n : nat) :
  forall k g,
    brain_decision_interval g = T ->
    (last_brain_decision_time g + T <= nth_time t0 T k ->
     List.length (admitted (spaced t0 T k n) g) = Nat.div2 (S n))
    /\ (nth_time t0 T k < last_brain_decision_time g + T ->
        last_brain_decision_time g + T <= nth_time t0 T (S k) ->
        List.length (admitted (spaced t0 T k n) g) = Nat.div2 n).
Proof.
  induction n as [|n IH]; intros k g Hiv.
  - split; intros; reflexivity.
  - rewrite spaced_cons. simpl admitted.
    destruct (_can_make_brain_decision (nth_time t0 T k) g) as [b g1] eqn:E.
    assert (Hb : fst (_can_make_brain_decision (nth_time t0 T k) g) = b)
      by (rewrite E; auto).
    assert (Hg : snd (_can_make_brain_decision (nth_time t0 T k) g) = g1)
      by (rewrite E; auto).
    pose proof (nth_time_succ t0 T k) as Hk.
    pose proof (nth_time_succ t0 T (S k)) as Hk1.
    split.
    + intro Hle.
      assert (b = true) as ->.
      { rewrite <- Hb. apply admit_iff. rewrite Hiv. exact Hle. }
      rewrite (admit_state _ _ Hb) in Hg. subst g1.
      destruct (IH (S k) (mk (nth_time t0 T k) (brain_decision_interval g)))
        as [_ Hlow]; [exact Hiv|].
      cbn [last_brain_decision_time brain_decision_interval] in Hlow.
      cbn [List.length]. rewrite Hlow.
      * reflexivity.
      * apply (half_step HT Hk Hk1).
      * apply (half_step HT Hk Hk1).
    + intros Hlt Hnext.
      assert (b = false) as ->.
      { rewrite <- Hb. destruct (fst _) eqn:F; [|reflexivity].
        apply admit_iff in F. rewrite Hiv in F.
        apply Qle_not_lt in F. contradiction. }
      rewrite (reject_state _ _ Hb) in Hg. subst g1.
      destruct (IH (S k) g Hiv) as [Hup _].
      rewrite (Hup Hnext). reflexivity.
Qed.

End GateFacts.

(** C1 (as amended).  For a gate with a positive interval [T] and any sequence
    of calls: two admitted calls are never less than [T] apart, so no window
    of length [T] holds two of them; an admitted call moves the last-accepted
    timestamp to its own time, and a rejected call leaves the gate as it was;
    and of [n] calls spaced exactly [T/2] apart, the first of which the gate
    admits, exactly the upper half of [n] are admitted. *)
Theorem gate_admits_once_per_interval (g : Gate.t) :
  0 < Gate.brain_decision_interval g ->
  (forall times,
     StronglySorted (Gate.apart (Gate.brain_decision_interval g))
                    (Gate.admitted times g))
  /\ (forall now,
        fst (Gate._can_make_brain_decision now g) = true ->
        Gate.last_brain_decision_time
          (snd (Gate._can_make_brain_decision now g)) = now)
  /\ (forall now,
        fst (Gate._can_make_brain_decision now g) = false ->
        snd (Gate._can_make_brain_decision now g) = g)
  /\ (forall t0 n,
        fst (Gate._can_make_brain_decision t0 g) = true ->
        List.length
          (Gate.admitted
             (Gate.spaced t0 (Gate.brain_decision_interval g) 0 n) g)
        = ((n + 1) / 2)%nat).
Proof.
  intro HT. repeat split.
  - intro times. apply GateFacts.admitted_apart. apply Qlt_le_weak, HT.
  - intros now H. rewrite (GateFacts.admit_state _ _ H). reflexivity.
  - intros now H. apply GateFacts.reject_state, H.
  - intros t0 n H.
    destruct (GateFacts.alternate t0 HT n 0 g eq_refl) as [Hup _].
    rewrite Nat.add_1_r, <- Nat.div2_div. apply Hup.
    apply GateFacts.admit_iff in H.
    assert (E : Gate.nth_time t0 (Gate.brain_decision_interval g) 0 == t0).
    { unfold Gate.nth_time. simpl. ring. }
    rewrite E. exact H.
Qed.

(** The amended C1 at work: the gate [__init__] builds for 2 decisions per
    second, which last admitted at time 0, asked five times from [t = 1] on,
    every quarter of a second, admits three. *)
Lemma gate_admits_once_per_interval_witness :
  let g := Gate.mk 0 (1 / 2) in
  Gate.init 2 = Some g
  /\ 0 < Gate.brain_decision_interval g
  /\ List.length
       (Gate.admitted
          (Gate.spaced 1 (Gate.brain_decision_interval g) 0 5) g)
     = ((5 + 1) / 2)%nat.
Proof.
  intro g. split; [reflexivity|]. split; [reflexivity|].
  destruct (@gate_admits_once_per_interval g eq_refl) as (_ & _ & _ & H).
  apply (H 1 5%nat). reflexivity.
Defined.

(** C1 as stated fails.  On a fresh gate at 2 decisions per second, five calls
    spaced a quarter of a second apart from [t = 0] on see two admitted, not
    three, the first two being rejected.  And on a gate that admitted a call
    at [t = 10], four calls spaced a quarter of a second apart from
    [t = 10.1] on see one admitted, not two. *)
Lemma gate_half_count_counterexample :
  let g0 := Gate.mk 0 (1 / 2) in
  Gate.init 2 = Some g0
  /\ (fst (Gate.calls
             (Gate.spaced 0 (Gate.brain_decision_interval g0) 0 5) g0)
      = [false; false; true; false; true]
      /\ List.length
           (Gate.admitted
              (Gate.spaced 0 (Gate.brain_decision_interval g0) 0 5) g0)
         <> ((5 + 1) / 2)%nat)
  /\ (let g := snd (Gate._can_make_brain_decision 10 g0) in
      Gate.last_brain_decision_time g = 10
      /\ fst (Gate.calls
                (Gate.spaced (101 # 10) (Gate.brain_decision_interval g) 0 4) g)
         = [false; false; true; false]
      /\ List.length
           (Gate.admitted
              (Gate.spaced (101 # 10) (Gate.brain_decision_interval g) 0 4) g)
         <> ((4 + 1) / 2)%nat).
Proof.
  intro g0. split; [reflexivity|].
  split; [split; [reflexivity | vm_compute; discriminate]|].
  split; [reflexivity|]. split; [reflexivity | vm_compute; discriminate].
Qed.

(** C8 (as amended).  [__init__] builds a gate for every setting of
    [brain_decisions_per_sec] but zero, where the division raises.  On the
    gate it builds the last-accepted timestamp is [0.0] and the interval is
    [1 / brain_decisions_per_sec], so the first call is admitted exactly when
    the clock reads one interval or more; with an interval of 0.5 s requests
    at [t = 0.0] and [t = 0.1] are both rejected and a request at [t = 0.6]
    is admitted. *)
Theorem first_call_admitted_iff (brain_decisions_per_sec : Q) (g : Gate.t) :
  Gate.init brain_decisions_per_sec = Some g ->
  ~ brain_decisions_per_sec == 0
  /\ Gate.last_brain_decision_time g = 0
  /\ Gate.brain_decision_interval g = 1 / brain_decisions_per_sec
  /\ (forall now,
        fst (Gate._can_make_brain_decision now g) = true
        <-> Gate.brain_decision_interval g <= now)
  /\ (Gate.brain_decision_interval g == 1 # 2 ->
      fst (Gate.calls [0; 1 # 10; 6 # 10] g) = [false; false; true]).
Proof.
  unfold Gate.init.
  destruct (Qeq_bool brain_decisions_per_sec 0) eqn:E; [discriminate|].
  intro H. injection H as <-.
  split.
  { intro H0. apply Qeq_bool_iff in H0. congruence. }
  cbn [Gate.last_brain_decision_time Gate.brain_decision_interval].
  split; [reflexivity|]. split; [reflexivity|].
  set (g := {| Gate.last_brain_decision_time := 0;
               Gate.brain_decision_interval := 1 / brain_decisions_per_sec |}).
  assert (Hiff : forall now,
             fst (Gate._can_make_brain_decision now g) = true
             <-> 1 / brain_decisions_per_sec <= now).
  { intro now. rewrite GateFacts.admit_iff.
    cbn [g Gate.last_brain_decision_time Gate.brain_decision_interval].
    split; intro H; lra. }
  split; [exact Hiff|].
  intro HT.
  assert (Hno : forall now, now < 1 # 2 ->
                  Gate._can_make_brain_decision now g = (false, g)).
  { intros now Hlt.
    destruct (fst (Gate._can_make_brain_decision now g)) eqn:Ef.
    - apply Hiff in Ef. lra.
    - pose proof (GateFacts.reject_state _ _ Ef) as Hs.
      destruct (Gate._can_make_brain_decision now g) as [b g1].
      cbn [fst snd] in Ef, Hs. subst. reflexivity. }
  cbn [Gate.calls].
  rewrite (Hno 0) by reflexivity. rewrite (Hno (1 # 10)) by reflexivity.
  assert (Hyes : fst (Gate._can_make_brain_decision (6 # 10) g) = true).
  { apply Hiff. rewrite HT. unfold Qle. cbn. lia. }
  destruct (Gate._can_make_brain_decision (6 # 10) g) as [b g1].
  cbn [fst] in Hyes. subst b. reflexivity.
Qed.

(** The amended C8 at work: the gate built for 2 decisions per second. *)
Lemma first_call_admitted_iff_witness :
  let g := Gate.mk 0 (1 / 2) in
  Gate.init 2 = Some g
  /\ Gate.last_brain_decision_time g = 0
  /\ fst (Gate.calls [0; 1 # 10; 6 # 10] g) = [false; false; true].
Proof.
  intro g.
  destruct (@first_call_admitted_iff 2 g eq_refl) as (_ & H0 & _ & _ & H).
  split; [reflexivity|]. split; [exact H0|].
  apply H. reflexivity.
Defined.

(** C8 as stated fails: with [T] = 0.5 s the very first request, made at
    [t = 0.0], is rejected. *)
Lemma first_call_counterexample :
  let g := Gate.mk 0 (1 / 2) in
  Gate.init 2 = Some g
  /\ Gate.brain_decision_interval g == 1 # 2
  /\ fst (Gate._can_make_brain_decision 0 g) = false.
Proof. intro g. repeat split. Qed.

(** ** The activity state machine *)

Module StateManagerFacts.

Import StateManager.

Lemma State_eqb_eq (a b : State) : State_eqb a b = true <-> a = b.
Proof. destruct a, b; simpl; split; intro H; congruence. Qed.

Lemma transition_same (new_state : State) (reason : option string)
    (clk : Readings) (sm : t) :
  State_eqb new_state (current_state sm) = true ->
  transition_to new_state reason clk sm = (sm, None).
Proof. unfold transition_to. intros ->. reflexivity. Qed.

Lemma transition_other (new_state : State) (reason : option string)
    (clk : Readings) (sm : t) :
  State_eqb new_state (current_state sm) = false ->
  transition_to new_state reason clk sm
  = (mk new_state
        (state_history sm ++ [(at_record clk, new_state, reason)])
        (at_start clk),
     Some (mkLogLine (current_state sm) new_state
                     (at_duration clk - state_start_time sm)
                     (reason_or_na reason))).
Proof. unfold transition_to. intros ->. reflexivity. Qed.

(** Records and log lines are added one for one with accepted requests. *)
Lemma run_counts (reqs : list Request) :
  forall sm,
    List.length (state_history (fst (run reqs sm)))
      = (List.length (state_history sm) + accepted reqs sm)%nat
    /\ List.length (snd (run reqs sm)) = accepted reqs sm.
Proof.
  induction reqs as [|r rest IH]; intro sm; simpl.
  - split; [lia | reflexivity].
  - destruct (State_eqb (target r) (current_state sm)) eqn:E.
    + rewrite (transition_same _ _ _ _ E). simpl.
      destruct (run rest sm) as [sm2 lines] eqn:R.
      specialize (IH sm). rewrite R in IH. exact IH.
    + rewrite (transition_other _ _ _ _ E). simpl.
      set (sm1 := mk _ _ _).
      destruct (run rest sm1) as [sm2 lines] eqn:R.
      specialize (IH sm1). rewrite R in IH. simpl in *.
      destruct IH as [IH1 IH2]. rewrite IH1, IH2.
      unfold sm1. simpl. rewrite length_app. simpl. split; lia.
Qed.

(** Under a clock that never runs backwards every logged duration is
    non-negative. *)
Lemma run_durations (reqs : list Request) :
  forall sm prev,
    state_start_time sm <= prev ->
    clock_monotone prev reqs ->
    Forall (fun l => 0 <= log_duration l) (snd (run reqs sm)).
Proof.
  induction reqs as [|r rest IH]; intros sm prev Hstart Hmono; simpl.
  - constructor.
  - destruct Hmono as (H1 & H2 & H3 & Hrest).
    destruct (State_eqb (target r) (current_state sm)) eqn:E.
    + rewrite (transition_same _ _ _ _ E).
      destruct (run rest sm) as [sm2 lines] eqn:R.
      specialize (IH sm (at_record (clock r))). rewrite R in IH.
      apply IH; [lra | exact Hrest].
    + rewrite (transition_other _ _ _ _ E).
      set (sm1 := mk _ _ _).
      destruct (run rest sm1) as [sm2 lines] eqn:R.
      specialize (IH sm1 (at_record (clock r))). rewrite R in IH.
      simpl. constructor.
      * simpl. lra.
      * apply IH; [unfold sm1; simpl; lra | exact Hrest].
Qed.

End StateManagerFacts.

(** C7 (as amended).  A request for the state the machine is in changes
    nothing and writes nothing.  A request for another state is accepted: it
    appends exactly one record to the history, the triple of timestamp,
    to-state and reason; the from-state and the time spent in it go to the log
    line written alongside, and that duration is non-negative when the wall
    clock does not run backwards.  So a sequence of requests of which [N] are
    accepted adds exactly [N] records and writes exactly [N] log lines. *)
Theorem transitions_are_recorded (sm : StateManager.t) :
  (forall new_state reason clk,
     StateManager.State_eqb new_state (StateManager.current_state sm) = true ->
     StateManager.transition_to new_state reason clk sm = (sm, None))
  /\ (forall new_state reason clk,
        StateManager.State_eqb new_state (StateManager.current_state sm)
          = false ->
        StateManager.transition_to new_state reason clk sm
        = (StateManager.mk new_state
             (StateManager.state_history sm
                ++ [(StateManager.at_record clk, new_state, reason)])
             (StateManager.at_start clk),
           Some (StateManager.mkLogLine
                   (StateManager.current_state sm) new_state
                   (StateManager.at_duration clk
                      - StateManager.state_start_time sm)
                   (StateManager.reason_or_na reason))))
  /\ (forall reqs,
        List.length
          (StateManager.state_history (fst (StateManager.run reqs sm)))
        = (List.length (StateManager.state_history sm)
           + StateManager.accepted reqs sm)%nat
        /\ List.length (snd (StateManager.run reqs sm))
           = StateManager.accepted reqs sm)
  /\ (forall reqs,
        StateManager.clock_monotone (StateManager.state_start_time sm) reqs ->
        Forall (fun l => 0 <= StateManager.log_duration l)
               (snd (StateManager.run reqs sm))).
Proof.
  repeat split.
  - intros. apply StateManagerFacts.transition_same. assumption.
  - intros. apply StateManagerFacts.transition_other. assumption.
  - apply StateManagerFacts.run_counts.
  - apply StateManagerFacts.run_counts.
  - intros reqs H.
    apply StateManagerFacts.run_durations
      with (prev := StateManager.state_start_time sm); [lra | exact H].
Qed.

(** C7 as stated fails: the appended record does not carry the from-state or
    the prior duration.  Leaving IDLE and leaving TALKING for THINKING at the
    same instant append the same record. *)
Lemma history_record_counterexample :
  ~ StateManager.record_carries_from_and_duration.
Proof.
  intros (from_of & duration_of & H).
  set (clk := StateManager.mkReadings 1 1 1).
  destruct (H StateManager.THINKING None clk
              (StateManager.init StateManager.IDLE 0) eq_refl)
    as (e1 & He1 & Hf1 & _).
  destruct (H StateManager.THINKING None clk
              (StateManager.init StateManager.TALKING 0) eq_refl)
    as (e2 & He2 & Hf2 & _).
  simpl in He1, He2, Hf1, Hf2.
  injection He1 as <-. injection He2 as <-.
  congruence.
Qed.

(** The amended C7 at work: from IDLE, requests for THINKING, THINKING again
    and TALKING add two records and two log lines, with durations 1 and 2. *)
Lemma transitions_are_recorded_witness :
  let sm := StateManager.init StateManager.IDLE 0 in
  let reqs :=
    [StateManager.mkRequest StateManager.THINKING None
       (StateManager.mkReadings 1 1 1);
     StateManager.mkRequest StateManager.THINKING None
       (StateManager.mkReadings 2 2 2);
     StateManager.mkRequest StateManager.TALKING (Some "Decisão: SAY"%string)
       (StateManager.mkReadings 3 3 3)] in
  StateManager.clock_monotone (StateManager.state_start_time sm) reqs
  /\ StateManager.accepted reqs sm = 2%nat
  /\ List.length
       (StateManager.state_history (fst (StateManager.run reqs sm))) = 2%nat
  /\ Forall (fun l => 0 <= StateManager.log_duration l)
            (snd (StateManager.run reqs sm)).
Proof.
  intros sm reqs.
  destruct (transitions_are_recorded sm) as (_ & _ & Hcount & Hdur).
  assert (Hm : StateManager.clock_monotone
                 (StateManager.state_start_time sm) reqs).
  { simpl. repeat split; discriminate. }
  split; [exact Hm|]. split; [reflexivity|].
  split; [rewrite (proj1 (Hcount reqs)); reflexivity | exact (Hdur reqs Hm)].
Defined.

(** ** The actuation channel *)

Module UnityClientFacts.

Import UnityClient.

(** A queue built by [asyncio.Queue()] is never full. *)
Lemma unbounded_put {A : Type} (x : A) (q : AsyncQueue.t A) :
  AsyncQueue.maxsize q = 0%Z ->
  AsyncQueue.put_nowait x q
  = Some (AsyncQueue.mk 0 (AsyncQueue.items q ++ [x])).
Proof.
  unfold AsyncQueue.put_nowait, AsyncQueue.full. intros ->. reflexivity.
Qed.

Lemma queue_message_unbounded (m : Message) (c : t) :
  AsyncQueue.maxsize (_send_queue c) = 0%Z ->
  pending (_queue_message m c) = pending c ++ [m]
  /\ AsyncQueue.maxsize (_send_queue (_queue_message m c)) = 0%Z.
Proof.
  intro H. unfold _queue_message. rewrite (unbounded_put m _ H).
  split; reflexivity.
Qed.

Lemma enqueue_all_unbounded (ms : list Message) :
  forall c,
    AsyncQueue.maxsize (_send_queue c) = 0%Z ->
    pending (enqueue_all ms c) = pending c ++ ms
    /\ AsyncQueue.maxsize (_send_queue (enqueue_all ms c)) = 0%Z.
Proof.
  induction ms as [|m rest IH]; intros c H; simpl.
  - rewrite app_nil_r. split; [reflexivity | exact H].
  - destruct (queue_message_unbounded m c H) as [Hp Hm].
    destruct (IH (_queue_message m c) Hm) as [IHp IHm].
    unfold enqueue_all in *. rewrite IHp, Hp, <- app_assoc.
    split; [reflexivity | exact IHm].
Qed.

(** What the overflow handler does on a queue that has a bound and is full:
    the oldest message goes, the new one is appended. *)
Lemma queue_message_when_full (m oldest : Message) (rest : list Message)
    (c : t) (bound : Z) :
  _send_queue c = AsyncQueue.mk bound (oldest :: rest) ->
  (0 < bound)%Z ->
  bound = Z.of_nat (List.length (oldest :: rest)) ->
  pending (_queue_message m c) = rest ++ [m].
Proof.
  intros Hq Hpos Hfull.
  unfold _queue_message, AsyncQueue.put_nowait, AsyncQueue.get_nowait,
    AsyncQueue.full, AsyncQueue.qsize.
  rewrite Hq. cbn [AsyncQueue.maxsize AsyncQueue.items].
  destruct (bound <=? 0)%Z eqn:E0; [apply Z.leb_le in E0; lia|].
  destruct (bound <=? Z.of_nat (List.length (oldest :: rest)))%Z eqn:E1;
    [|apply Z.leb_gt in E1; lia].
  destruct (bound <=? Z.of_nat (List.length rest))%Z eqn:E2.
  - apply Z.leb_le in E2. simpl List.length in Hfull. lia.
  - reflexivity.
Qed.

Lemma pending_iteration_disconnected (o : Outcome) (c : t)
    (message : Message) (rest : list Message) :
  pending c = message :: rest ->
  is_connected c && writer c = false ->
  sender_iteration o c
  = mk (is_connected c) (writer c) (should_reconnect c)
       (AsyncQueue.mk (AsyncQueue.maxsize (_send_queue c)) (rest ++ [message]))
       (wire c) (attempts c) (reconnects c).
Proof.
  unfold pending, sender_iteration, AsyncQueue.get_nowait.
  intros -> ->. reflexivity.
Qed.

Lemma pending_iteration_raised (c : t) (message : Message)
    (rest : list Message) :
  pending c = message :: rest ->
  is_connected c && writer c = true ->
  sender_iteration Raised c
  = mk false false (should_reconnect c)
       (AsyncQueue.mk (AsyncQueue.maxsize (_send_queue c)) rest)
       (wire c) (attempts c ++ [message])
       (if should_reconnect c then S (reconnects c) else reconnects c).
Proof.
  unfold pending, sender_iteration, AsyncQueue.get_nowait.
  intros -> ->. reflexivity.
Qed.

Lemma pending_iteration_delivered (c : t) (message : Message)
    (rest : list Message) :
  pending c = message :: rest ->
  is_connected c && writer c = true ->
  sender_iteration Delivered c
  = mk (is_connected c) (writer c) (should_reconnect c)
       (AsyncQueue.mk (AsyncQueue.maxsize (_send_queue c)) rest)
       (wire c ++ [message]) (attempts c ++ [message]) (reconnects c).
Proof.
  unfold pending, sender_iteration, AsyncQueue.get_nowait.
  intros -> ->. reflexivity.
Qed.

Lemma iteration_empty (o : Outcome) (c : t) :
  pending c = [] -> sender_iteration o c = c.
Proof.
  unfold pending, sender_iteration, AsyncQueue.get_nowait.
  intros ->. reflexivity.
Qed.

Lemma NoDup_rotate {A : Type} (xs : list A) (m : A) (rest : list A) :
  NoDup (xs ++ m :: rest) -> NoDup (xs ++ rest ++ [m]).
Proof.
  intro H. apply (Permutation_NoDup (l := xs ++ m :: rest)); [|exact H].
  apply Permutation_app_head.
  change (m :: rest) with ([m] ++ rest). apply Permutation_app_comm.
Qed.

Lemma NoDup_advance {A : Type} (xs : list A) (m : A) (rest : list A) :
  NoDup (xs ++ m :: rest) -> NoDup ((xs ++ [m]) ++ rest).
Proof. rewrite <- app_assoc. exact (fun H => H). Qed.

Lemma NoDup_head_fresh {A : Type} (xs : list A) (m : A) (rest : list A) :
  NoDup (xs ++ m :: rest) -> ~ In m xs.
Proof.
  intros H Hin. apply NoDup_remove_2 in H. apply H.
  apply in_or_app. left. exact Hin.
Qed.

Lemma lost_iteration (m : Message) (o : Outcome) (c : t) :
  lost m c -> lost m (sender_iteration o c).
Proof.
  intros (Hnd & Hin & Hw).
  destruct (pending c) as [|x rest] eqn:Hp.
  - rewrite (iteration_empty o c Hp). repeat split; try assumption.
    rewrite Hp. exact Hnd.
  - destruct (is_connected c && writer c) eqn:Hc.
    + destruct o.
      * rewrite (pending_iteration_delivered c Hp Hc).
        unfold lost, pending. cbn.
        repeat split.
        -- apply NoDup_advance. exact Hnd.
        -- apply in_or_app. left. exact Hin.
        -- intro H. apply in_app_or in H. destruct H as [H | [H | []]].
           ++ exact (Hw H).
           ++ subst x. exact (NoDup_head_fresh _ _ _ Hnd Hin).
      * rewrite (pending_iteration_raised c Hp Hc).
        unfold lost, pending. cbn.
        repeat split.
        -- apply NoDup_advance. exact Hnd.
        -- apply in_or_app. left. exact Hin.
        -- exact Hw.
    + rewrite (pending_iteration_disconnected o c Hp Hc).
      unfold lost, pending. cbn.
      repeat split.
      * apply NoDup_rotate. exact Hnd.
      * exact Hin.
      * exact Hw.
Qed.

Lemma lost_connect (m : Message) (opened : bool) (c : t) :
  lost m c -> lost m (connect opened c).
Proof.
  unfold connect. intro H.
  destruct (is_connected c); [exact H|].
  destruct opened; exact H.
Qed.

Lemma lost_step (m : Message) (s : Step) (c : t) :
  lost m c -> lost m (step s c).
Proof.
  intro H. destruct s as [o | opened]; simpl.
  - destruct (should_reconnect c || is_connected c);
      [apply lost_iteration; exact H | exact H].
  - destruct (should_reconnect c && negb (is_connected c));
      [apply lost_connect; exact H | exact H].
Qed.

Lemma lost_run (m : Message) (steps : list Step) :
  forall c, lost m c -> lost m (run steps c).
Proof.
  induction steps as [|s rest IH]; intros c H; simpl; [exact H|].
  apply IH. apply lost_step. exact H.
Qed.

Lemma lost_after_raise (c : t) (message : Message) (rest : list Message) :
  pending c = message :: rest ->
  is_connected c && writer c = true ->
  NoDup (attempts c ++ pending c) ->
  ~ In message (wire c) ->
  lost message (sender_iteration Raised c).
Proof.
  intros Hp Hc Hnd Hw.
  rewrite (pending_iteration_raised c Hp Hc).
  unfold lost, pending. cbn. rewrite Hp in Hnd.
  repeat split.
  - apply NoDup_advance. exact Hnd.
  - apply in_or_app. right. left. reflexivity.
  - exact Hw.
Qed.

Lemma lost_not_pending (m : Message) (c : t) :
  lost m c -> ~ In m (pending c).
Proof.
  intros (Hnd & Hin & _) Hq.
  induction (attempts c) as [|a l IH]; [destruct Hin|].
  simpl in Hnd. inversion Hnd as [|? ? Hna Hnd']; subst.
  destruct Hin as [-> | Hin].
  - apply Hna. apply in_or_app. right. exact Hq.
  - exact (IH Hnd' Hin).
Qed.

End UnityClientFacts.

(** C2.  Take the command at the head of the queue when the sender loop
    dequeues.  If the channel is down, the command goes back to the tail of the
    queue and nothing is transmitted.  If the channel is up and the
    transmission raises, the command is not put back: the connection is marked
    down, and through every later turn of the sender and every reconnect the
    command is never pending again, never reaches the wire, and no command is
    attempted twice. *)
Theorem sender_requeues_or_loses (c : UnityClient.t)
    (message : UnityClient.Message) (rest : list UnityClient.Message) :
  UnityClient.pending c = message :: rest ->
  (UnityClient.is_connected c && UnityClient.writer c = false ->
   forall o,
     UnityClient.pending (UnityClient.sender_iteration o c) = rest ++ [message]
     /\ UnityClient.attempts (UnityClient.sender_iteration o c)
        = UnityClient.attempts c
     /\ UnityClient.wire (UnityClient.sender_iteration o c)
        = UnityClient.wire c)
  /\ (UnityClient.is_connected c && UnityClient.writer c = true ->
      let c1 := UnityClient.sender_iteration UnityClient.Raised c in
      UnityClient.pending c1 = rest
      /\ UnityClient.attempts c1 = UnityClient.attempts c ++ [message]
      /\ UnityClient.wire c1 = UnityClient.wire c
      /\ UnityClient.is_connected c1 = false
      /\ (NoDup (UnityClient.attempts c ++ UnityClient.pending c) ->
          ~ In message (UnityClient.wire c) ->
          forall steps,
            let c2 := UnityClient.run steps c1 in
            ~ In message (UnityClient.pending c2)
            /\ ~ In message (UnityClient.wire c2)
            /\ NoDup (UnityClient.attempts c2))).
Proof.
  intro Hp. split.
  - intros Hc o.
    rewrite (UnityClientFacts.pending_iteration_disconnected o c Hp Hc).
    repeat split.
  - intros Hc c1.
    pose proof (UnityClientFacts.pending_iteration_raised c Hp Hc) as E.
    fold c1 in E.
    split; [rewrite E; reflexivity|].
    split; [rewrite E; reflexivity|].
    split; [rewrite E; reflexivity|].
    split; [rewrite E; reflexivity|].
    intros Hnd Hw steps c2.
    assert (L : UnityClient.lost message c2).
    { apply UnityClientFacts.lost_run.
      apply (UnityClientFacts.lost_after_raise c Hp Hc Hnd Hw). }
    split; [exact (UnityClientFacts.lost_not_pending L)|].
    destruct L as (Hnd2 & _ & Hw2).
    split; [exact Hw2 | exact (NoDup_app_remove_r _ _ Hnd2)].
Qed.

(** C2 at work.  Three commands are queued while the channel is down.  A turn
    of the sender puts the first back behind the other two.  After a
    reconnect, the transmission of the command now at the head raises; after
    another reconnect two further turns deliver the other two, and the failed
    command is neither pending nor on the wire. *)
Lemma sender_requeues_or_loses_witness :
  let m1 := UnityClient.mkMessage UnityClient.ACTION (Some "JUMP"%string) 1
              None None None in
  let m2 := UnityClient.mkMessage UnityClient.ACTION (Some "ATTACK"%string) 2
              None None None in
  let m3 := UnityClient.mkMessage UnityClient.PING None 3 None None None in
  let c0 := UnityClient.enqueue_all [m1; m2; m3] UnityClient.init in
  let c1 := UnityClient.run
              [UnityClient.Turn UnityClient.Delivered;
               UnityClient.Reconnect true] c0 in
  let c2 := UnityClient.run
              [UnityClient.Reconnect true;
               UnityClient.Turn UnityClient.Delivered;
               UnityClient.Turn UnityClient.Delivered]
              (UnityClient.sender_iteration UnityClient.Raised c1) in
  UnityClient.pending (UnityClient.sender_iteration UnityClient.Delivered c0)
    = [m2; m3] ++ [m1]
  /\ UnityClient.pending c1 = [m2; m3; m1]
  /\ ~ In m2 (UnityClient.pending c2)
  /\ ~ In m2 (UnityClient.wire c2)
  /\ UnityClient.wire c2 = [m3; m1].
Proof.
  intros m1 m2 m3 c0 c1 c2.
  destruct (@sender_requeues_or_loses c0 m1 [m2; m3] eq_refl) as [Hdown _].
  destruct (@sender_requeues_or_loses c1 m2 [m3; m1] eq_refl) as [_ Hup].
  destruct (Hup eq_refl) as (_ & _ & _ & _ & Hlater).
  assert (Hnd : NoDup (UnityClient.attempts c1 ++ UnityClient.pending c1)).
  { cbn. repeat constructor; cbn; intuition discriminate. }
  assert (Hw : ~ In m2 (UnityClient.wire c1)) by (cbn; intuition).
  destruct (Hlater Hnd Hw
              [UnityClient.Reconnect true;
               UnityClient.Turn UnityClient.Delivered;
               UnityClient.Turn UnityClient.Delivered])
    as (Hp2 & Hw2 & _).
  split; [exact (proj1 (Hdown eq_refl UnityClient.Delivered))|].
  split; [reflexivity|].
  split; [exact Hp2|].
  split; [exact Hw2 | reflexivity].
Defined.

(** C3, on the code.  The send queue is built by [asyncio.Queue()] with no
    [maxsize], so it is never full: however many commands are enqueued, all of
    them stay pending, oldest first, and nothing is evicted.  In particular no
    capacity [C] exists past which the oldest command goes. *)
Theorem send_queue_never_evicts :
  AsyncQueue.maxsize (UnityClient._send_queue UnityClient.init) = 0%Z
  /\ (forall ms,
        UnityClient.pending (UnityClient.enqueue_all ms UnityClient.init) = ms)
  /\ (forall (C : nat) oldest ms,
        List.length (oldest :: ms) = S C ->
        let c := UnityClient.enqueue_all (oldest :: ms) UnityClient.init in
        List.length (UnityClient.pending c) = S C
        /\ hd_error (UnityClient.pending c) = Some oldest).
Proof.
  split; [reflexivity|].
  assert (H : forall ms,
             UnityClient.pending
               (UnityClient.enqueue_all ms UnityClient.init) = ms).
  { intro ms.
    apply (UnityClientFacts.enqueue_all_unbounded ms UnityClient.init eq_refl). }
  split; [exact H|].
  intros C oldest ms Hlen c. unfold c. rewrite H.
  split; [exact Hlen | reflexivity].
Qed.

(** C3 at a concrete input: three commands enqueued one after the other on a
    fresh client are all pending, the oldest at the head. *)
Lemma send_queue_never_evicts_witness :
  let m1 := UnityClient.mkMessage UnityClient.ACTION (Some "JUMP"%string) 1
              None None None in
  let m2 := UnityClient.mkMessage UnityClient.ACTION (Some "ATTACK"%string) 2
              None None None in
  let m3 := UnityClient.mkMessage UnityClient.PING None 3 None None None in
  let c := UnityClient.enqueue_all [m1; m2; m3] UnityClient.init in
  List.length (UnityClient.pending c) = 3%nat
  /\ hd_error (UnityClient.pending c) = Some m1.
Proof.
  intros m1 m2 m3 c.
  destruct send_queue_never_evicts as (_ & _ & H).
  exact (H 2%nat m1 [m2; m3] eq_refl).
Defined.

(** ** The action executor *)

Module ExecutorFacts.

Import Executor.

(** One action hands exactly one command to the channel, whatever the rate
    check says. *)
Lemma execute_one_sends (cfg : Config) (w : World) (ex : t) (action : string) :
  AsyncQueue.maxsize (UnityClient._send_queue (unity_client w)) = 0%Z ->
  sent_actions (fst (execute_one cfg (w, ex) action))
    = sent_actions w ++ [Some action]
  /\ AsyncQueue.maxsize
       (UnityClient._send_queue
          (unity_client (fst (execute_one cfg (w, ex) action)))) = 0%Z.
Proof.
  intro H. unfold execute_one.
  set (w1 := if _check_rate_limit cfg (clock w) ex then w
             else sleep (min_interval cfg) w).
  assert (H1 : unity_client w1 = unity_client w)
    by (unfold w1; destruct (_check_rate_limit _ _ _); reflexivity).
  assert (H2 : unity_client
                 (if Qgt_bool (action_cooldown cfg) 0
                  then sleep (action_cooldown cfg) (send action w1)
                  else send action w1)
               = unity_client (send action w1))
    by (destruct (Qgt_bool _ _); reflexivity).
  unfold sent_actions. cbn [fst]. rewrite H2.
  unfold send. cbn [unity_client]. rewrite H1.
  unfold UnityClient.send_action.
  match goal with
  | |- context [UnityClient._queue_message ?m _] =>
      destruct (UnityClientFacts.queue_message_unbounded
                  m (unity_client w) H) as [Hp Hm]
  end.
  rewrite Hp, Hm, map_app. split; reflexivity.
Qed.

Lemma fold_sends (cfg : Config) (actions : list string) :
  forall w ex,
    AsyncQueue.maxsize (UnityClient._send_queue (unity_client w)) = 0%Z ->
    sent_actions (fst (fold_left (execute_one cfg) actions (w, ex)))
      = sent_actions w ++ map Some actions.
Proof.
  induction actions as [|a rest IH]; intros w ex H; cbn [fold_left map].
  - cbn [fst]. rewrite app_nil_r. reflexivity.
  - destruct (execute_one_sends cfg w ex a H) as [Hs Hm].
    destruct (execute_one cfg (w, ex) a) as [w1 ex1] eqn:E.
    cbn [fst] in Hs, Hm.
    rewrite (IH w1 ex1 Hm), Hs, <- app_assoc. reflexivity.
Qed.

(** No action is dropped: the channel receives the whole list, in order. *)
Lemma never_drops (cfg : Config) (actions : list string) (w : World) (ex : t) :
  AsyncQueue.maxsize (UnityClient._send_queue (unity_client w)) = 0%Z ->
  sent_actions (fst (execute_actions cfg actions (w, ex)))
    = sent_actions w ++ map Some actions.
Proof.
  intro H. destruct actions as [|a rest].
  - simpl. rewrite app_nil_r. reflexivity.
  - apply (fold_sends cfg (a :: rest) w ex H).
Qed.

End ExecutorFacts.

(** C4, on the code.  The empty list is a no-op and no action is ever dropped.
    The rate cap does not hold: when the window is saturated the executor
    sleeps [min_interval] once and then sends without checking again.  With
    [max_actions_per_sec = 2] and no cooldown, three actions go out at times
    0, 0 and 0.5, after a single sleep of 0.5 s: three commands in the
    trailing second that ends at 0.5, against a cap of two. *)
Theorem executor_exceeds_rate_cap :
  (forall cfg st, Executor.execute_actions cfg [] st = st)
  /\ (forall cfg actions w ex,
        AsyncQueue.maxsize
          (UnityClient._send_queue (Executor.unity_client w)) = 0%Z ->
        Executor.sent_actions
          (fst (Executor.execute_actions cfg actions (w, ex)))
        = Executor.sent_actions w ++ map Some actions)
  /\ (let cfg := Executor.mkConfig 0 2 in
      let w := fst (Executor.execute_actions cfg ["A"; "A"; "A"]%string
                      (Executor.fresh_world 0 0, Executor.init)) in
      Executor.sent_times w = [0; 0; 1 # 2]
      /\ Executor.sleeps w = [1 # 2]
      /\ Executor.window_count (1 # 2) (Executor.sent_times w) = 3%nat
      /\ inject_Z 3 > Executor.max_actions_per_sec cfg).
Proof.
  split; [reflexivity|].
  split; [intros; apply ExecutorFacts.never_drops; assumption|].
  repeat split.
Qed.

(** C4 at the settings [main.py] passes, a cooldown of 0.1 s, with a cap of 5
    actions per second and a hand-over that takes a millisecond: six actions
    go out within the trailing second that ends at 0.705. *)
Lemma executor_exceeds_rate_cap_witness :
  let cfg := Executor.mkConfig (1 # 10) 5 in
  let actions := ["A"; "A"; "A"; "A"; "A"; "A"]%string in
  let w := fst (Executor.execute_actions cfg actions
                  (Executor.fresh_world 0 (1 # 1000), Executor.init)) in
  Executor.sent_actions w = map Some actions
  /\ Executor.window_count (705 # 1000) (Executor.sent_times w) = 6%nat.
Proof.
  intros cfg actions w.
  destruct executor_exceeds_rate_cap as (_ & Hkeep & _).
  split; [|reflexivity].
  apply (Hkeep cfg actions (Executor.fresh_world 0 (1 # 1000)) Executor.init).
  reflexivity.
Defined.

(** ** The game loop *)

Module GameLoopFacts.

Import GameLoop.

(** Closes the conjunctions left once a phase has been evaluated. *)
Ltac settle :=
  cbn; repeat split; cbn; try reflexivity; try assumption; try lia.

Lemma tick_phases (agent : option Agent) (f : Frame) (l : Loop) :
  tick agent f l
  = (fst (emulate l)
       ++ fst (hold_button (snd (emulate l)))
       ++ fst (refresh_vision (snd (hold_button (snd (emulate l)))))
       ++ fst (collect f
                 (snd (refresh_vision (snd (hold_button (snd (emulate l)))))))
       ++ fst (dispatch agent f (before_dispatch f l)),
     snd (dispatch agent f (before_dispatch f l))).
Proof.
  unfold tick, before_dispatch.
  destruct (emulate l) as [e1 l1]. cbn [fst snd].
  destruct (hold_button l1) as [e2 l2]. cbn [fst snd].
  destruct (refresh_vision l2) as [e3 l3]. cbn [fst snd].
  destruct (collect f l3) as [e4 l4]. cbn [fst snd].
  destruct (dispatch agent f l4) as [e5 l5]. reflexivity.
Qed.

(** The first three phases leave the decision handle alone and neither start
    nor collect a decision. *)
Lemma emulate_neutral (l : Loop) :
  forallb neutral (fst (emulate l)) = true
  /\ pending_action_future (snd (emulate l)) = pending_action_future l
  /\ frame_count (snd (emulate l)) = (frame_count l + 1)%Z.
Proof. repeat split. Qed.

Lemma hold_button_neutral (l : Loop) :
  forallb neutral (fst (hold_button l)) = true
  /\ pending_action_future (snd (hold_button l)) = pending_action_future l
  /\ frame_count (snd (hold_button l)) = frame_count l.
Proof.
  unfold hold_button.
  destruct (0 <? button_frames_remaining l)%Z; [|repeat split].
  destruct (current_button l) as [b|]; [|repeat split].
  destruct (button_truthy (Some b));
    destruct (button_frames_remaining l - 1 =? 0)%Z; repeat split.
Qed.

Lemma refresh_vision_neutral (l : Loop) :
  forallb neutral (fst (refresh_vision l)) = true
  /\ pending_action_future (snd (refresh_vision l)) = pending_action_future l
  /\ frame_count (snd (refresh_vision l)) = frame_count l.
Proof.
  unfold refresh_vision.
  destruct (vision_update_interval <=? _)%Z; repeat split.
Qed.

Lemma neutral_prefix (xs ys : list Event) (b : bool) :
  forallb neutral xs = true ->
  single_in_flight b (xs ++ ys) = single_in_flight b ys
  /\ in_flight_after b (xs ++ ys) = in_flight_after b ys
  /\ dispatches (xs ++ ys) = dispatches ys.
Proof.
  induction xs as [|x xs IH]; intro H; [repeat split|].
  simpl in H. apply andb_prop in H. destruct H as [Hx Hxs].
  destruct (IH Hxs) as (I1 & I2 & I3).
  destruct x; try discriminate Hx; simpl; repeat split; assumption.
Qed.

(** Collecting: only a held handle is collected, and the handle is then
    gone. *)
Lemma collect_flight (f : Frame) (l : Loop) (ys : list Event) :
  single_in_flight (has_pending l) (fst (collect f l) ++ ys)
    = single_in_flight (has_pending (snd (collect f l))) ys
  /\ in_flight_after (has_pending l) (fst (collect f l) ++ ys)
     = in_flight_after (has_pending (snd (collect f l))) ys
  /\ dispatches (fst (collect f l) ++ ys) = dispatches ys.
Proof.
  unfold collect, has_pending.
  destruct (is_manual_mode f); [repeat split|].
  destruct (pending_action_future l) as [p|] eqn:Hp;
    [|cbn; rewrite Hp; repeat split].
  destruct (future_done f p); [|cbn; rewrite Hp; repeat split].
  destruct (future_result f p) as [action|]; [|repeat split].
  destruct (0 <? action)%Z; [|repeat split].
  destruct (button_map action); repeat split.
Qed.

(** Dispatching: a request is made only when no handle is held. *)
Lemma dispatch_flight (agent : option Agent) (f : Frame) (l : Loop) :
  single_in_flight (has_pending l) (fst (dispatch agent f l)) = true
  /\ in_flight_after (has_pending l) (fst (dispatch agent f l))
     = has_pending (snd (dispatch agent f l))
  /\ (dispatches (fst (dispatch agent f l)) <= 1)%nat.
Proof.
  unfold dispatch, has_pending.
  destruct (is_manual_mode f); cbn [negb andb]; [settle|].
  destruct (pending_action_future l) as [p|] eqn:Hp; cbn [andb];
    [cbn; rewrite Hp; settle|].
  destruct (action_interval_frames <=? _)%Z; [|cbn; rewrite Hp; settle].
  destruct agent as [[|]|]; cbn; try rewrite Hp; [| |settle].
  - destruct (button_frames_remaining l =? 0)%Z; cbn; try rewrite Hp; settle.
  - destruct (button_frames_remaining l =? 0)%Z; cbn; try rewrite Hp;
      [|settle].
    destruct (simple_predict f); cbn; try rewrite Hp; settle.
Qed.

(** What a request in a frame tells about the locals at the dispatch
    condition. *)
Lemma dispatch_guard (agent : option Agent) (f : Frame) (l : Loop) :
  dispatches (fst (dispatch agent f l)) <> 0%nat ->
  is_manual_mode f = false
  /\ pending_action_future l = None
  /\ (action_interval_frames <= frame_count l - last_action_frame l)%Z
  /\ button_frames_remaining l = 0%Z
  /\ agent <> None.
Proof.
  unfold dispatch.
  destruct (is_manual_mode f); cbn [negb andb]; [intro H; exfalso; auto|].
  destruct (pending_action_future l) as [p|];
    cbn [andb]; [intro H; exfalso; auto|].
  destruct (action_interval_frames <=? _)%Z eqn:E;
    [|intro H; exfalso; auto].
  apply Z.leb_le in E.
  destruct agent as [a|]; [|intro H; exfalso; auto].
  cbn [button_frames_remaining with_last_action].
  destruct (button_frames_remaining l =? 0)%Z eqn:B;
    [|intro H; exfalso; auto].
  apply Z.eqb_eq in B. intros _.
  repeat split; try assumption. discriminate.
Qed.

Lemma tick_dispatches (agent : option Agent) (f : Frame) (l : Loop) :
  dispatches (fst (tick agent f l))
  = dispatches (fst (dispatch agent f (before_dispatch f l))).
Proof.
  rewrite tick_phases. cbn [fst].
  destruct (emulate_neutral l) as (N1 & _ & _).
  destruct (hold_button_neutral (snd (emulate l))) as (N2 & _ & _).
  destruct (refresh_vision_neutral (snd (hold_button (snd (emulate l)))))
    as (N3 & _ & _).
  rewrite (proj2 (proj2 (neutral_prefix _ _ false N1))).
  rewrite (proj2 (proj2 (neutral_prefix _ _ false N2))).
  rewrite (proj2 (proj2 (neutral_prefix _ _ false N3))).
  rewrite (proj2 (proj2 (collect_flight f _ _))).
  reflexivity.
Qed.

Lemma before_dispatch_pending_source (l : Loop) :
  has_pending (snd (refresh_vision (snd (hold_button (snd (emulate l))))))
  = has_pending l.
Proof.
  unfold has_pending.
  destruct (refresh_vision_neutral (snd (hold_button (snd (emulate l)))))
    as (_ & -> & _).
  destruct (hold_button_neutral (snd (emulate l))) as (_ & -> & _).
  reflexivity.
Qed.

(** A frame keeps the single-in-flight discipline and the scan ends in step
    with the handle. *)
Lemma tick_flight (agent : option Agent) (f : Frame) (l : Loop)
    (ys : list Event) :
  single_in_flight (has_pending l) (fst (tick agent f l) ++ ys)
    = single_in_flight (has_pending (snd (tick agent f l))) ys.
Proof.
  rewrite tick_phases. cbn [fst snd].
  destruct (emulate_neutral l) as (N1 & _ & _).
  destruct (hold_button_neutral (snd (emulate l))) as (N2 & _ & _).
  destruct (refresh_vision_neutral (snd (hold_button (snd (emulate l)))))
    as (N3 & _ & _).
  repeat rewrite <- app_assoc.
  rewrite (proj1 (neutral_prefix _ _ _ N1)).
  rewrite (proj1 (neutral_prefix _ _ _ N2)).
  rewrite (proj1 (neutral_prefix _ _ _ N3)).
  rewrite <- (before_dispatch_pending_source l).
  rewrite (proj1 (collect_flight f _ _)).
  fold (before_dispatch f l).
  generalize (before_dispatch f l). intro l4.
  destruct (dispatch_flight agent f l4) as (S1 & S2 & _).
  revert S1 S2. generalize (has_pending l4).
  generalize (has_pending (snd (dispatch agent f l4))).
  generalize (fst (dispatch agent f l4)).
  intros es. induction es as [|e es IH]; intros b2 b1 S1 S2; simpl in *.
  - subst. reflexivity.
  - destruct e; simpl in *;
      try (apply andb_prop in S1; destruct S1 as [Sa Sb]; rewrite Sa; simpl);
      apply IH; assumption.
Qed.

Lemma run_flight (agent : option Agent) (frames : list Frame) :
  forall l, single_in_flight (has_pending l) (fst (run agent frames l)) = true.
Proof.
  induction frames as [|f rest IH]; intro l; simpl; [reflexivity|].
  destruct (tick agent f l) as [e l1] eqn:T.
  destruct (run agent rest l1) as [es l2] eqn:R.
  cbn [fst].
  pose proof (tick_flight agent f l es) as H. rewrite T in H. cbn [fst snd] in H.
  rewrite H. specialize (IH l1). rewrite R in IH. exact IH.
Qed.

Lemma dispatches_app (xs ys : list Event) :
  dispatches (xs ++ ys) = (dispatches xs + dispatches ys)%nat.
Proof. unfold dispatches. rewrite filter_app, length_app. reflexivity. Qed.

Lemma run_manual (agent : option Agent) (frames : list Frame) :
  forall l,
    Forall (fun f => is_manual_mode f = true) frames ->
    dispatches (fst (run agent frames l)) = 0%nat.
Proof.
  induction frames as [|f rest IH]; intros l H; simpl; [reflexivity|].
  inversion H as [|? ? Hf Hrest]; subst.
  pose proof (tick_dispatches agent f l) as Ht.
  destruct (tick agent f l) as [e l1] eqn:T.
  destruct (run agent rest l1) as [es l2] eqn:R.
  cbn [fst] in *. rewrite dispatches_app, Ht.
  specialize (IH l1 Hrest). rewrite R in IH. cbn [fst] in IH. rewrite IH.
  destruct (dispatches (fst (dispatch agent f (before_dispatch f l)))) eqn:D;
    [reflexivity|].
  assert (Hne : dispatches (fst (dispatch agent f (before_dispatch f l)))
                <> 0%nat) by (rewrite D; discriminate).
  apply dispatch_guard in Hne. destruct Hne as (Hm & _). congruence.
Qed.

(** The frame counter and the frame of the last request as the dispatch
    condition sees them. *)
Lemma before_dispatch_counters (f : Frame) (l : Loop) :
  frame_count (before_dispatch f l) = (frame_count l + 1)%Z
  /\ last_action_frame (before_dispatch f l) = last_action_frame l.
Proof.
  unfold before_dispatch, collect, refresh_vision, hold_button, emulate.
  cbn [fst snd].
  repeat match goal with
         | |- context [if ?c then _ else _] => destruct c; cbn [fst snd]
         | |- context [match ?x with Some _ => _ | None => _ end] =>
             destruct x; cbn [fst snd]
         end; split; reflexivity.
Qed.

(** The guard is also sufficient when an agent is set. *)
Lemma dispatch_fires (a : Agent) (f : Frame) (l : Loop) :
  is_manual_mode f = false ->
  pending_action_future l = None ->
  (action_interval_frames <= frame_count l - last_action_frame l)%Z ->
  button_frames_remaining l = 0%Z ->
  dispatches (fst (dispatch (Some a) f l)) = 1%nat.
Proof.
  intros Hm Hp Hc Hb. unfold dispatch. rewrite Hm, Hp. cbn [negb andb].
  apply Z.leb_le in Hc. rewrite Hc.
  cbn [button_frames_remaining with_last_action]. rewrite Hb. cbn.
  destruct a; [reflexivity|]. destruct (simple_predict f); reflexivity.
Qed.

End GameLoopFacts.

(** C6.  In a frame of the game loop a decision is requested only if the loop
    is in AI mode and holds no decision handle when the dispatch condition is
    evaluated.  Over any run, from any state, no request is made while a
    decision is in flight and only a decision in flight is collected; and a
    run whose frames are all in Manual mode makes no request at all, however
    long it is. *)
Theorem one_decision_in_flight (agent : option GameLoop.Agent) :
  (forall f l,
     GameLoop.dispatches (fst (GameLoop.tick agent f l)) <> 0%nat ->
     GameLoop.is_manual_mode f = false
     /\ GameLoop.pending_action_future (GameLoop.before_dispatch f l) = None)
  /\ (forall frames l,
        GameLoop.single_in_flight (GameLoop.has_pending l)
          (fst (GameLoop.run agent frames l)) = true)
  /\ (forall frames l,
        Forall (fun f => GameLoop.is_manual_mode f = true) frames ->
        GameLoop.dispatches (fst (GameLoop.run agent frames l)) = 0%nat).
Proof.
  split; [|split].
  - intros f l H. rewrite GameLoopFacts.tick_dispatches in H.
    apply GameLoopFacts.dispatch_guard in H.
    destruct H as (Hm & Hp & _). split; assumption.
  - intros frames l. apply GameLoopFacts.run_flight.
  - intros frames l H. apply GameLoopFacts.run_manual. exact H.
Qed.

(** C6 at work: with the worker never done, thirty AI frames from the start
    make one request, at frame 12, and keep the discipline; three Manual
    frames make none. *)
Lemma one_decision_in_flight_witness :
  let ai := GameLoop.mkFrame false false None None in
  let manual := GameLoop.mkFrame true true (Some 1%Z) (Some 1%Z) in
  let agent := Some GameLoop.WithEnv in
  GameLoop.dispatches (fst (GameLoop.run agent (repeat ai 30) GameLoop.init))
    = 1%nat
  /\ GameLoop.single_in_flight false
       (fst (GameLoop.run agent (repeat ai 30) GameLoop.init)) = true
  /\ GameLoop.dispatches
       (fst (GameLoop.run agent [manual; manual; manual]
               (GameLoop.mkLoop 40 0 0 None None 0))) = 0%nat.
Proof.
  intros ai manual agent.
  destruct (one_decision_in_flight agent) as (_ & Hflight & Hmanual).
  split; [reflexivity|].
  split; [exact (Hflight (repeat ai 30) GameLoop.init)|].
  apply Hmanual. repeat constructor.
Defined.

(** C10.  A frame requests a decision only when, at the dispatch condition,
    the loop is in AI mode, holds no decision handle, at least
    [action_interval_frames] frames have passed since the last request, the
    held-button countdown is zero and an agent is set; and with an agent set
    these conditions are enough for exactly one request. *)
Theorem dispatch_waits_for_button_release
    (agent : option GameLoop.Agent) (f : GameLoop.Frame) (l : GameLoop.Loop) :
  (GameLoop.dispatches (fst (GameLoop.tick agent f l)) <> 0%nat ->
   GameLoop.is_manual_mode f = false
   /\ GameLoop.pending_action_future (GameLoop.before_dispatch f l) = None
   /\ (GameLoop.action_interval_frames
       <= GameLoop.frame_count l + 1 - GameLoop.last_action_frame l)%Z
   /\ GameLoop.button_frames_remaining (GameLoop.before_dispatch f l) = 0%Z
   /\ agent <> None)
  /\ (agent <> None ->
      GameLoop.is_manual_mode f = false ->
      GameLoop.pending_action_future (GameLoop.before_dispatch f l) = None ->
      (GameLoop.action_interval_frames
       <= GameLoop.frame_count l + 1 - GameLoop.last_action_frame l)%Z ->
      GameLoop.button_frames_remaining (GameLoop.before_dispatch f l) = 0%Z ->
      GameLoop.dispatches (fst (GameLoop.tick agent f l)) = 1%nat).
Proof.
  destruct (GameLoopFacts.before_dispatch_counters f l) as [Hfc Hla].
  split.
  - intro H. rewrite GameLoopFacts.tick_dispatches in H.
    apply GameLoopFacts.dispatch_guard in H.
    destruct H as (Hm & Hp & Hc & Hb & Ha).
    rewrite Hfc, Hla in Hc. repeat split; assumption.
  - intros Ha Hm Hp Hc Hb. rewrite GameLoopFacts.tick_dispatches.
    destruct agent as [a|]; [|congruence].
    apply GameLoopFacts.dispatch_fires; try assumption.
    rewrite Hfc, Hla. exact Hc.
Qed.

(** C10 at work: at frame 12 with nothing held a request is made; with a
    button still held for five frames the same frame makes none, and none
    either when the countdown was set by a decision collected in that very
    frame. *)
Lemma dispatch_waits_for_button_release_witness :
  let ai := GameLoop.mkFrame false true (Some 2%Z) None in
  let agent := Some GameLoop.WithEnv in
  let free := GameLoop.mkLoop 11 0 0 None None 0 in
  let held := GameLoop.mkLoop 11 0 0 None (Some GameLoop.B) 5 in
  let landing := GameLoop.mkLoop 11 0 0 (Some GameLoop.InExecutor) None 0 in
  GameLoop.dispatches (fst (GameLoop.tick agent ai free)) = 1%nat
  /\ GameLoop.button_frames_remaining (GameLoop.before_dispatch ai free) = 0%Z
  /\ GameLoop.dispatches (fst (GameLoop.tick agent ai held)) = 0%nat
  /\ GameLoop.dispatches (fst (GameLoop.tick agent ai landing)) = 0%nat.
Proof.
  intros ai agent free held landing.
  destruct (dispatch_waits_for_button_release agent ai free) as [Honly Hif].
  assert (H1 : GameLoop.dispatches (fst (GameLoop.tick agent ai free)) = 1%nat).
  { apply Hif; [discriminate | reflexivity | reflexivity | | reflexivity].
    vm_compute. discriminate. }
  split; [exact H1|].
  assert (Hne : GameLoop.dispatches (fst (GameLoop.tick agent ai free))
                <> 0%nat) by (rewrite H1; discriminate).
  destruct (Honly Hne) as (_ & _ & _ & Hb & _).
  split; [exact Hb|]. split; reflexivity.
Defined.

(** ** The event loop *)

Module MainLoopFacts.

Import MainLoop.

Lemma undisturbed_refl (s : Sys) : undisturbed s s.
Proof.
  repeat split. exists []. rewrite app_nil_r. split; reflexivity.
Qed.

Lemma undisturbed_trans (s1 s2 s3 : Sys) :
  undisturbed s1 s2 -> undisturbed s2 s3 -> undisturbed s1 s3.
Proof.
  intros (E1 & G1 & C1 & A1 & M1 & Z1 & P1 & N1 & new1 & T1 & F1)
         (E2 & G2 & C2 & A2 & M2 & Z2 & P2 & N2 & new2 & T2 & F2).
  repeat split; try congruence.
  exists (new1 ++ new2). rewrite T2, T1, <- app_assoc, forallb_app, F1, F2.
  split; reflexivity.
Qed.

Lemma run_task_undisturbed (t : Task) (s : Sys) : undisturbed s (run_task t s).
Proof.
  destruct t as [text | text]; destruct s; cbn; repeat split.
  - exists []. rewrite app_nil_r. split; reflexivity.
  - exists [ChatSend text]. split; reflexivity.
Qed.

Lemma fold_tasks_undisturbed (ts : list Task) :
  forall s, undisturbed s (fold_left (fun acc t => run_task t acc) ts s).
Proof.
  induction ts as [|t ts IH]; intro s; [apply undisturbed_refl|].
  cbn [fold_left]. eapply undisturbed_trans; [|apply IH].
  apply run_task_undisturbed.
Qed.

Lemma run_tasks_undisturbed (s : Sys) : undisturbed s (run_tasks s).
Proof.
  unfold run_tasks. eapply undisturbed_trans; [|apply fold_tasks_undisturbed].
  destruct s. cbn. repeat split.
  exists []. rewrite app_nil_r. split; reflexivity.
Qed.

Lemma resume_undisturbed (b : bool) (s : Sys) : undisturbed s (resume b s).
Proof.
  destruct b; [apply run_tasks_undisturbed | apply undisturbed_refl].
Qed.

Lemma undisturbed_set_now (t : Q) (s s' : Sys) :
  undisturbed s s' ->
  events_queue (set_now t s') = events_queue s
  /\ game_events_queue (set_now t s') = game_events_queue s
  /\ chat_queue (set_now t s') = chat_queue s
  /\ gate (set_now t s') = gate s
  /\ state_manager (set_now t s') = state_manager s
  /\ manual_controller (set_now t s') = manual_controller s
  /\ pokemon_enabled (set_now t s') = pokemon_enabled s
  /\ exists new,
       trace (set_now t s') = trace s ++ new
       /\ forallb is_chat_send new = true.
Proof.
  intros (E & G & C & A & M & Z & P & N & T). repeat split; assumption.
Qed.

Section Settled.

Variable allowed : Effect -> bool.

Lemma settled_ret {A : Type} (a : A) : settled allowed (ret a).
Proof.
  intro s. cbn. repeat split. exists []. rewrite app_nil_r. split; reflexivity.
Qed.

Lemma settled_raise {A : Type} (exn : string) : settled allowed (@raise A exn).
Proof.
  intro s. cbn. repeat split. exists []. rewrite app_nil_r. split; reflexivity.
Qed.

Lemma settled_gets {A : Type} (f : Sys -> A) : settled allowed (gets f).
Proof.
  intro s. cbn. repeat split. exists []. rewrite app_nil_r. split; reflexivity.
Qed.

Lemma settled_bind {A B : Type} (c : M A) (k : A -> M B) :
  settled allowed c -> (forall a, settled allowed (k a)) ->
  settled allowed (bind c k).
Proof.
  intros Hc Hk s. unfold bind.
  destruct (Hc s) as (E1 & G1 & C1 & new1 & T1 & F1).
  destruct (c s) as [[a | exn] s1]; cbn [snd] in *.
  - destruct (Hk a s1) as (E2 & G2 & C2 & new2 & T2 & F2).
    rewrite E2, G2, C2, T2, E1, G1, C1, T1. repeat split.
    exists (new1 ++ new2). rewrite app_assoc, forallb_app, F1, F2.
    split; reflexivity.
  - repeat split; try assumption. exists new1. split; assumption.
Qed.

Lemma settled_modify (f : Sys -> Sys) : keeps f -> settled allowed (modify f).
Proof.
  intros H s. destruct (H s) as (E & G & C & T). cbn.
  repeat split; try assumption.
  exists []. rewrite app_nil_r. split; [assumption | reflexivity].
Qed.

Lemma settled_emit (e : Effect) : allowed e = true -> settled allowed (emit e).
Proof.
  intros H s. cbn. repeat split. exists [e]. cbn. rewrite H. split; reflexivity.
Qed.

Lemma settled_undisturbed (f : Sys -> Sys) :
  (forall text, allowed (ChatSend text) = true) ->
  (forall s, undisturbed s (f s)) ->
  settled allowed (modify f).
Proof.
  intros Hchat H s. destruct (H s) as (E & G & C & _ & _ & _ & _ & _ & T).
  destruct T as (new & T & F). cbn [modify snd].
  repeat split; try assumption.
  exists new. split; [exact T|].
  rewrite forallb_forall in *. intros e He. specialize (F e He).
  destruct e; try discriminate F. apply Hchat.
Qed.

Lemma settled_sleep (d : Q) :
  (forall text, allowed (ChatSend text) = true) ->
  settled allowed (sleep d).
Proof.
  intros Hchat s.
  destruct (undisturbed_set_now (now s + d) (run_tasks_undisturbed s))
    as (E & G & C & _ & _ & _ & _ & new & T & F).
  cbn [sleep modify snd]. repeat split; try assumption.
  exists new. split; [exact T|].
  rewrite forallb_forall in *. intros e He. specialize (F e He).
  destruct e; try discriminate F. apply Hchat.
Qed.

Lemma settled_pass (d : Q) : settled allowed (pass d).
Proof. apply settled_modify. intro s. repeat split. Qed.

Lemma settled_spawn (t : Task) : settled allowed (spawn t).
Proof. apply settled_modify. intro s. repeat split. Qed.

Lemma settled_await (suspends : Await -> Sys -> bool) (a : Await) :
  (forall text, allowed (ChatSend text) = true) ->
  settled allowed (await suspends a).
Proof.
  intro Hchat. apply settled_undisturbed; [exact Hchat|].
  intro s. apply resume_undisturbed.
Qed.

Lemma settled_when (b : bool) (c : M unit) :
  settled allowed c -> settled allowed (when b c).
Proof. intro H. destruct b; [exact H | apply settled_ret]. Qed.

End Settled.

Lemma settled_weaken (allowed allowed' : Effect -> bool) {A : Type} (c : M A) :
  (forall e, allowed e = true -> allowed' e = true) ->
  settled allowed c -> settled allowed' c.
Proof.
  intros Hsub H s. destruct (H s) as (E & G & C & new & T & F).
  repeat split; try assumption. exists new. split; [assumption|].
  rewrite forallb_forall in *. intros e He. apply Hsub, F, He.
Qed.

(** Breaks a sequence of steps into its steps and closes the plain ones. *)
Ltac quiet_steps :=
  unfold quiet;
  repeat match goal with
         | |- settled _ (ret _) => apply settled_ret
         | |- settled _ (raise _) => apply settled_raise
         | |- settled _ (gets _) => apply settled_gets
         | |- settled _ (sleep _) => apply settled_sleep; intro; reflexivity
         | |- settled _ (pass _) => apply settled_pass
         | |- settled _ (spawn _) => apply settled_spawn
         | |- settled _ (await _ _) => apply settled_await; intro; reflexivity
         | |- settled _ (emit _) => apply settled_emit; reflexivity
         | |- settled _ (modify _) => apply settled_modify; intro; repeat split
         | |- settled _ (when _ _) => apply settled_when
         | |- settled _ (bind _ _) => apply settled_bind; [|intro]
         | |- settled _ (if ?b then _ else _) => destruct b
         | |- settled _ (match ?x with _ => _ end) => destruct x
         end.

Lemma quiet_ask (brain : Request -> Decision) (latency : Q)
    (suspends : Await -> Sys -> bool) (r : Request) :
  quiet (ask brain latency suspends r).
Proof. unfold ask. quiet_steps. Qed.

Lemma quiet_gate : quiet _can_make_brain_decision.
Proof.
  intro s. unfold _can_make_brain_decision.
  destruct (Gate._can_make_brain_decision (now s) (gate s)) as [ok g].
  cbn. repeat split. exists []. rewrite app_nil_r. split; reflexivity.
Qed.

Lemma quiet_set_thinking : quiet set_thinking.
Proof. unfold set_thinking. quiet_steps. Qed.

Lemma quiet_update (decision_type : string) :
  quiet (update_state_from_decision decision_type).
Proof. unfold update_state_from_decision. quiet_steps. Qed.

Lemma quiet_send_say (text audio : option string) (format : string) :
  quiet (send_say text audio format).
Proof. unfold send_say. quiet_steps. Qed.

Lemma quiet_set_mode (mode : ControlMode) : quiet (set_mode mode).
Proof. unfold set_mode. quiet_steps. Qed.

Lemma quiet_toggle_mode : quiet toggle_mode.
Proof.
  unfold toggle_mode. apply settled_bind; [apply settled_gets | intro mc].
  destruct mc as [[|]|]; apply quiet_set_mode.
Qed.

Lemma quiet_feedback (cfg : Config) (message : string) :
  quiet (_on_manual_control_message cfg message).
Proof. unfold _on_manual_control_message. quiet_steps. Qed.

Lemma quiet_save (cfg : Config) (save_state : option bool) :
  quiet (save_game cfg save_state).
Proof.
  unfold save_game. apply settled_bind; [apply settled_emit; reflexivity|].
  intro. destruct save_state as [[|]|];
    first [apply quiet_feedback | apply settled_ret].
Qed.

Lemma quiet_load (cfg : Config) (load_state : option bool) :
  quiet (load_game cfg load_state).
Proof.
  unfold load_game. apply settled_bind; [apply settled_emit; reflexivity|].
  intro. destruct load_state as [[|]|];
    first [apply quiet_feedback | apply settled_ret].
Qed.

Lemma quiet_command (cfg : Config) (strip lower : string -> string)
    (save_state load_state : option bool) (message : string) :
  quiet (process_chat_command cfg strip lower save_state load_state message).
Proof.
  unfold process_chat_command.
  repeat match goal with
         | |- quiet (if ?b then _ else _) => destruct b
         end;
    try (apply settled_bind; [|intro]);
    first [ apply quiet_set_mode | apply quiet_toggle_mode
          | apply quiet_save | apply quiet_load | apply settled_ret ].
Qed.

Lemma quiet_status : quiet get_status_message.
Proof. unfold get_status_message. quiet_steps. Qed.

Lemma quiet_execute (cfg : Config)
    (generate_speech : string -> option (string * string))
    (suspends : Await -> Sys -> bool) (d : Decision) :
  quiet (_execute_decision cfg generate_speech suspends d).
Proof.
  unfold _execute_decision.
  destruct (String.eqb (dtype d) "GOAL"); [apply settled_raise|].
  destruct (String.eqb (dtype d) "SAY"); [|apply settled_ret].
  apply settled_bind; [quiet_steps | intro].
  apply settled_bind; [apply quiet_send_say | intro].
  apply settled_bind; [|intro].
  - apply settled_when. destruct (dvalue d); quiet_steps.
  - apply settled_when. destruct (dvalue d); quiet_steps.
Qed.

Lemma bind_run {A B : Type} (c : M A) (k : A -> M B) (s : Sys) :
  bind c k s
  = match c s with
    | (Returned a, s1) => k a s1
    | (Raised exn, s1) => (Raised exn, s1)
    end.
Proof. reflexivity. Qed.

(** An effect, then a settled computation: the queues stay and the trace
    grows by the effect and by what the computation allows. *)
Lemma emit_then (allowed : Effect -> bool) (X : Effect) {A : Type} (h : M A)
    (s : Sys) :
  settled allowed h ->
  let r := bind (emit X) (fun _ => h) s in
  events_queue (snd r) = events_queue s
  /\ game_events_queue (snd r) = game_events_queue s
  /\ chat_queue (snd r) = chat_queue s
  /\ exists new,
       trace (snd r) = trace s ++ X :: new
       /\ forallb allowed new = true.
Proof.
  intros H r.
  destruct (H (set_trace (trace s ++ [X]) s)) as (E & G & C & new & T & F).
  repeat split; try assumption.
  exists new. split; [|exact F].
  unfold r. cbn. cbn in T. rewrite T, <- app_assoc. reflexivity.
Qed.

Lemma ends_ret (flow : Flow) (last : Q) : ends_with flow (ret (flow, last)).
Proof. intro s. reflexivity. Qed.

Lemma ends_bind {A : Type} (flow : Flow) (c : M A) (k : A -> M (Flow * Q)) :
  (forall a, ends_with flow (k a)) -> ends_with flow (bind c k).
Proof.
  intros H s. unfold bind.
  destruct (c s) as [[a | x] s1]; [apply H | exact I].
Qed.

Lemma dequeued_app (xs ys : list Effect) :
  dequeued (xs ++ ys) = dequeued xs ++ dequeued ys.
Proof.
  induction xs as [|x xs IH]; [reflexivity|].
  destruct x; simpl; rewrite IH; reflexivity.
Qed.

Lemma no_dequeue_dequeued (new : list Effect) :
  forallb (fun e => negb (is_dequeue e)) new = true -> dequeued new = [].
Proof.
  induction new as [|e new IH]; [reflexivity|].
  simpl. intro H. apply andb_prop in H. destruct H as [He Hn].
  destruct e; try discriminate He; simpl; apply IH; exact Hn.
Qed.

Lemma no_marker_facts (new : list Effect) :
  forallb (fun e => negb (is_marker e)) new = true ->
  dequeued new = [] /\ ~ In AutonomousRequest new.
Proof.
  induction new as [|e new IH]; [intros _; split; [reflexivity | intros []]|].
  cbn [forallb]. intro H. apply andb_prop in H. destruct H as [He Hn].
  destruct (IH Hn) as [Hd Ha].
  destruct e; try discriminate He; simpl;
    (split; [exact Hd | intros [Heq | Hin];
                        [discriminate Heq | exact (Ha Hin)]]).
Qed.

(** Messages to the chat are neither items taken nor requests for an
    autonomous decision. *)
Lemma chat_sends_quiet (extra : list Effect) :
  forallb is_chat_send extra = true ->
  forallb (fun e => negb (is_marker e)) extra = true.
Proof.
  intro H. rewrite forallb_forall in *. intros e He. specialize (H e He).
  destruct e; try discriminate H. reflexivity.
Qed.

Lemma set_gate_same (s : Sys) : set_gate (gate s) s = s.
Proof. destruct s. reflexivity. Qed.

(** With no task waiting, a coroutine that suspends finds the system as it
    left it. *)
Lemma run_tasks_idle (s : Sys) : tasks s = [] -> run_tasks s = s.
Proof. destruct s. cbn. intros ->. reflexivity. Qed.

Lemma resume_idle (b : bool) (s : Sys) : tasks s = [] -> resume b s = s.
Proof. intro H. destruct b; [apply run_tasks_idle, H | reflexivity]. Qed.

(** A message that is no control command is passed over by the manual
    controller. *)
Lemma command_not_taken (cfg : Config) (strip lower : string -> string)
    (save_state load_state : option bool) (message : string) (s : Sys) :
  is_control_command strip lower message = false ->
  process_chat_command cfg strip lower save_state load_state message s
  = (Returned false, s).
Proof.
  unfold is_control_command, process_chat_command, Text.mem.
  set (x := lower (strip message)).
  change ["!takeover"; "!manual"; "!control"; "!me";
          "!auto"; "!ai"; "!release"; "!bot";
          "!toggle"; "!switch"; "!save"; "!savegame";
          "!load"; "!loadgame"]%string
    with (List.app ["!takeover"; "!manual"; "!control"; "!me"]%string
            (List.app ["!auto"; "!ai"; "!release"; "!bot"]%string
               (List.app ["!toggle"; "!switch"]%string
                  (List.app ["!save"; "!savegame"]%string
                            ["!load"; "!loadgame"]%string)))).
  rewrite !existsb_app, !orb_false_iff.
  intros (-> & -> & -> & -> & ->). reflexivity.
Qed.

Section Collaborators.

Variable cfg : Config.
Variable brain : Request -> Decision.
Variable brain_latency : Q.
Variable generate_speech : string -> option (string * string).
Variable suspends : Await -> Sys -> bool.
Variable strip : string -> string.
Variable lower : string -> string.
Variable save_state : option bool.
Variable load_state : option bool.

Local Abbreviation decide r :=
  (set_thinking ;;
   decision <- ask brain brain_latency suspends r ;;
   update_state_from_decision (dtype decision) ;;
   _execute_decision cfg generate_speech suspends decision).

Local Abbreviation twitch_handler :=
  (_process_twitch_event cfg brain brain_latency generate_speech suspends).

Local Abbreviation game_handler :=
  (_process_game_event cfg brain brain_latency generate_speech suspends).

Local Abbreviation chat_handler :=
  (_process_chat_message cfg brain brain_latency generate_speech suspends
     strip lower save_state load_state).

Local Abbreviation autonomous :=
  (_make_autonomous_decision cfg brain brain_latency generate_speech
     suspends).

Local Abbreviation check :=
  (autonomous_check cfg brain brain_latency generate_speech suspends).

Local Abbreviation chat_poll :=
  (serve_chat cfg brain brain_latency generate_speech suspends
     strip lower save_state load_state).

Local Abbreviation loop_body :=
  (body cfg brain brain_latency generate_speech suspends
     strip lower save_state load_state).

Local Abbreviation turn :=
  (iteration cfg brain brain_latency generate_speech suspends
     strip lower save_state load_state).

Lemma quiet_decide (r : Request) : quiet (decide r).
Proof.
  apply settled_bind; [apply quiet_set_thinking | intro].
  apply settled_bind; [apply quiet_ask | intro d].
  apply settled_bind; [apply quiet_update | intro].
  apply quiet_execute.
Qed.

Lemma quiet_twitch (e : TwitchEvent) : quiet (twitch_handler e).
Proof.
  unfold _process_twitch_event.
  apply settled_bind; [apply quiet_set_thinking | intro].
  apply settled_bind; [apply settled_when; quiet_steps | intro].
  apply settled_bind; [apply quiet_ask | intro d].
  apply settled_bind; [apply quiet_update | intro].
  apply quiet_execute.
Qed.

Lemma quiet_game (g : GameEvent) : quiet (game_handler g).
Proof.
  unfold _process_game_event.
  destruct (disable_brain_while_gaming cfg);
    [apply settled_ret | apply quiet_decide].
Qed.

Lemma quiet_chat (username message : string) :
  quiet (chat_handler username message).
Proof.
  unfold _process_chat_message.
  apply settled_bind; [apply settled_gets | intro mc].
  apply settled_bind;
    [destruct mc; [apply quiet_command | apply settled_ret] | intro handled].
  destruct handled.
  - apply settled_bind; [apply quiet_status | intro].
    apply settled_bind; [apply quiet_send_say | intro].
    apply settled_when. quiet_steps.
  - apply settled_bind; [apply quiet_gate | intro ok].
    destruct ok; cbn [negb]; [apply quiet_decide | apply settled_ret].
Qed.

Lemma quiet_autonomous : quiet autonomous.
Proof.
  unfold _make_autonomous_decision.
  apply settled_bind; [apply settled_gets | intro enabled].
  destruct (enabled && disable_brain_while_gaming cfg); [apply settled_ret|].
  apply settled_bind; [apply quiet_gate | intro ok].
  destruct ok; cbn [negb]; [apply quiet_decide | apply settled_ret].
Qed.

Lemma settled_autonomous_check (last : Q) :
  settled (fun e => negb (is_dequeue e)) (check last).
Proof.
  unfold autonomous_check.
  apply settled_bind; [apply settled_gets | intro current_time].
  destruct (Qge_bool _ _); [|apply settled_ret].
  apply settled_bind; [apply settled_gets | intro chat_q].
  apply settled_bind; [apply settled_gets | intro events_q].
  apply settled_bind; [|intro; apply settled_ret].
  destruct chat_q; [destruct events_q|]; try apply settled_ret.
  apply settled_bind; [apply settled_emit; reflexivity | intro].
  apply settled_weaken with (allowed := fun e => negb (is_marker e));
    [|apply quiet_autonomous].
  intros e; destruct e; simpl; auto.
Qed.

(** What follows the third poll in the body. *)
Lemma settled_rest_of_turn (last : Q) :
  settled (fun e => negb (is_dequeue e))
    (last' <- check last ;;
     sleep (1 # 20) ;;
     ret (RanToEnd, last')).
Proof.
  apply settled_bind; [apply settled_autonomous_check | intro].
  apply settled_bind;
    [apply settled_sleep; intro; reflexivity | intro; apply settled_ret].
Qed.

Lemma ends_rest_of_turn (last : Q) :
  ends_with RanToEnd
    (last' <- check last ;;
     sleep (1 # 20) ;;
     ret (RanToEnd, last')).
Proof.
  apply ends_bind. intro last'. apply ends_bind. intro. apply ends_ret.
Qed.

(** The state a turn leaves, read off the body: the [except] clause sleeps,
    and tasks that then run may send messages to the chat. *)
Lemma iteration_of_body (last : Q) (s : Sys) :
  let b := loop_body last s in
  let r := turn last s in
  events_queue (snd r) = events_queue (snd b)
  /\ game_events_queue (snd r) = game_events_queue (snd b)
  /\ chat_queue (snd r) = chat_queue (snd b)
  /\ (exists extra,
        trace (snd r) = trace (snd b) ++ extra
        /\ forallb is_chat_send extra = true)
  /\ match fst b with
     | Returned (f, l) => fst r = (f, l)
     | Raised _ => fst r = (Caught, last)
     end.
Proof.
  unfold iteration.
  destruct (loop_body last s) as [[[f l] | x] s1]; cbn [fst snd].
  - repeat split. exists []. rewrite app_nil_r. split; reflexivity.
  - destruct (undisturbed_set_now (now s1 + 1) (run_tasks_undisturbed s1))
      as (E & G & C & _ & _ & _ & _ & T).
    repeat split; assumption.
Qed.

(** The system after a [wait_for] that found an item. *)
Local Abbreviation got s := (resume (suspends AwaitGet s) s).

Lemma after_timeout_queues (s : Sys) :
  events_queue (after_timeout s) = events_queue s
  /\ game_events_queue (after_timeout s) = game_events_queue s
  /\ chat_queue (after_timeout s) = chat_queue s
  /\ exists new,
       trace (after_timeout s) = trace s ++ new
       /\ forallb is_chat_send new = true.
Proof.
  destruct (undisturbed_set_now (now s + (1 # 20)) (run_tasks_undisturbed s))
    as (E & G & C & _ & _ & _ & _ & T).
  repeat split; assumption.
Qed.

Lemma got_queues (s : Sys) :
  events_queue (got s) = events_queue s
  /\ game_events_queue (got s) = game_events_queue s
  /\ chat_queue (got s) = chat_queue s
  /\ exists new,
       trace (got s) = trace s ++ new
       /\ forallb is_chat_send new = true.
Proof.
  destruct (resume_undisturbed (suspends AwaitGet s) s)
    as (E & G & C & _ & _ & _ & _ & _ & T).
  repeat split; assumption.
Qed.

(** The body when a platform event is queued. *)
Lemma body_platform_eq (last : Q) (s : Sys) (e : TwitchEvent)
    (rest : list TwitchEvent) :
  events_queue s = e :: rest ->
  loop_body last s
  = (emit (Dequeued (PlatformItem e)) ;;
     twitch_handler e ;;
     ret (Restarted, last)) (set_events_queue rest (got s)).
Proof.
  intro H. unfold body, poll. rewrite !bind_run. cbn [gets].
  rewrite H. reflexivity.
Qed.

(** The body when only a game event is queued. *)
Lemma body_game_eq (last : Q) (s : Sys) (g : GameEvent)
    (rest : list GameEvent) :
  events_queue s = [] ->
  game_events_queue s = g :: rest ->
  loop_body last s
  = (emit (Dequeued (GameItem g)) ;;
     game_handler g ;;
     ret (Restarted, last))
      (set_game_events_queue rest (got (after_timeout s))).
Proof.
  intros H1 H2.
  destruct (after_timeout_queues s) as (_ & G & _).
  unfold body. rewrite bind_run. unfold poll at 1.
  rewrite bind_run. cbn [gets]. rewrite H1.
  change ((sleep (1 # 20) ;; ret None) s)
    with (@Returned (option TwitchEvent) None, after_timeout s).
  cbv iota. rewrite bind_run. unfold poll at 1.
  rewrite bind_run. cbn [gets]. rewrite G, H2. reflexivity.
Qed.

(** The body when neither a platform event nor a game event is queued. *)
Lemma body_idle_eq (last : Q) (s : Sys) :
  events_queue s = [] ->
  game_events_queue s = [] ->
  loop_body last s
  = (chat_poll ;;
     last' <- check last ;;
     sleep (1 # 20) ;;
     ret (RanToEnd, last'))
      (after_timeout (after_timeout s)).
Proof.
  intros H1 H2.
  destruct (after_timeout_queues s) as (_ & G & _).
  unfold body. rewrite bind_run. unfold poll at 1.
  rewrite bind_run. cbn [gets]. rewrite H1.
  change ((sleep (1 # 20) ;; ret None) s)
    with (@Returned (option TwitchEvent) None, after_timeout s).
  cbv iota. rewrite bind_run. unfold poll at 1.
  rewrite bind_run. cbn [gets]. rewrite G, H2. reflexivity.
Qed.

Lemma serve_chat_head (s : Sys) (username message : string)
    (rest : list (string * string)) :
  chat_queue s = (username, message) :: rest ->
  chat_poll s
  = (emit (Dequeued (ChatItem username message)) ;;
     chat_handler username message) (set_chat_queue rest (got s)).
Proof.
  intro H. unfold serve_chat, poll. rewrite !bind_run. cbn [gets].
  rewrite H. reflexivity.
Qed.

Lemma serve_chat_empty (s : Sys) :
  chat_queue s = [] ->
  chat_poll s = (Returned tt, after_timeout s).
Proof.
  intro H. unfold serve_chat, poll. rewrite !bind_run. cbn [gets].
  rewrite H. reflexivity.
Qed.


(** A turn with a platform event queued. *)
Lemma turn_platform (last : Q) (s : Sys) (e : TwitchEvent)
    (rest : list TwitchEvent) :
  events_queue s = e :: rest ->
  let r := turn last s in
  events_queue (snd r) = rest
  /\ game_events_queue (snd r) = game_events_queue s
  /\ chat_queue (snd r) = chat_queue s
  /\ (exists before after,
        trace (snd r) = trace s ++ before ++ Dequeued (PlatformItem e) :: after
        /\ forallb (fun x => negb (is_marker x)) before = true
        /\ forallb (fun x => negb (is_marker x)) after = true)
  /\ (fst (fst r) = Restarted \/ fst (fst r) = Caught).
Proof.
  intros H r.
  destruct (iteration_of_body last s) as (E & G & C & (extra & T & F) & Fl).
  fold r in E, G, C, T, Fl.
  rewrite (body_platform_eq last s H) in E, G, C, T, Fl.
  destruct (got_queues s) as (E0 & G0 & C0 & pre & T0 & F0).
  match type of T with
  | context [bind (emit ?X) (fun _ => ?h) ?s0] =>
      destruct (@emit_then (fun x => negb (is_marker x)) X _ h s0)
        as (E1 & G1 & C1 & new & T1 & F1);
        [apply settled_bind; [apply quiet_twitch | intro; apply settled_ret]|];
        pose proof (@ends_bind unit Restarted (emit X) (fun _ => h)) as Hend
  end.
  cbn [events_queue game_events_queue chat_queue trace set_events_queue]
    in E1, G1, C1, T1.
  rewrite E, G, C, T, E1, G1, C1, T1, G0, C0, T0.
  split; [reflexivity|]. split; [reflexivity|]. split; [reflexivity|].
  split.
  - exists pre, (new ++ extra). rewrite <- !app_assoc. cbn [app].
    split; [reflexivity|].
    split; [apply chat_sends_quiet, F0|].
    rewrite forallb_app, F1. apply chat_sends_quiet, F.
  - match type of Fl with
    | match fst ?b with _ => _ end =>
        assert (Hb : match fst b with
                     | Returned (f, _) => f = Restarted
                     | Raised _ => True
                     end);
          [apply Hend; intro; apply ends_bind; intro; apply ends_ret|];
          destruct (fst b) as [[f l] | x]
    end.
    + left. rewrite Fl. exact Hb.
    + right. rewrite Fl. reflexivity.
Qed.

(** A turn with no platform event and a game event queued. *)
Lemma turn_game (last : Q) (s : Sys) (g : GameEvent) (rest : list GameEvent) :
  events_queue s = [] ->
  game_events_queue s = g :: rest ->
  let r := turn last s in
  events_queue (snd r) = []
  /\ game_events_queue (snd r) = rest
  /\ chat_queue (snd r) = chat_queue s
  /\ (exists before after,
        trace (snd r) = trace s ++ before ++ Dequeued (GameItem g) :: after
        /\ forallb (fun x => negb (is_marker x)) before = true
        /\ forallb (fun x => negb (is_marker x)) after = true)
  /\ (fst (fst r) = Restarted \/ fst (fst r) = Caught).
Proof.
  intros H1 H2 r.
  destruct (iteration_of_body last s) as (E & G & C & (extra & T & F) & Fl).
  fold r in E, G, C, T, Fl.
  rewrite (body_game_eq last s H1 H2) in E, G, C, T, Fl.
  destruct (after_timeout_queues s) as (Ea & Ga & Ca & pre1 & Ta & Fa).
  destruct (got_queues (after_timeout s)) as (E0 & G0 & C0 & pre2 & T0 & F0).
  match type of T with
  | context [bind (emit ?X) (fun _ => ?h) ?s0] =>
      destruct (@emit_then (fun x => negb (is_marker x)) X _ h s0)
        as (E1 & G1 & C1 & new & T1 & F1);
        [apply settled_bind; [apply quiet_game | intro; apply settled_ret]|];
        pose proof (@ends_bind unit Restarted (emit X) (fun _ => h)) as Hend
  end.
  cbn [events_queue game_events_queue chat_queue trace set_game_events_queue]
    in E1, G1, C1, T1.
  rewrite E, G, C, T, E1, G1, C1, T1, E0, C0, T0, Ea, Ca, Ta, H1.
  split; [reflexivity|]. split; [reflexivity|]. split; [reflexivity|].
  split.
  - exists (pre1 ++ pre2), (new ++ extra). rewrite <- !app_assoc. cbn [app].
    split; [reflexivity|].
    split; [rewrite forallb_app; rewrite !chat_sends_quiet by assumption;
            reflexivity|].
    rewrite forallb_app, F1. apply chat_sends_quiet, F.
  - match type of Fl with
    | match fst ?b with _ => _ end =>
        assert (Hb : match fst b with
                     | Returned (f, _) => f = Restarted
                     | Raised _ => True
                     end);
          [apply Hend; intro; apply ends_bind; intro; apply ends_ret|];
          destruct (fst b) as [[f l] | x]
    end.
    + left. rewrite Fl. exact Hb.
    + right. rewrite Fl. reflexivity.
Qed.

(** What running tasks and awaits leave alone, field by field. *)
Lemma now_run_tasks (s : Sys) : now (run_tasks s) = now s.
Proof.
  destruct (run_tasks_undisturbed s) as (_ & _ & _ & _ & _ & _ & _ & N & _).
  exact N.
Qed.

Lemma now_resume (b : bool) (s : Sys) : now (resume b s) = now s.
Proof. destruct b; [apply now_run_tasks | reflexivity]. Qed.

Lemma now_after_timeout (s : Sys) : now (after_timeout s) = now s + (1 # 20).
Proof. reflexivity. Qed.

Lemma gate_run_tasks (s : Sys) : gate (run_tasks s) = gate s.
Proof.
  destruct (run_tasks_undisturbed s) as (_ & _ & _ & A & _). exact A.
Qed.

Lemma gate_resume (b : bool) (s : Sys) : gate (resume b s) = gate s.
Proof. destruct b; [apply gate_run_tasks | reflexivity]. Qed.

Lemma brain_calls_app (xs ys : list Effect) :
  brain_calls (xs ++ ys) = brain_calls xs ++ brain_calls ys.
Proof.
  induction xs as [|x xs IH]; [reflexivity|].
  destruct x; simpl; rewrite IH; reflexivity.
Qed.

Lemma chat_sends_no_call (extra : list Effect) :
  forallb is_chat_send extra = true -> brain_calls extra = [].
Proof.
  induction extra as [|e extra IH]; [reflexivity|].
  cbn [forallb]. intro H. apply andb_prop in H. destruct H as [He Hx].
  destruct e; try discriminate He. cbn [brain_calls]. apply IH, Hx.
Qed.

Lemma undisturbed_no_call (s s' : Sys) :
  undisturbed s s' -> brain_calls (trace s') = brain_calls (trace s).
Proof.
  intros (_ & _ & _ & _ & _ & _ & _ & _ & new & T & F).
  rewrite T, brain_calls_app, (chat_sends_no_call new F). apply app_nil_r.
Qed.

End Collaborators.

(** ** Computations that respect a relation *)

Section Respects.

Variable R : Sys -> Sys -> Prop.
Hypothesis R_refl : forall s, R s s.
Hypothesis R_trans : forall s1 s2 s3, R s1 s2 -> R s2 s3 -> R s1 s3.

Lemma respects_ret {A : Type} (a : A) : respects R (ret a).
Proof. intro s. apply R_refl. Qed.

Lemma respects_raise {A : Type} (exn : string) : respects R (@raise A exn).
Proof. intro s. apply R_refl. Qed.

Lemma respects_gets {A : Type} (f : Sys -> A) : respects R (gets f).
Proof. intro s. apply R_refl. Qed.

Lemma respects_bind {A B : Type} (c : M A) (k : A -> M B) :
  respects R c -> (forall a, respects R (k a)) -> respects R (bind c k).
Proof.
  intros Hc Hk s. unfold bind. pose proof (Hc s) as H1.
  destruct (c s) as [[a | exn] s1]; cbn [snd] in *; [|exact H1].
  eapply R_trans; [exact H1 | apply Hk].
Qed.

Lemma respects_when (b : bool) (c : M unit) :
  respects R c -> respects R (when b c).
Proof. intro H. destruct b; [exact H | apply respects_ret]. Qed.

Lemma respects_modify (f : Sys -> Sys) :
  (forall s, R s (f s)) -> respects R (modify f).
Proof. intros H s. apply H. Qed.

End Respects.

(** Breaks a computation into its steps; [prim] settles the steps that
    change the system. *)
Ltac respects_steps refl trans prim :=
  repeat match goal with
         | |- respects _ (ret _) => apply (respects_ret _ refl)
         | |- respects _ (raise _) => apply (respects_raise _ refl)
         | |- respects _ (gets _) => apply (respects_gets _ refl)
         | |- respects _ (when _ _) => apply (respects_when refl)
         | |- respects _ (bind _ _) => apply (respects_bind trans); [|intro]
         | |- respects _ (if ?b then _ else _) => destruct b
         | |- respects _ (match ?x with _ => _ end) => destruct x
         | |- respects _ _ => prim
         end.

(** Unfolds the handlers down to their steps. *)
Ltac open_handlers :=
  unfold _process_chat_message, _process_twitch_event, _process_game_event,
    _make_autonomous_decision, _execute_decision, process_chat_command,
    get_status_message, toggle_mode, set_mode, save_game, load_game,
    _on_manual_control_message, ask, set_thinking,
    update_state_from_decision, send_say.

(** *** The loop clock does not go back *)

Lemma clock_refl (s : Sys) : clock_forward s s.
Proof. unfold clock_forward. lra. Qed.

Lemma clock_trans (s1 s2 s3 : Sys) :
  clock_forward s1 s2 -> clock_forward s2 s3 -> clock_forward s1 s3.
Proof. unfold clock_forward. intros. lra. Qed.

Lemma clock_same (f : Sys -> Sys) :
  (forall s, now (f s) = now s) -> respects clock_forward (modify f).
Proof.
  intros H s. unfold clock_forward. cbn [modify snd]. rewrite H. lra.
Qed.

Lemma clock_gate : respects clock_forward _can_make_brain_decision.
Proof.
  intro s. unfold _can_make_brain_decision, clock_forward.
  destruct (Gate._can_make_brain_decision (now s) (gate s)) as [ok g].
  cbn. lra.
Qed.

Lemma clock_pass (d : Q) : 0 <= d -> respects clock_forward (pass d).
Proof. intros H s. unfold clock_forward. cbn. lra. Qed.

Lemma clock_sleep (d : Q) : 0 <= d -> respects clock_forward (sleep d).
Proof.
  intros H s. unfold clock_forward. cbn [sleep modify snd now set_now]. lra.
Qed.

Lemma clock_await (suspends : Await -> Sys -> bool) (a : Await) :
  respects clock_forward (await suspends a).
Proof. apply clock_same. intro s. apply now_resume. Qed.

(** Settles a step for the clock, given that the collaborator's answer takes
    no negative time. *)
Ltac clock_prim H :=
  first [ apply clock_gate
        | apply clock_await
        | apply clock_pass; exact H
        | apply clock_same; intro; reflexivity ].

Lemma clock_chat (cfg : Config) (brain : Request -> Decision)
    (brain_latency : Q) (generate_speech : string -> option (string * string))
    (suspends : Await -> Sys -> bool) (strip lower : string -> string)
    (save_state load_state : option bool) (username message : string) :
  0 <= brain_latency ->
  respects clock_forward
    (_process_chat_message cfg brain brain_latency generate_speech suspends
       strip lower save_state load_state username message).
Proof.
  intro H. open_handlers. unfold emit, spawn.
  respects_steps clock_refl clock_trans ltac:(clock_prim H).
Qed.

Section Turns.

Variable cfg : Config.
Variable brain : Request -> Decision.
Variable brain_latency : Q.
Variable generate_speech : string -> option (string * string).
Variable suspends : Await -> Sys -> bool.
Variable strip : string -> string.
Variable lower : string -> string.
Variable save_state : option bool.
Variable load_state : option bool.

Local Abbreviation chat_handler :=
  (_process_chat_message cfg brain brain_latency generate_speech suspends
     strip lower save_state load_state).

Local Abbreviation autonomous :=
  (_make_autonomous_decision cfg brain brain_latency generate_speech
     suspends).

Local Abbreviation check :=
  (autonomous_check cfg brain brain_latency generate_speech suspends).

Local Abbreviation chat_poll :=
  (serve_chat cfg brain brain_latency generate_speech suspends
     strip lower save_state load_state).

Local Abbreviation loop_body :=
  (body cfg brain brain_latency generate_speech suspends
     strip lower save_state load_state).

Local Abbreviation turn :=
  (iteration cfg brain brain_latency generate_speech suspends
     strip lower save_state load_state).

Local Abbreviation got s := (resume (suspends AwaitGet s) s).

(** When the interval has passed and nothing is queued, the check asks for an
    autonomous decision first of all. *)
Lemma check_due (last : Q) (s : Sys) :
  Qge_bool (now s - last) autonomous_decision_interval = true ->
  chat_queue s = [] ->
  events_queue s = [] ->
  exists new,
    trace (snd (check last s)) = trace s ++ AutonomousRequest :: new.
Proof.
  intros Hdue Hc He. unfold autonomous_check.
  rewrite bind_run. cbn [gets]. rewrite Hdue.
  rewrite bind_run. cbn [gets]. rewrite bind_run. cbn [gets].
  rewrite Hc, He. rewrite bind_run.
  destruct (@emit_then (fun x => negb (is_marker x)) AutonomousRequest _
              autonomous s (quiet_autonomous cfg brain brain_latency
                              generate_speech suspends))
    as (_ & _ & _ & new & T & _).
  exists new.
  destruct ((emit AutonomousRequest ;; autonomous) s) as [[[] | x] s1];
    exact T.
Qed.

(** What follows the third poll: the check and the sleep. *)
Lemma rest_of_turn_facts (last : Q) (s : Sys) :
  let b := (last' <- check last ;;
            sleep (1 # 20) ;;
            ret (RanToEnd, last')) s in
  events_queue (snd b) = events_queue s
  /\ game_events_queue (snd b) = game_events_queue s
  /\ chat_queue (snd b) = chat_queue s
  /\ match fst b with
     | Returned (f, _) => f = RanToEnd
     | Raised _ => True
     end
  /\ exists new,
       trace (snd b) = trace s ++ new
       /\ forallb (fun x => negb (is_dequeue x)) new = true
       /\ (Qge_bool (now s - last) autonomous_decision_interval = true ->
           chat_queue s = [] ->
           events_queue s = [] ->
           In AutonomousRequest new).
Proof.
  intro b.
  destruct (settled_rest_of_turn cfg brain brain_latency generate_speech
              suspends last s) as (E & G & C & new & T & F).
  pose proof (ends_rest_of_turn cfg brain brain_latency generate_speech
                suspends last s) as Hend.
  fold b in E, G, C, T, Hend.
  split; [exact E|]. split; [exact G|]. split; [exact C|].
  split; [exact Hend|].
  exists new. split; [exact T|]. split; [exact F|].
  intros Hdue Hc He.
  destruct (check_due last s Hdue Hc He) as (new1 & T1).
  assert (Hpre : exists more, trace (snd b) = trace (snd (check last s)) ++ more).
  { unfold b. rewrite bind_run.
    destruct (check last s) as [[last' | x] s1]; cbn [snd].
    - assert (Hs : settled (fun _ => true)
                     (sleep (1 # 20) ;; ret (RanToEnd, last')))
        by (apply settled_bind;
            [apply settled_sleep; intro; reflexivity
            | intro; apply settled_ret]).
      destruct (Hs s1) as (_ & _ & _ & more & Tm & _).
      exists more. exact Tm.
    - exists []. symmetry. apply app_nil_r. }
  destruct Hpre as (more & Tm).
  rewrite T1, T, <- app_assoc in Tm. apply app_inv_head in Tm.
  rewrite Tm. left. reflexivity.
Qed.

(** A turn with only chat queued: the message is taken, the turn does not
    restart, and when it runs to its end the autonomous check has been made
    in it. *)
Lemma turn_chat (last : Q) (s : Sys) (username message : string)
    (rest : list (string * string)) :
  events_queue s = [] ->
  game_events_queue s = [] ->
  chat_queue s = (username, message) :: rest ->
  let r := turn last s in
  events_queue (snd r) = []
  /\ game_events_queue (snd r) = []
  /\ chat_queue (snd r) = rest
  /\ (fst (fst r) = RanToEnd \/ fst (fst r) = Caught)
  /\ exists before after,
       trace (snd r)
       = trace s ++ before ++ Dequeued (ChatItem username message) :: after
       /\ forallb (fun x => negb (is_marker x)) before = true
       /\ forallb (fun x => negb (is_dequeue x)) after = true
       /\ (fst (fst r) = RanToEnd ->
           rest = [] ->
           0 <= brain_latency ->
           last + autonomous_decision_interval <= now s ->
           In AutonomousRequest after).
Proof.
  intros H1 H2 H3 r.
  destruct (iteration_of_body cfg brain brain_latency generate_speech
              suspends strip lower save_state load_state last s)
    as (E & G & C & (extra & T & F) & Fl).
  fold r in E, G, C, T, Fl.
  rewrite (body_idle_eq cfg brain brain_latency generate_speech suspends
             strip lower save_state load_state last s H1 H2)
    in E, G, C, T, Fl.
  destruct (after_timeout_queues s) as (Ea & Ga & Ca & p1 & Ta & Fa).
  destruct (after_timeout_queues (after_timeout s))
    as (Eb & Gb & Cb & p2 & Tb & Fb).
  set (s2 := after_timeout (after_timeout s)) in *.
  assert (Hc2 : chat_queue s2 = (username, message) :: rest)
    by (rewrite Cb, Ca; exact H3).
  rewrite bind_run in E, G, C, T, Fl.
  rewrite (serve_chat_head cfg brain brain_latency generate_speech suspends
             strip lower save_state load_state s2 Hc2) in E, G, C, T, Fl.
  destruct (got_queues suspends s2) as (E0 & G0 & C0 & p3 & T0 & F0).
  set (s3 := set_chat_queue rest (got s2)) in *.
  set (X := Dequeued (ChatItem username message)) in *.
  destruct (@emit_then (fun x => negb (is_dequeue x)) X _
              (chat_handler username message) s3)
    as (E1 & G1 & C1 & new1 & T1 & F1).
  { apply settled_weaken with (allowed := fun x => negb (is_marker x));
      [intros x; destruct x; simpl; auto | apply quiet_chat]. }
  assert (Hclk : 0 <= brain_latency ->
                 now s3
                 <= now (snd ((emit X ;; chat_handler username message) s3))).
  { intro Hlat.
    apply (@respects_bind clock_forward clock_trans unit unit).
    - apply clock_same. intro. reflexivity.
    - intro. apply clock_chat. exact Hlat. }
  assert (Hs3 : events_queue s3 = [] /\ game_events_queue s3 = []
                /\ chat_queue s3 = rest /\ now s3 = now s + (1 # 20) + (1 # 20)
                /\ trace s3 = trace s ++ p1 ++ p2 ++ p3).
  { unfold s3. cbn [events_queue game_events_queue chat_queue now trace
                    set_chat_queue].
    rewrite E0, G0, T0, now_resume, Eb, Gb, Tb, Ea, Ga, Ta, H1, H2.
    unfold s2. rewrite !now_after_timeout, <- !app_assoc. repeat split. }
  destruct Hs3 as (E3 & G3 & C3 & N3 & T3).
  assert (Hpre : forallb (fun x => negb (is_marker x)) (p1 ++ p2 ++ p3)
                 = true).
  { rewrite !forallb_app, !chat_sends_quiet by assumption. reflexivity. }
  destruct ((emit X ;; chat_handler username message) s3)
    as [[[] | x] s5]; cbn [fst snd] in *.
  - destruct (rest_of_turn_facts last s5)
      as (E2 & G2 & C2 & Hend & new2 & T2 & F2 & Hauto).
    match type of Fl with
    | match fst ?t with _ => _ end => set (b := t) in *
    end.
    rewrite E, G, C, T, E2, G2, C2, T2, E1, G1, C1, T1, E3, G3, C3, T3.
    split; [reflexivity|]. split; [reflexivity|]. split; [reflexivity|].
    split.
    { destruct (fst b) as [[f l] | y];
        [left; rewrite Fl; exact Hend | right; rewrite Fl; reflexivity]. }
    exists (p1 ++ p2 ++ p3), (new1 ++ new2 ++ extra).
    rewrite <- !app_assoc. cbn [app]. split; [reflexivity|].
    split; [exact Hpre|].
    split.
    { rewrite !forallb_app, F1, F2. cbn [andb].
      rewrite forallb_forall in *. intros e He. specialize (F e He).
      destruct e; try discriminate F. reflexivity. }
    intros _ Hrest Hlat Hint.
    apply in_or_app. right. apply in_or_app. left.
    apply Hauto.
    + apply Qge_bool_true. specialize (Hclk Hlat). rewrite N3 in Hclk.
      unfold autonomous_decision_interval in *. lra.
    + rewrite C1, C3. exact Hrest.
    + rewrite E1, E3. reflexivity.
  - rewrite E, G, C, T, E1, G1, C1, T1, E3, G3, C3, T3.
    split; [reflexivity|]. split; [reflexivity|]. split; [reflexivity|].
    split; [right; rewrite Fl; reflexivity|].
    exists (p1 ++ p2 ++ p3), (new1 ++ extra).
    rewrite <- !app_assoc. cbn [app]. split; [reflexivity|].
    split; [exact Hpre|].
    split.
    { rewrite forallb_app, F1. cbn [andb].
      rewrite forallb_forall in *. intros e He. specialize (F e He).
      destruct e; try discriminate F. reflexivity. }
    intro Hf. rewrite Fl in Hf. discriminate Hf.
Qed.

(** A turn with nothing queued takes nothing. *)
Lemma turn_empty (last : Q) (s : Sys) :
  events_queue s = [] ->
  game_events_queue s = [] ->
  chat_queue s = [] ->
  let r := turn last s in
  events_queue (snd r) = []
  /\ game_events_queue (snd r) = []
  /\ chat_queue (snd r) = []
  /\ (fst (fst r) = RanToEnd \/ fst (fst r) = Caught)
  /\ exists new,
       trace (snd r) = trace s ++ new
       /\ forallb (fun x => negb (is_dequeue x)) new = true.
Proof.
  intros H1 H2 H3 r.
  destruct (iteration_of_body cfg brain brain_latency generate_speech
              suspends strip lower save_state load_state last s)
    as (E & G & C & (extra & T & F) & Fl).
  fold r in E, G, C, T, Fl.
  rewrite (body_idle_eq cfg brain brain_latency generate_speech suspends
             strip lower save_state load_state last s H1 H2)
    in E, G, C, T, Fl.
  destruct (after_timeout_queues s) as (Ea & Ga & Ca & p1 & Ta & Fa).
  destruct (after_timeout_queues (after_timeout s))
    as (Eb & Gb & Cb & p2 & Tb & Fb).
  set (s2 := after_timeout (after_timeout s)) in *.
  assert (Hc2 : chat_queue s2 = []) by (rewrite Cb, Ca; exact H3).
  rewrite bind_run in E, G, C, T, Fl.
  rewrite (serve_chat_empty cfg brain brain_latency generate_speech suspends
             strip lower save_state load_state s2 Hc2) in E, G, C, T, Fl.
  destruct (after_timeout_queues s2) as (Ec & Gc & Cc & p3 & Tc & Fc).
  destruct (rest_of_turn_facts last (after_timeout s2))
    as (E2 & G2 & C2 & Hend & new2 & T2 & F2 & _).
  match type of Fl with
  | match fst ?t with _ => _ end => set (b := t) in *
  end.
  rewrite E, G, C, T, E2, G2, C2, T2, Ec, Gc, Cc, Tc, Eb, Gb, Cb, Tb,
    Ea, Ga, Ca, Ta, H1, H2, H3.
  split; [reflexivity|]. split; [reflexivity|]. split; [reflexivity|].
  split.
  { destruct (fst b) as [[f l] | y];
      [left; rewrite Fl; exact Hend | right; rewrite Fl; reflexivity]. }
  exists (p1 ++ p2 ++ p3 ++ new2 ++ extra).
  rewrite <- !app_assoc. split; [reflexivity|].
  assert (Hq : forall l, forallb is_chat_send l = true ->
                 forallb (fun x => negb (is_dequeue x)) l = true).
  { intros l Hl. rewrite forallb_forall in *. intros e He.
    specialize (Hl e He). destruct e; try discriminate Hl. reflexivity. }
  rewrite !forallb_app, F2, !Hq by assumption. reflexivity.
Qed.

End Turns.

(** *** Chat messages: dropped, or answered as control commands *)

(** Tasks that run on a channel without a bound only add to what is
    pending. *)
Lemma fold_tasks_outbound (ts : list Task) :
  forall s,
    AsyncQueue.maxsize (UnityClient._send_queue (unity_client s)) = 0%Z ->
    exists later,
      outbound (fold_left (fun acc t => run_task t acc) ts s)
      = outbound s ++ later.
Proof.
  induction ts as [|t ts IH]; intros s Hq.
  - exists []. symmetry. apply app_nil_r.
  - cbn [fold_left].
    assert (H1 : AsyncQueue.maxsize
                   (UnityClient._send_queue (unity_client (run_task t s)))
                 = 0%Z
                 /\ exists one, outbound (run_task t s) = outbound s ++ one).
    { destruct t as [text | text]; unfold outbound;
        cbn [run_task unity_client set_unity_client set_trace].
      - unfold UnityClient.send_say.
        match goal with
        | |- context [UnityClient._queue_message ?m _] =>
            destruct (UnityClientFacts.queue_message_unbounded m
                        (unity_client s) Hq) as [Hp Hm]
        end.
        split; [exact Hm|]. eexists. exact Hp.
      - split; [exact Hq|]. exists []. symmetry. apply app_nil_r. }
    destruct H1 as [Hq1 (one & H1)].
    destruct (IH _ Hq1) as (later & H2).
    exists (one ++ later). rewrite H2, H1. symmetry. apply app_assoc.
Qed.

Lemma resume_outbound (b : bool) (s : Sys) :
  AsyncQueue.maxsize (UnityClient._send_queue (unity_client s)) = 0%Z ->
  exists later, outbound (resume b s) = outbound s ++ later.
Proof.
  intro Hq. destruct b; cbn [resume].
  - destruct (fold_tasks_outbound (tasks s) (set_tasks [] s) Hq)
      as (later & H).
    exists later. exact H.
  - exists []. symmetry. apply app_nil_r.
Qed.

Section Commands.

Variable cfg : Config.
Variable brain : Request -> Decision.
Variable brain_latency : Q.
Variable generate_speech : string -> option (string * string).
Variable suspends : Await -> Sys -> bool.
Variable strip : string -> string.
Variable lower : string -> string.
Variable save_state : option bool.
Variable load_state : option bool.

Local Abbreviation chat_handler :=
  (_process_chat_message cfg brain brain_latency generate_speech suspends
     strip lower save_state load_state).

Local Abbreviation command :=
  (process_chat_command cfg strip lower save_state load_state).

(** A message the manual controller does not take, dequeued while the gate
    rejects, leaves the system as it was. *)
Lemma chat_rejected (username message : string) (s : Sys) :
  manual_controller s = None
  \/ is_control_command strip lower message = false ->
  fst (Gate._can_make_brain_decision (now s) (gate s)) = false ->
  chat_handler username message s = (Returned tt, s).
Proof.
  intros Hgate Hrej.
  assert (Hcmd : (match manual_controller s with
                  | Some _ => command message
                  | None => ret false
                  end) s = (Returned false, s)).
  { destruct (manual_controller s) as [mc|]; [|reflexivity].
    destruct Hgate as [Hn | Hc]; [discriminate Hn|].
    apply command_not_taken. exact Hc. }
  unfold _process_chat_message.
  rewrite bind_run. cbn [gets]. rewrite bind_run, Hcmd.
  rewrite bind_run. unfold _can_make_brain_decision.
  pose proof (GateFacts.reject_state _ _ Hrej) as Hst.
  destruct (Gate._can_make_brain_decision (now s) (gate s)) as [ok g].
  cbn [fst snd] in Hrej, Hst. subst ok g. cbn [negb].
  rewrite set_gate_same. reflexivity.
Qed.

(** A control command is carried out: the controller is in some mode
    afterwards, and nothing else of what the loop works on has moved but the
    trace, which shows no call of the decision collaborator, and the list of
    tasks. *)
Lemma command_taken (message : string) (s : Sys) (mode : ControlMode) :
  manual_controller s = Some mode ->
  is_control_command strip lower message = true ->
  let r := command message s in
  fst r = Returned true
  /\ (exists mode', manual_controller (snd r) = Some mode')
  /\ gate (snd r) = gate s
  /\ state_manager (snd r) = state_manager s
  /\ unity_client (snd r) = unity_client s
  /\ now (snd r) = now s
  /\ brain_calls (trace (snd r)) = brain_calls (trace s).
Proof.
  intros Hmc Hcmd.
  destruct s as [eq gq cq g sm uc mc pe t tr tk].
  cbn [manual_controller] in Hmc. subst mc.
  revert Hcmd.
  unfold is_control_command, process_chat_command, Text.mem.
  set (x := lower (strip message)).
  change ["!takeover"; "!manual"; "!control"; "!me";
          "!auto"; "!ai"; "!release"; "!bot";
          "!toggle"; "!switch"; "!save"; "!savegame";
          "!load"; "!loadgame"]%string
    with (List.app ["!takeover"; "!manual"; "!control"; "!me"]%string
            (List.app ["!auto"; "!ai"; "!release"; "!bot"]%string
               (List.app ["!toggle"; "!switch"]%string
                  (List.app ["!save"; "!savegame"]%string
                            ["!load"; "!loadgame"]%string)))).
  rewrite !existsb_app.
  destruct (existsb (String.eqb x) ["!takeover"; "!manual"; "!control";
                                    "!me"]%string);
    [|destruct (existsb (String.eqb x) ["!auto"; "!ai"; "!release";
                                        "!bot"]%string);
      [|destruct (existsb (String.eqb x) ["!toggle"; "!switch"]%string);
        [|destruct (existsb (String.eqb x) ["!save"; "!savegame"]%string);
          [|destruct (existsb (String.eqb x) ["!load"; "!loadgame"]%string);
            [|discriminate]]]]];
    intros _;
    unfold toggle_mode, set_mode, save_game, load_game,
      _on_manual_control_message;
    destruct mode; try destruct save_state as [[|]|];
    try destruct load_state as [[|]|]; try destruct (chat_listener cfg);
    cbn; rewrite ?brain_calls_app; cbn [brain_calls]; rewrite ?app_nil_r;
    repeat split; eexists; reflexivity.
Qed.

(** A control command is answered whatever the gate says: it is carried out,
    the gate is not asked, no call of the decision collaborator is made, the
    state machine stays, and the status of the mode now in force is queued for
    the remote consumer. *)
Lemma command_answered (username message : string) (s : Sys)
    (mode : ControlMode) :
  manual_controller s = Some mode ->
  is_control_command strip lower message = true ->
  AsyncQueue.maxsize (UnityClient._send_queue (unity_client s)) = 0%Z ->
  let r := chat_handler username message s in
  fst r = Returned tt
  /\ gate (snd r) = gate s
  /\ state_manager (snd r) = state_manager s
  /\ brain_calls (trace (snd r)) = brain_calls (trace s)
  /\ exists mode' later,
       manual_controller (snd r) = Some mode'
       /\ outbound (snd r)
          = outbound s
              ++ UnityClient.mkMessage UnityClient.SAY
                   (Some (status_text mode')) (now s) None None None
                 :: later.
Proof.
  intros Hmc Hcmd Hq.
  destruct (command_taken message s Hmc Hcmd)
    as (Hres & (mode' & Hm1) & Hg1 & Hs1 & Hu1 & Hn1 & Hb1).
  unfold _process_chat_message.
  rewrite bind_run. cbn [gets]. rewrite Hmc. rewrite bind_run.
  destruct (command message s) as [res s1]. cbn [fst snd] in *. subst res.
  rewrite bind_run. unfold get_status_message. rewrite bind_run.
  cbn [gets]. rewrite Hm1.
  assert (Hst : (match mode' with
                 | MANUAL => ret (status_text MANUAL)
                 | AI => ret (status_text AI)
                 end) s1 = (Returned (status_text mode'), s1))
    by (destruct mode'; reflexivity).
  replace ((match mode' with
            | AI => ret (status_text AI)
            | MANUAL => ret (status_text MANUAL)
            end) s1)
    with (Returned (status_text mode'), s1)
    by (destruct mode'; reflexivity).
  clear Hst. rewrite bind_run. cbn [send_say modify].
  set (s2 := set_unity_client _ s1).
  assert (H2 : gate s2 = gate s /\ state_manager s2 = state_manager s
               /\ trace s2 = trace s1 /\ manual_controller s2 = Some mode'
               /\ outbound s2
                  = outbound s
                      ++ [UnityClient.mkMessage UnityClient.SAY
                            (Some (status_text mode')) (now s) None None None]
               /\ AsyncQueue.maxsize
                    (UnityClient._send_queue (unity_client s2)) = 0%Z).
  { unfold s2, outbound.
    cbn [gate state_manager trace manual_controller unity_client
         set_unity_client].
    rewrite Hu1, Hn1. unfold UnityClient.send_say.
    match goal with
    | |- context [UnityClient._queue_message ?m _] =>
        destruct (UnityClientFacts.queue_message_unbounded m
                    (unity_client s) Hq) as [Hp Hmx]
    end.
    rewrite Hp. repeat split; assumption. }
  destruct H2 as (Hg2 & Hs2 & Ht2 & Hm2 & Ho2 & Hq2).
  clearbody s2.
  destruct (chat_listener cfg); cbn [when].
  - rewrite bind_run. cbn [emit modify await].
    set (s3 := set_trace _ s2).
    assert (Hq3 : AsyncQueue.maxsize
                    (UnityClient._send_queue (unity_client s3)) = 0%Z)
      by exact Hq2.
    destruct (resume_outbound (suspends AwaitChat s3) s3 Hq3)
      as (later & Hout).
    destruct (resume_undisturbed (suspends AwaitChat s3) s3)
      as (_ & _ & _ & Hg3 & Hs3 & Hm3 & _ & _ & new & T3 & F3).
    change (await suspends AwaitChat s3)
      with (Returned tt, resume (suspends AwaitChat s3) s3).
    cbn [fst snd].
    split; [reflexivity|]. split; [rewrite Hg3; exact Hg2|].
    split; [rewrite Hs3; exact Hs2|].
    split.
    { rewrite T3, brain_calls_app, (chat_sends_no_call new F3), app_nil_r.
      unfold s3. cbn [trace set_trace].
      rewrite brain_calls_app, Ht2, Hb1. cbn [brain_calls].
      apply app_nil_r. }
    exists mode', later. split; [rewrite Hm3; exact Hm2|].
    rewrite Hout. unfold s3, outbound. cbn [unity_client set_trace].
    fold (outbound s2). rewrite Ho2, <- app_assoc. reflexivity.
  - cbn [ret fst snd].
    split; [reflexivity|]. split; [exact Hg2|]. split; [exact Hs2|].
    split; [rewrite Ht2; exact Hb1|].
    exists mode', []. split; [exact Hm2 | exact Ho2].
Qed.

End Commands.

End MainLoopFacts.

(** C5.  What a turn of the event loop does with its queues.  With a platform
    event queued the turn takes that event and nothing else, leaves the game
    and chat queues as they were, however long their items have waited, asks
    for no autonomous decision, and ends at its [continue] or in the [except]
    clause.  With no platform event and a game event queued it does the same
    for the game event.  With only chat queued it takes the first chat
    message and nothing else, but it does not restart: there is no
    [continue] on this path, and the turn ends at the end of the body or in
    the [except] clause; when it runs to its end, with no further chat
    message queued and five seconds passed since the last autonomous
    decision, the autonomous decision is asked for in this same turn, after
    the message.  With nothing queued the turn takes nothing. *)
Theorem chat_turn_does_not_restart
    (cfg : MainLoop.Config) (brain : MainLoop.Request -> MainLoop.Decision)
    (brain_latency : Q) (generate_speech : string -> option (string * string))
    (suspends : MainLoop.Await -> MainLoop.Sys -> bool)
    (strip lower : string -> string) (save_state load_state : option bool)
    (last : Q) (s : MainLoop.Sys) :
  let r := MainLoop.iteration cfg brain brain_latency generate_speech
             suspends strip lower save_state load_state last s in
  (forall e rest,
     MainLoop.events_queue s = e :: rest ->
     MainLoop.events_queue (snd r) = rest
     /\ MainLoop.game_events_queue (snd r) = MainLoop.game_events_queue s
     /\ MainLoop.chat_queue (snd r) = MainLoop.chat_queue s
     /\ (fst (fst r) = MainLoop.Restarted \/ fst (fst r) = MainLoop.Caught)
     /\ exists new,
          MainLoop.trace (snd r) = MainLoop.trace s ++ new
          /\ MainLoop.dequeued new = [MainLoop.PlatformItem e]
          /\ ~ In MainLoop.AutonomousRequest new)
  /\ (forall g rest,
        MainLoop.events_queue s = [] ->
        MainLoop.game_events_queue s = g :: rest ->
        MainLoop.events_queue (snd r) = []
        /\ MainLoop.game_events_queue (snd r) = rest
        /\ MainLoop.chat_queue (snd r) = MainLoop.chat_queue s
        /\ (fst (fst r) = MainLoop.Restarted \/ fst (fst r) = MainLoop.Caught)
        /\ exists new,
             MainLoop.trace (snd r) = MainLoop.trace s ++ new
             /\ MainLoop.dequeued new = [MainLoop.GameItem g]
             /\ ~ In MainLoop.AutonomousRequest new)
  /\ (forall username message rest,
        MainLoop.events_queue s = [] ->
        MainLoop.game_events_queue s = [] ->
        MainLoop.chat_queue s = (username, message) :: rest ->
        MainLoop.chat_queue (snd r) = rest
        /\ (fst (fst r) = MainLoop.RanToEnd \/ fst (fst r) = MainLoop.Caught)
        /\ exists before after,
             MainLoop.trace (snd r)
             = MainLoop.trace s
                 ++ before
                 ++ MainLoop.Dequeued (MainLoop.ChatItem username message)
                    :: after
             /\ MainLoop.dequeued before = []
             /\ MainLoop.dequeued after = []
             /\ (fst (fst r) = MainLoop.RanToEnd ->
                 rest = [] ->
                 0 <= brain_latency ->
                 last + MainLoop.autonomous_decision_interval
                 <= MainLoop.now s ->
                 In MainLoop.AutonomousRequest after))
  /\ (MainLoop.events_queue s = [] ->
      MainLoop.game_events_queue s = [] ->
      MainLoop.chat_queue s = [] ->
      (fst (fst r) = MainLoop.RanToEnd \/ fst (fst r) = MainLoop.Caught)
      /\ exists new,
           MainLoop.trace (snd r) = MainLoop.trace s ++ new
           /\ MainLoop.dequeued new = []).
Proof.
  intro r. split; [|split; [|split]].
  - intros e rest H.
    destruct (@MainLoopFacts.turn_platform
                cfg brain brain_latency generate_speech suspends strip lower
                save_state load_state last s e rest H)
      as (E & G & C & (before & after & T & F1 & F2) & Fl).
    fold r in E, G, C, T, Fl.
    destruct (MainLoopFacts.no_marker_facts before F1) as [Hd1 Ha1].
    destruct (MainLoopFacts.no_marker_facts after F2) as [Hd2 Ha2].
    repeat (split; [assumption|]).
    exists (before ++ MainLoop.Dequeued (MainLoop.PlatformItem e) :: after).
    split; [exact T|]. split.
    + rewrite MainLoopFacts.dequeued_app. cbn [MainLoop.dequeued].
      rewrite Hd1, Hd2. reflexivity.
    + intro Hin. apply in_app_or in Hin.
      destruct Hin as [Hin | [Heq | Hin]];
        [exact (Ha1 Hin) | discriminate Heq | exact (Ha2 Hin)].
  - intros g rest H1 H2.
    destruct (@MainLoopFacts.turn_game
                cfg brain brain_latency generate_speech suspends strip lower
                save_state load_state last s g rest H1 H2)
      as (E & G & C & (before & after & T & F1 & F2) & Fl).
    fold r in E, G, C, T, Fl.
    destruct (MainLoopFacts.no_marker_facts before F1) as [Hd1 Ha1].
    destruct (MainLoopFacts.no_marker_facts after F2) as [Hd2 Ha2].
    repeat (split; [assumption|]).
    exists (before ++ MainLoop.Dequeued (MainLoop.GameItem g) :: after).
    split; [exact T|]. split.
    + rewrite MainLoopFacts.dequeued_app. cbn [MainLoop.dequeued].
      rewrite Hd1, Hd2. reflexivity.
    + intro Hin. apply in_app_or in Hin.
      destruct Hin as [Hin | [Heq | Hin]];
        [exact (Ha1 Hin) | discriminate Heq | exact (Ha2 Hin)].
  - intros username message rest H1 H2 H3.
    destruct (@MainLoopFacts.turn_chat
                cfg brain brain_latency generate_speech suspends strip lower
                save_state load_state last s username message rest H1 H2 H3)
      as (_ & _ & C & Fl & before & after & T & F1 & F2 & Hauto).
    fold r in C, T, Fl, Hauto.
    split; [exact C|]. split; [exact Fl|].
    exists before, after. split; [exact T|].
    split; [exact (proj1 (MainLoopFacts.no_marker_facts before F1))|].
    split; [exact (MainLoopFacts.no_dequeue_dequeued after F2)|].
    exact Hauto.
  - intros H1 H2 H3.
    destruct (@MainLoopFacts.turn_empty
                cfg brain brain_latency generate_speech suspends strip lower
                save_state load_state last s H1 H2 H3)
      as (_ & _ & _ & Fl & new & T & F).
    fold r in T, Fl.
    split; [exact Fl|]. exists new. split; [exact T|].
    exact (MainLoopFacts.no_dequeue_dequeued new F).
Qed.

(** C5 at work, on the input where the code parts from the claim: the only
    queued item is a chat message and five seconds have passed.  The decision
    collaborator takes a second to answer the message, and in the same turn,
    with no queue polled again, an autonomous decision is asked for and
    made. *)
Lemma chat_turn_does_not_restart_witness :
  let cfg := MainLoop.mkConfig true false false false in
  let brain := fun r : MainLoop.Request =>
                 match r with
                 | MainLoop.ProcessChatMessage _ _ =>
                     MainLoop.mkDecision "SAY" (Some "oi"%string)
                 | _ => MainLoop.mkDecision "IDLE" None
                 end in
  let s := MainLoop.mkSys [] [] [("viewer", "hello")]%string
             (Gate.mk 0 (1 # 2)) (StateManager.init StateManager.IDLE 0)
             UnityClient.init None false 100 [] [] in
  let r := MainLoop.iteration cfg brain 1 (fun _ => None) (fun _ _ => true)
             (fun m => m) (fun m => m) None None 0 s in
  fst (fst r) = MainLoop.RanToEnd
  /\ MainLoop.trace (snd r)
     = [MainLoop.Dequeued (MainLoop.ChatItem "viewer" "hello");
        MainLoop.BrainCall (MainLoop.ProcessChatMessage "viewer" "hello");
        MainLoop.AutonomousRequest;
        MainLoop.BrainCall MainLoop.MakeDecision]
  /\ exists before after,
       MainLoop.trace (snd r)
       = before
           ++ MainLoop.Dequeued (MainLoop.ChatItem "viewer" "hello") :: after
       /\ In MainLoop.AutonomousRequest after.
Proof.
  intros cfg brain s r.
  assert (Hflow : fst (fst r) = MainLoop.RanToEnd) by reflexivity.
  split; [exact Hflow|]. split; [reflexivity|].
  destruct (@chat_turn_does_not_restart
              cfg brain 1 (fun _ => None) (fun _ _ => true)
              (fun m => m) (fun m => m) None None 0 s)
    as (_ & _ & Hchat & _).
  destruct (Hchat "viewer"%string "hello"%string [] eq_refl eq_refl eq_refl)
    as (_ & _ & before & after & T & _ & _ & Hauto).
  exists before, after. split; [exact T|].
  apply Hauto; [exact Hflow | reflexivity | discriminate | discriminate].
Defined.

(** C9 (as amended).  A chat message that the manual controller does not take
    as a control command, handled while the gate rejects, is dropped: the
    handler returns with the system exactly as it found it, so no call of the
    decision collaborator is made, the state machine does not move, no
    outbound command is queued and the message is not put back; taken off
    the chat queue by the loop, the message leaves nothing behind but its
    place in the queue.  A control command, on the other hand, is answered
    whatever the gate says: the gate is not asked, no call of the decision
    collaborator is made, and the status of the mode now in force is queued
    for the remote consumer. *)
Theorem rejected_chat_message_is_dropped
    (cfg : MainLoop.Config) (brain : MainLoop.Request -> MainLoop.Decision)
    (brain_latency : Q) (generate_speech : string -> option (string * string))
    (suspends : MainLoop.Await -> MainLoop.Sys -> bool)
    (strip lower : string -> string) (save_state load_state : option bool)
    (username message : string) (s : MainLoop.Sys) :
  (MainLoop.manual_controller s = None
   \/ MainLoop.is_control_command strip lower message = false ->
   fst (Gate._can_make_brain_decision (MainLoop.now s) (MainLoop.gate s))
     = false ->
   (let r := MainLoop._process_chat_message
               cfg brain brain_latency generate_speech suspends strip lower
               save_state load_state username message s in
    r = (MainLoop.Returned tt, s)
    /\ MainLoop.brain_calls (MainLoop.trace (snd r))
       = MainLoop.brain_calls (MainLoop.trace s)
    /\ MainLoop.state_manager (snd r) = MainLoop.state_manager s
    /\ MainLoop.outbound (snd r) = MainLoop.outbound s
    /\ MainLoop.chat_queue (snd r) = MainLoop.chat_queue s)
   /\ (forall rest,
         MainLoop.chat_queue s = (username, message) :: rest ->
         let r := MainLoop.serve_chat
                    cfg brain brain_latency generate_speech suspends strip
                    lower save_state load_state s in
         fst r = MainLoop.Returned tt
         /\ MainLoop.chat_queue (snd r) = rest
         /\ MainLoop.dequeued (MainLoop.trace (snd r))
            = MainLoop.dequeued (MainLoop.trace s)
                ++ [MainLoop.ChatItem username message]
         /\ MainLoop.brain_calls (MainLoop.trace (snd r))
            = MainLoop.brain_calls (MainLoop.trace s)
         /\ MainLoop.state_manager (snd r) = MainLoop.state_manager s
         /\ MainLoop.gate (snd r) = MainLoop.gate s
         /\ (MainLoop.tasks s = [] ->
             snd r
             = MainLoop.set_trace
                 (MainLoop.trace s
                    ++ [MainLoop.Dequeued
                          (MainLoop.ChatItem username message)])
                 (MainLoop.set_chat_queue rest s))))
  /\ (forall mode,
        MainLoop.manual_controller s = Some mode ->
        MainLoop.is_control_command strip lower message = true ->
        AsyncQueue.maxsize
          (UnityClient._send_queue (MainLoop.unity_client s)) = 0%Z ->
        let r := MainLoop._process_chat_message
                   cfg brain brain_latency generate_speech suspends strip
                   lower save_state load_state username message s in
        fst r = MainLoop.Returned tt
        /\ MainLoop.gate (snd r) = MainLoop.gate s
        /\ MainLoop.state_manager (snd r) = MainLoop.state_manager s
        /\ MainLoop.brain_calls (MainLoop.trace (snd r))
           = MainLoop.brain_calls (MainLoop.trace s)
        /\ exists mode' later,
             MainLoop.manual_controller (snd r) = Some mode'
             /\ MainLoop.outbound (snd r)
                = MainLoop.outbound s
                    ++ UnityClient.mkMessage UnityClient.SAY
                         (Some (MainLoop.status_text mode'))
                         (MainLoop.now s) None None None
                       :: later).
Proof.
  split.
  - intros Hgate Hrej. split.
    + intro r. subst r.
      rewrite (@MainLoopFacts.chat_rejected
                 cfg brain brain_latency generate_speech suspends strip lower
                 save_state load_state username message s Hgate Hrej).
      repeat split.
    + intros rest Hq r. subst r.
      rewrite (@MainLoopFacts.serve_chat_head
                 cfg brain brain_latency generate_speech suspends strip lower
                 save_state load_state s username message rest Hq).
      rewrite MainLoopFacts.bind_run. cbn [MainLoop.emit MainLoop.modify].
      destruct (MainLoopFacts.resume_undisturbed
                  (suspends MainLoop.AwaitGet s) s)
        as (_ & _ & _ & Hg & Hsm & Hmc & _ & Hn & new & T & F).
      set (s1 := MainLoop.resume (suspends MainLoop.AwaitGet s) s) in *.
      set (s2 := MainLoop.set_trace _ (MainLoop.set_chat_queue rest s1)).
      rewrite (@MainLoopFacts.chat_rejected
                 cfg brain brain_latency generate_speech suspends strip lower
                 save_state load_state username message s2).
      * unfold s2.
        cbn [fst snd MainLoop.chat_queue MainLoop.trace MainLoop.gate
             MainLoop.state_manager MainLoop.set_trace
             MainLoop.set_chat_queue].
        split; [reflexivity|]. split; [reflexivity|].
        split.
        { rewrite T, !MainLoopFacts.dequeued_app.
          assert (Hd : MainLoop.dequeued new = []).
          { apply MainLoopFacts.no_dequeue_dequeued.
            rewrite forallb_forall in *. intros e He. specialize (F e He).
            destruct e; try discriminate F. reflexivity. }
          rewrite Hd, app_nil_r. reflexivity. }
        split.
        { rewrite T, !MainLoopFacts.brain_calls_app,
            (MainLoopFacts.chat_sends_no_call new F). cbn.
          rewrite !app_nil_r. reflexivity. }
        split; [exact Hsm|]. split; [exact Hg|].
        intro Hidle.
        assert (E1 : s1 = s)
          by (apply MainLoopFacts.resume_idle; exact Hidle).
        rewrite E1. reflexivity.
      * unfold s2. cbn [MainLoop.manual_controller MainLoop.set_trace
                        MainLoop.set_chat_queue].
        rewrite Hmc. exact Hgate.
      * unfold s2. cbn [MainLoop.now MainLoop.gate MainLoop.set_trace
                        MainLoop.set_chat_queue].
        rewrite Hn, Hg. exact Hrej.
  - intros mode Hmc Hcmd Hq.
    exact (@MainLoopFacts.command_answered
             cfg brain brain_latency generate_speech suspends strip lower
             save_state load_state username message s mode Hmc Hcmd Hq).
Qed.

(** The amended C9 at work: a tenth of a second after a decision, at two
    decisions per second, the chat message ["hello"], which [str.strip] and
    [str.lower] leave as it is, is taken off the queue and dropped. *)
Lemma rejected_chat_message_is_dropped_witness :
  let cfg := MainLoop.mkConfig true false false false in
  let brain := fun _ : MainLoop.Request =>
                 MainLoop.mkDecision "SAY" (Some "oi"%string) in
  let s := MainLoop.mkSys [] [] [("viewer", "hello")]%string
             (Gate.mk 10 (1 # 2)) (StateManager.init StateManager.IDLE 0)
             UnityClient.init (Some MainLoop.AI) true (101 # 10) [] [] in
  let s' := snd (MainLoop.serve_chat cfg brain 1 (fun _ => None)
                   (fun _ _ => true) (fun m => m) (fun m => m) None None
                   s) in
  MainLoop.chat_queue s' = []
  /\ MainLoop.brain_calls (MainLoop.trace s') = []
  /\ MainLoop.outbound s' = []
  /\ MainLoop.state_manager s' = MainLoop.state_manager s.
Proof.
  intros cfg brain s s'.
  destruct (@rejected_chat_message_is_dropped
              cfg brain 1 (fun _ => None) (fun _ _ => true)
              (fun m => m) (fun m => m) None None "viewer" "hello" s)
    as [Hdrop _].
  destruct (Hdrop (or_intror eq_refl) eq_refl) as [_ Hloop].
  destruct (Hloop [] eq_refl) as (_ & Hc & _ & Hb & Hsm & _ & Hs).
  fold s' in Hc, Hb, Hsm, Hs.
  split; [exact Hc|]. split; [exact Hb|].
  split; [rewrite (Hs eq_refl); reflexivity | exact Hsm].
Defined.

(** C9 as stated fails for control commands: with a manual controller
    present, the message ["!manual"], which [str.strip] and [str.lower]
    leave as it is, handled while the gate rejects is not dropped.  The gate
    is never asked; the mode changes and a status command is queued for the
    remote consumer; by the end of the turn the task the mode change created
    has queued a second command. *)
Lemma control_command_answered_counterexample :
  let cfg := MainLoop.mkConfig true false false false in
  let brain := fun _ : MainLoop.Request => MainLoop.mkDecision "IDLE" None in
  let s := MainLoop.mkSys [] [] [] (Gate.mk 10 (1 # 2))
             (StateManager.init StateManager.IDLE 0)
             UnityClient.init (Some MainLoop.AI) true (101 # 10) [] [] in
  let r := MainLoop._process_chat_message cfg brain 1 (fun _ => None)
             (fun _ _ => true) (fun m => m) (fun m => m) None None
             "viewer" "!manual" s in
  let turn := MainLoop.iteration cfg brain 1 (fun _ => None)
                (fun _ _ => true) (fun m => m) (fun m => m) None None
                (101 # 10)
                (MainLoop.set_chat_queue [("viewer", "!manual")]%string s) in
  fst (Gate._can_make_brain_decision (MainLoop.now s) (MainLoop.gate s))
    = false
  /\ MainLoop.outbound s = []
  /\ map UnityClient.cmd (MainLoop.outbound (snd r)) = [UnityClient.SAY]
  /\ MainLoop.manual_controller (snd r) = Some MainLoop.MANUAL
  /\ MainLoop.gate (snd r) = MainLoop.gate s
  /\ map UnityClient.value (MainLoop.outbound (snd turn))
     = [Some (MainLoop.status_text MainLoop.MANUAL);
        Some (MainLoop.mode_message MainLoop.MANUAL)].
Proof. repeat split. Qed.
(** * Further properties of the code *)

(** ** The activity state machine: history and accessors *)

Module StateManagerMore.

Import StateManager.

Lemma last_state_snoc (prev : State) (h : list Entry) (e : Entry) :
  last_state prev (h ++ [e]) = entry_state e.
Proof.
  unfold last_state. rewrite map_app. cbn [map]. apply last_last.
Qed.

Lemma last_cons {A : Type} (l : list A) :
  forall a d, last (a :: l) d = last l a.
Proof.
  induction l as [|b l IH]; intros a d; [reflexivity|].
  change (last (a :: b :: l) d) with (last (b :: l) d).
  rewrite (IH b d), (IH b a). reflexivity.
Qed.

Lemma no_stutter_snoc (h : list Entry) :
  forall prev e,
    no_stutter prev h ->
    entry_state e <> last_state prev h ->
    no_stutter prev (h ++ [e]).
Proof.
  induction h as [|x h IH]; intros prev e Hh He.
  - split; [exact He | exact I].
  - destruct Hh as [Hx Hrest]. split; [exact Hx|].
    apply IH; [exact Hrest|].
    unfold last_state in *. cbn [map] in He.
    rewrite last_cons in He. exact He.
Qed.

Lemma transition_on_path (initial new_state : State) (reason : option string)
    (clk : Readings) (sm : t) :
  on_path initial sm ->
  on_path initial (fst (transition_to new_state reason clk sm)).
Proof.
  intros [Hs Hc]. unfold transition_to.
  destruct (State_eqb new_state (current_state sm)) eqn:E; cbn [fst].
  - split; assumption.
  - split; cbn [state_history current_state].
    + apply no_stutter_snoc; [exact Hs|].
      cbn. rewrite <- Hc. intro Heq. subst new_state.
      destruct (current_state sm); discriminate E.
    + rewrite last_state_snoc. reflexivity.
Qed.

Lemma run_on_path (initial : State) (reqs : list Request) :
  forall sm, on_path initial sm -> on_path initial (fst (run reqs sm)).
Proof.
  induction reqs as [|r rest IH]; intros sm H; cbn [run]; [exact H|].
  pose proof (transition_on_path (target r) (why r) (clock r) H) as H1.
  destruct (transition_to (target r) (why r) (clock r) sm) as [sm1 line].
  cbn [fst] in H1. specialize (IH sm1 H1).
  destruct (run rest sm1) as [sm2 lines]. exact IH.
Qed.

Lemma sorted_snoc (l : list Q) (x : Q) :
  StronglySorted Qle l -> Forall (fun a => a <= x) l ->
  StronglySorted Qle (l ++ [x]).
Proof.
  induction l as [|a l IH]; intros Hs Hf; cbn.
  - constructor; constructor.
  - inversion Hs as [|? ? Hs' Ha]; subst.
    inversion Hf as [|? ? Hax Hf']; subst.
    constructor; [apply IH; assumption|].
    apply Forall_app. split; [exact Ha | constructor; [exact Hax | constructor]].
Qed.

Lemma run_timed (reqs : list Request) :
  forall sm prev,
    timed prev sm -> clock_monotone prev reqs ->
    StronglySorted Qle (map entry_time (state_history (fst (run reqs sm)))).
Proof.
  induction reqs as [|r rest IH]; intros sm prev (Hs & Hf & Hst) Hm;
    cbn [run]; [exact Hs|].
  destruct Hm as (H1 & H2 & H3 & Hrest).
  assert (Hnext : timed (at_record (clock r))
                    (fst (transition_to (target r) (why r) (clock r) sm))).
  { unfold timed, transition_to.
    destruct (State_eqb (target r) (current_state sm)); cbn [fst].
    - split; [exact Hs|]. split; [|lra].
      eapply Forall_impl; [|exact Hf]. cbn. intros a Ha. lra.
    - cbn [state_history state_start_time]. rewrite map_app. cbn [map].
      change (entry_time (at_record (clock r), target r, why r))
        with (at_record (clock r)).
      split; [|split; [|lra]].
      + apply sorted_snoc; [exact Hs|].
        eapply Forall_impl; [|exact Hf]. cbn. intros a Ha. lra.
      + apply Forall_app. split.
        * eapply Forall_impl; [|exact Hf]. cbn. intros a Ha. lra.
        * constructor; [lra | constructor]. }
  destruct (transition_to (target r) (why r) (clock r) sm) as [sm1 line].
  cbn [fst] in Hnext. specialize (IH sm1 _ Hnext Hrest).
  destruct (run rest sm1) as [sm2 lines]. exact IH.
Qed.

Lemma skipn_min {A : Type} (k : nat) (l : list A) :
  skipn (Nat.min k (List.length l)) l = skipn k l.
Proof.
  destruct (Nat.le_ge_cases k (List.length l)) as [H | H].
  - rewrite Nat.min_l by exact H. reflexivity.
  - rewrite Nat.min_r by exact H.
    rewrite skipn_all. symmetry. apply skipn_all2. exact H.
Qed.

End StateManagerMore.

(** X1.  From its construction on, whatever requests arrive, the history of
    the state machine is the path it took: no record names the state of the
    record before it (the first does not name the initial state), and the
    current state is the state of the last record, or the initial state while
    the history is empty. *)
Theorem history_is_the_path_taken (initial : StateManager.State) (t0 : Q)
    (reqs : list StateManager.Request) :
  let sm := fst (StateManager.run reqs (StateManager.init initial t0)) in
  StateManager.no_stutter initial (StateManager.state_history sm)
  /\ StateManager.current_state sm
     = StateManager.last_state initial (StateManager.state_history sm).
Proof.
  apply (StateManagerMore.run_on_path reqs (sm := StateManager.init initial t0)).
  split; [exact I | reflexivity].
Qed.

(** X2.  When the wall clock does not run backwards over a sequence of
    requests, the timestamps of the history records are in non-decreasing
    order. *)
Theorem history_timestamps_are_sorted (initial : StateManager.State) (t0 : Q)
    (reqs : list StateManager.Request) :
  StateManager.clock_monotone t0 reqs ->
  StronglySorted Qle
    (map StateManager.entry_time
       (StateManager.state_history
          (fst (StateManager.run reqs (StateManager.init initial t0))))).
Proof.
  intro H.
  apply (StateManagerMore.run_timed reqs
           (sm := StateManager.init initial t0) (prev := t0)); [|exact H].
  split; [constructor|]. split; [constructor | cbn; lra].
Qed.

(** X2 at work on three requests made at times 1, 2 and 3. *)
Lemma history_timestamps_are_sorted_witness :
  let reqs :=
    [StateManager.mkRequest StateManager.THINKING None
       (StateManager.mkReadings 1 1 1);
     StateManager.mkRequest StateManager.TALKING None
       (StateManager.mkReadings 2 2 2);
     StateManager.mkRequest StateManager.IDLE None
       (StateManager.mkReadings 3 3 3)] in
  StateManager.clock_monotone 0 reqs
  /\ StronglySorted Qle
       (map StateManager.entry_time
          (StateManager.state_history
             (fst (StateManager.run reqs
                     (StateManager.init StateManager.IDLE 0))))).
Proof.
  intro reqs.
  assert (Hm : StateManager.clock_monotone 0 reqs).
  { cbn. repeat split; discriminate. }
  split; [exact Hm|].
  exact (@history_timestamps_are_sorted StateManager.IDLE 0 reqs Hm).
Defined.

(** X3.  The pair of calls every handler makes around a decision,
    [set_thinking()] then [update_state_from_decision(type)]: after the first
    the machine is in THINKING; for the types GOAL, SAY and IDLE the second
    leaves it in PLAYING, TALKING and IDLE, and the pair adds two records to
    the history, or one when the machine was already in THINKING; for any
    other type the second call does nothing and the machine stays in
    THINKING. *)
Theorem decision_cycle_records (decision_type : string)
    (c1 c2 : StateManager.Readings) (sm : StateManager.t) :
  let sm1 := fst (StateManager.set_thinking c1 sm) in
  let sm2 :=
    fst (StateManager.update_state_from_decision decision_type c2 sm1) in
  StateManager.current_state sm1 = StateManager.THINKING
  /\ match StateManager.decision_state decision_type with
     | Some target =>
         StateManager.current_state sm2 = target
         /\ List.length (StateManager.state_history sm2)
            = (List.length (StateManager.state_history sm)
               + (if StateManager.State_eqb (StateManager.current_state sm)
                                            StateManager.THINKING
                  then 1 else 2))%nat
     | None => sm2 = sm1
     end.
Proof.
  cbv zeta.
  unfold StateManager.set_thinking, StateManager.update_state_from_decision,
    StateManager.decision_state, StateManager.can_transition_to,
    StateManager.transition_to.
  destruct sm as [cur hist start]. cbn [StateManager.current_state].
  destruct cur; cbn; (split; [reflexivity|]);
    destruct (String.eqb decision_type "GOAL");
    try destruct (String.eqb decision_type "SAY");
    try destruct (String.eqb decision_type "IDLE");
    cbn; rewrite ?length_app; cbn; try (split; [reflexivity | lia]);
    try reflexivity.
Qed.

(** X4.  [get_recent_history(count)] with a positive count returns the last
    [min(count, len)] records; with a count of zero it returns the whole
    history, not an empty list; with a negative count it drops the oldest
    [-count] records. *)
Theorem recent_history_is_a_suffix (count : Z) (sm : StateManager.t) :
  ((0 < count)%Z ->
   List.length (StateManager.get_recent_history count sm)
   = Nat.min (Z.to_nat count) (List.length (StateManager.state_history sm))
   /\ exists older,
        StateManager.state_history sm
        = older ++ StateManager.get_recent_history count sm)
  /\ (count = 0%Z ->
      StateManager.get_recent_history count sm = StateManager.state_history sm)
  /\ ((count < 0)%Z ->
      StateManager.get_recent_history count sm
      = skipn (Z.to_nat (- count)) (StateManager.state_history sm)).
Proof.
  unfold StateManager.get_recent_history, Py.slice_from, Py.clamp.
  set (h := StateManager.state_history sm).
  split; [|split].
  - intro Hpos.
    destruct (count <? Z.of_nat (List.length h))%Z eqn:E.
    + apply Z.ltb_lt in E.
      destruct (- count <? 0)%Z eqn:N; [|apply Z.ltb_ge in N; lia].
      split.
      * rewrite length_skipn. lia.
      * exists (firstn (Z.to_nat (Z.max 0 (Z.of_nat (List.length h) + - count)))
                       h).
        symmetry. apply firstn_skipn.
    + apply Z.ltb_ge in E. split; [lia|]. exists []. reflexivity.
  - intros ->. destruct (0 <? Z.of_nat (List.length h))%Z; [|reflexivity].
    change (- 0)%Z with 0%Z. change (0 <? 0)%Z with false. cbv iota.
    rewrite Z.min_l by lia. reflexivity.
  - intro Hneg.
    destruct (count <? Z.of_nat (List.length h))%Z eqn:E;
      [|apply Z.ltb_ge in E; lia].
    destruct (- count <? 0)%Z eqn:N; [apply Z.ltb_lt in N; lia|].
    rewrite Z2Nat.inj_min, Nat2Z.id.
    apply StateManagerMore.skipn_min.
Qed.

(** ** The actuation channel: delivery order, outages and reconnects *)

Module UnityClientMore.

Import UnityClient.

Lemma run_snoc (steps : list Step) (s : Step) (c : t) :
  run (steps ++ [s]) c = step s (run steps c).
Proof. unfold run. rewrite fold_left_app. reflexivity. Qed.

Lemma run_cons (s : Step) (steps : list Step) (c : t) :
  run (s :: steps) c = run steps (step s c).
Proof. reflexivity. Qed.

(** A delivered turn on a channel that is up. *)
Lemma deliver_turn (c : t) (m : Message) (rest : list Message) :
  is_connected c && writer c = true ->
  pending c = m :: rest ->
  step (Turn Delivered) c
  = mk (is_connected c) (writer c) (should_reconnect c)
       (AsyncQueue.mk (AsyncQueue.maxsize (_send_queue c)) rest)
       (wire c ++ [m]) (attempts c ++ [m]) (reconnects c).
Proof.
  intros Hc Hp. cbn [step].
  assert (Hcond : should_reconnect c || is_connected c = true).
  { apply andb_prop in Hc. destruct Hc as [Hi _].
    rewrite Hi. apply orb_true_r. }
  rewrite Hcond.
  apply UnityClientFacts.pending_iteration_delivered; assumption.
Qed.

Lemma deliver_all (ms : list Message) :
  forall c,
    is_connected c && writer c = true ->
    pending c = ms ->
    let c' := run (repeat (Turn Delivered) (List.length ms)) c in
    wire c' = wire c ++ ms
    /\ attempts c' = attempts c ++ ms
    /\ pending c' = []
    /\ is_connected c' && writer c' = true.
Proof.
  induction ms as [|m rest IH]; intros c Hc Hp; cbn [List.length repeat].
  - cbn. rewrite !app_nil_r. repeat split; assumption.
  - rewrite run_cons, (deliver_turn c Hc Hp).
    match goal with
    | |- context [run _ ?c1] =>
        destruct (IH c1) as (Hw & Ha & Hq & Hk); [exact Hc | reflexivity|]
    end.
    cbn [wire attempts] in Hw, Ha.
    cbv zeta. rewrite Hw, Ha, Hq, Hk, <- !app_assoc. repeat split.
Qed.

Lemma skipn_succ {A : Type} (j : nat) :
  forall (l : list A) x rest,
    skipn j l = x :: rest ->
    skipn (S j) l = rest /\ firstn (S j) l = firstn j l ++ [x].
Proof.
  induction j as [|j IH]; intros l x rest H.
  - cbn in H. subst l. split; reflexivity.
  - destruct l as [|a l]; [discriminate H|].
    cbn [skipn] in H. destruct (IH l x rest H) as [Hs Hf].
    split; [exact Hs|].
    change (firstn (S (S j)) (a :: l)) with (a :: firstn (S j) l).
    rewrite Hf. reflexivity.
Qed.

(** Moving the head of a turned list to its end turns it one place more. *)
Lemma rotate_once {A : Type} (j : nat) (l : list A) (x : A) (rest : list A) :
  (j <= List.length l)%nat ->
  rotate j l = x :: rest ->
  exists j', (j' <= List.length l)%nat /\ rest ++ [x] = rotate j' l.
Proof.
  intros Hj H. unfold rotate in *.
  destruct (skipn j l) as [|y tail] eqn:E.
  - (* [j] is the whole length: the list is back where it started *)
    cbn in H.
    assert (Hlen : (List.length l <= j)%nat).
    { pose proof (length_skipn j l) as L. rewrite E in L. cbn in L. lia. }
    rewrite firstn_all2 in H by exact Hlen. subst l.
    exists 1%nat. split; [cbn; lia | reflexivity].
  - cbn in H. injection H as <- <-.
    destruct (@skipn_succ _ j l y tail E) as [Hs Hf].
    exists (S j). split.
    + pose proof (length_skipn j l) as L. rewrite E in L. cbn in L. lia.
    + rewrite Hs, Hf, app_assoc. reflexivity.
Qed.

(** A turn on a channel that is down changes nothing but the order of the
    queue. *)
Lemma down_turn (o : Outcome) (c : t) :
  is_connected c && writer c = false ->
  let c1 := step (Turn o) c in
  is_connected c1 = is_connected c
  /\ writer c1 = writer c
  /\ wire c1 = wire c
  /\ attempts c1 = attempts c
  /\ (pending c1 = pending c
      \/ exists x rest, pending c = x :: rest /\ pending c1 = rest ++ [x]).
Proof.
  intros Hc. cbn [step].
  destruct (should_reconnect c || is_connected c);
    [|repeat split; left; reflexivity].
  destruct (pending c) as [|x rest] eqn:Hp.
  - rewrite (UnityClientFacts.iteration_empty o c Hp).
    repeat split. left. congruence.
  - rewrite (UnityClientFacts.pending_iteration_disconnected o c Hp Hc).
    repeat split. right. exists x, rest. split; reflexivity.
Qed.

Lemma down_turns (os : list Outcome) (c : t) :
  is_connected c && writer c = false ->
  let c' := run (map Turn os) c in
  is_connected c' = is_connected c
  /\ writer c' = writer c
  /\ wire c' = wire c
  /\ attempts c' = attempts c
  /\ exists j,
       (j <= List.length (pending c))%nat
       /\ pending c' = rotate j (pending c).
Proof.
  intro Hc. induction os as [|o os IH] using rev_ind.
  - cbn. repeat split. exists 0%nat. split; [lia|].
    unfold rotate. cbn. rewrite app_nil_r. reflexivity.
  - rewrite map_app. cbn [map]. rewrite run_snoc.
    destruct IH as (Hi & Hw & Hwire & Ha & j & Hj & Hp).
    set (c0 := run (map Turn os) c) in *.
    assert (Hc0 : is_connected c0 && writer c0 = false)
      by (rewrite Hi, Hw; exact Hc).
    destruct (down_turn o c0 Hc0) as (Hi1 & Hw1 & Hwire1 & Ha1 & Hq).
    cbv zeta.
    rewrite Hi1, Hw1, Hwire1, Ha1, Hi, Hw, Hwire, Ha. repeat split.
    destruct Hq as [Hsame | (x & rest & Hx & Hnew)].
    + exists j. rewrite Hsame. split; assumption.
    + rewrite Hp in Hx.
      destruct (@rotate_once _ j (pending c) x rest Hj Hx) as (j' & Hj' & Hrot).
      exists j'. rewrite Hnew. split; assumption.
Qed.

(** One step keeps every command: what was attempted or pending still is,
    and what reaches the wire was pending. *)
Lemma step_keeps (s : Step) (c : t) :
  Permutation (attempts (step s c) ++ pending (step s c))
              (attempts c ++ pending c)
  /\ incl (pending (step s c)) (pending c)
  /\ exists w, wire (step s c) = wire c ++ w /\ incl w (pending c).
Proof.
  assert (Hsame : Permutation (attempts c ++ pending c) (attempts c ++ pending c)
                  /\ incl (pending c) (pending c)
                  /\ exists w, wire c = wire c ++ w /\ incl w (pending c)).
  { split; [reflexivity|]. split; [apply incl_refl|].
    exists []. rewrite app_nil_r. split; [reflexivity | intros x []]. }
  destruct s as [o | opened]; cbn [step].
  - destruct (should_reconnect c || is_connected c); [|exact Hsame].
    destruct (pending c) as [|x rest] eqn:Hp.
    + rewrite (UnityClientFacts.iteration_empty o c Hp).
      rewrite ?Hp. exact Hsame.
    + destruct (is_connected c && writer c) eqn:Hc.
      * destruct o.
        -- rewrite (UnityClientFacts.pending_iteration_delivered c Hp Hc).
           unfold pending. cbn. rewrite <- app_assoc. cbn.
           split; [reflexivity|].
           split; [intros y Hy; right; exact Hy|].
           exists [x]. split; [reflexivity|].
           intros y [<- | []]. left. reflexivity.
        -- rewrite (UnityClientFacts.pending_iteration_raised c Hp Hc).
           unfold pending. cbn. rewrite <- app_assoc. cbn.
           split; [reflexivity|].
           split; [intros y Hy; right; exact Hy|].
           exists []. rewrite app_nil_r. split; [reflexivity | intros y []].
      * rewrite (UnityClientFacts.pending_iteration_disconnected o c Hp Hc).
        unfold pending. cbn.
        split.
        -- apply Permutation_app_head.
           change (x :: rest) with ([x] ++ rest). apply Permutation_app_comm.
        -- split.
           ++ intros y Hy. apply in_app_or in Hy.
              destruct Hy as [Hy | [<- | []]]; [right; exact Hy | left; auto].
           ++ exists []. rewrite app_nil_r. split; [reflexivity | intros y []].
  - destruct (should_reconnect c && negb (is_connected c)); [|exact Hsame].
    unfold connect. destruct (is_connected c); [exact Hsame|].
    destruct opened; exact Hsame.
Qed.

Lemma run_keeps (steps : list Step) :
  forall c,
    Permutation (attempts (run steps c) ++ pending (run steps c))
                (attempts c ++ pending c)
    /\ incl (pending (run steps c)) (pending c)
    /\ exists w, wire (run steps c) = wire c ++ w /\ incl w (pending c).
Proof.
  induction steps as [|s rest IH]; intro c.
  - cbn. split; [reflexivity|]. split; [apply incl_refl|].
    exists []. rewrite app_nil_r. split; [reflexivity | intros x []].
  - rewrite run_cons.
    destruct (step_keeps s c) as (P1 & I1 & w1 & W1 & J1).
    destruct (IH (step s c)) as (P2 & I2 & w2 & W2 & J2).
    split; [etransitivity; eassumption|].
    split; [intros x Hx; apply I1, I2, Hx|].
    exists (w1 ++ w2). rewrite W2, W1, app_assoc.
    split; [reflexivity|].
    intros x Hx. apply in_app_or in Hx.
    destruct Hx as [Hx | Hx]; [apply J1, Hx | apply I1, J2, Hx].
Qed.


(** One followed step keeps the reconnect tasks tidy. *)
Lemma step_tasks_tidy (s : Step) (st st1 : t * nat) :
  tidy st -> step_tasks s st = Some st1 -> tidy st1.
Proof.
  destruct st as [c n]. unfold tidy, step_tasks. cbn [fst snd].
  intros [Hle Hup] H.
  destruct s as [o | opened]; cbn [step] in H.
  - injection H as <-. cbn [fst snd].
    destruct (should_reconnect c || is_connected c);
      [|rewrite Nat.sub_diag, Nat.add_0_r; split; assumption].
    destruct (pending c) as [|x rest] eqn:Hp.
    + rewrite (UnityClientFacts.iteration_empty o c Hp).
      rewrite Nat.sub_diag, Nat.add_0_r. split; assumption.
    + destruct (is_connected c && writer c) eqn:Hc.
      * apply andb_prop in Hc as Hc'. destruct Hc' as [Hi _].
        rewrite (Hup Hi).
        destruct o.
        -- rewrite (UnityClientFacts.pending_iteration_delivered c Hp Hc).
           cbn [reconnects is_connected]. rewrite Nat.sub_diag.
           split; [lia | reflexivity].
        -- rewrite (UnityClientFacts.pending_iteration_raised c Hp Hc).
           cbn [reconnects is_connected].
           destruct (should_reconnect c); split; try lia; discriminate.
      * rewrite (UnityClientFacts.pending_iteration_disconnected o c Hp Hc).
        cbn [reconnects is_connected].
        rewrite Nat.sub_diag, Nat.add_0_r. split; assumption.
  - destruct n as [|n]; [discriminate H|]. injection H as <-.
    cbn [fst snd]. assert (n = 0%nat) as -> by lia.
    destruct (is_connected c) eqn:Hi; [specialize (Hup eq_refl); lia|].
    unfold connect. rewrite Hi.
    destruct (should_reconnect c) eqn:Hs; cbn [andb negb].
    + destruct opened; cbn [reconnects is_connected]; rewrite ?Hs.
      * rewrite Nat.sub_diag. split; [lia | reflexivity].
      * split; [lia | discriminate].
    + rewrite Nat.sub_diag. split; [lia | rewrite Hi; discriminate].
Qed.

Lemma run_tasks_tidy (steps : list Step) :
  forall st st', tidy st -> run_tasks steps st = Some st' -> tidy st'.
Proof.
  induction steps as [|s rest IH]; intros st st' Ht H; cbn [run_tasks] in H.
  - injection H as <-. exact Ht.
  - destruct (step_tasks s st) as [st1|] eqn:E; [|discriminate H].
    apply (IH st1 st'); [|exact H].
    eapply step_tasks_tidy; eassumption.
Qed.

End UnityClientMore.

(** X5.  On a channel that is up, as many delivered turns of the sender as
    there are pending commands put them all on the wire in the order they
    were queued, leave the queue empty and the channel up. *)
Theorem connected_channel_delivers_in_order (c : UnityClient.t) :
  UnityClient.is_connected c && UnityClient.writer c = true ->
  let c' :=
    UnityClient.run
      (repeat (UnityClient.Turn UnityClient.Delivered)
              (List.length (UnityClient.pending c))) c in
  UnityClient.wire c' = UnityClient.wire c ++ UnityClient.pending c
  /\ UnityClient.attempts c'
     = UnityClient.attempts c ++ UnityClient.pending c
  /\ UnityClient.pending c' = []
  /\ UnityClient.is_connected c' && UnityClient.writer c' = true.
Proof.
  intro Hc.
  apply (@UnityClientMore.deliver_all (UnityClient.pending c) c Hc eq_refl).
Qed.

(** X5 at work: two commands queued, then the connection, then two turns. *)
Lemma connected_channel_delivers_in_order_witness :
  let m1 := UnityClient.mkMessage UnityClient.ACTION (Some "JUMP"%string) 1
              None None None in
  let m2 := UnityClient.mkMessage UnityClient.SAY (Some "oi"%string) 2
              None None None in
  let c := UnityClient.connect true
             (UnityClient.enqueue_all [m1; m2] UnityClient.init) in
  UnityClient.wire
    (UnityClient.run
       (repeat (UnityClient.Turn UnityClient.Delivered)
               (List.length (UnityClient.pending c))) c)
  = [m1; m2].
Proof.
  intros m1 m2 c.
  destruct (@connected_channel_delivers_in_order c eq_refl) as (Hw & _).
  exact Hw.
Defined.

(** X6.  While the channel is down, turns of the sender transmit nothing and
    only turn the queue: after any number of them the pending commands are
    the original ones moved round by some number of places, so the order in
    which they are delivered after a reconnect can start anywhere in the
    original order. *)
Theorem outage_only_rotates_the_queue (c : UnityClient.t)
    (os : list UnityClient.Outcome) :
  UnityClient.is_connected c && UnityClient.writer c = false ->
  let c' := UnityClient.run (map UnityClient.Turn os) c in
  UnityClient.wire c' = UnityClient.wire c
  /\ UnityClient.attempts c' = UnityClient.attempts c
  /\ exists j,
       (j <= List.length (UnityClient.pending c))%nat
       /\ UnityClient.pending c'
          = UnityClient.rotate j (UnityClient.pending c).
Proof.
  intro Hc.
  destruct (@UnityClientMore.down_turns os c Hc) as (_ & _ & Hw & Ha & Hj).
  split; [exact Hw|]. split; [exact Ha | exact Hj].
Qed.

(** X6 at work: three commands queued while down; after two turns the queue
    starts with the third. *)
Lemma outage_only_rotates_the_queue_witness :
  let m1 := UnityClient.mkMessage UnityClient.ACTION (Some "JUMP"%string) 1
              None None None in
  let m2 := UnityClient.mkMessage UnityClient.ACTION (Some "ATTACK"%string) 2
              None None None in
  let m3 := UnityClient.mkMessage UnityClient.PING None 3 None None None in
  let c := UnityClient.enqueue_all [m1; m2; m3] UnityClient.init in
  let c' := UnityClient.run
              (map UnityClient.Turn
                   [UnityClient.Delivered; UnityClient.Delivered]) c in
  UnityClient.pending c' = [m3; m1; m2]
  /\ UnityClient.wire c' = []
  /\ exists j, UnityClient.pending c'
               = UnityClient.rotate j (UnityClient.pending c).
Proof.
  intros m1 m2 m3 c c'.
  destruct (@outage_only_rotates_the_queue c
              [UnityClient.Delivered; UnityClient.Delivered] eq_refl)
    as (Hw & _ & j & _ & Hj).
  split; [reflexivity|]. split; [exact Hw|]. exists j. exact Hj.
Defined.

(** X7.  Over any turns of the sender and any reconnects, with whatever
    outcomes, no command is duplicated or invented: the commands attempted or
    still pending are, up to order, the ones attempted or pending at the
    start, and whatever reaches the wire was pending at the start. *)
Theorem sender_keeps_every_command (steps : list UnityClient.Step)
    (c : UnityClient.t) :
  let c' := UnityClient.run steps c in
  Permutation (UnityClient.attempts c' ++ UnityClient.pending c')
              (UnityClient.attempts c ++ UnityClient.pending c)
  /\ exists sent,
       UnityClient.wire c' = UnityClient.wire c ++ sent
       /\ incl sent (UnityClient.pending c).
Proof.
  destruct (@UnityClientMore.run_keeps steps c) as (P & _ & W).
  split; [exact P | exact W].
Qed.

(** X8.  Reconnect tasks do not stack.  Starting with at most one task
    waiting, and none while the channel is up, every schedule of sender turns
    and task runs leaves at most one reconnect task waiting, and none while
    the channel is up. *)
Theorem reconnects_do_not_stack (steps : list UnityClient.Step)
    (c c' : UnityClient.t) (tasks tasks' : nat) :
  UnityClient.tidy (c, tasks) ->
  UnityClient.run_tasks steps (c, tasks) = Some (c', tasks') ->
  (tasks' <= 1)%nat
  /\ (UnityClient.is_connected c' = true -> tasks' = 0%nat).
Proof.
  intros Ht Hrun.
  exact (@UnityClientMore.run_tasks_tidy steps (c, tasks) (c', tasks')
           Ht Hrun).
Qed.

(** X8 at work: the first connection fails and leaves one task; the task
    reconnects; a transmission raises and leaves one task again; that task
    fails to connect and is replaced by one. *)
Lemma reconnects_do_not_stack_witness :
  let m := UnityClient.mkMessage UnityClient.PING None 1 None None None in
  let c := UnityClient.connect false
             (UnityClient.enqueue_all [m; m] UnityClient.init) in
  let steps := [UnityClient.Reconnect true;
                UnityClient.Turn UnityClient.Raised;
                UnityClient.Turn UnityClient.Delivered;
                UnityClient.Reconnect false] in
  UnityClient.tidy (c, 1%nat)
  /\ exists c', UnityClient.run_tasks steps (c, 1%nat) = Some (c', 1%nat)
                /\ UnityClient.is_connected c' = false.
Proof.
  intros m c steps.
  assert (Ht : UnityClient.tidy (c, 1%nat)).
  { split; [cbn; lia | cbn; discriminate]. }
  split; [exact Ht|].
  destruct (UnityClient.run_tasks steps (c, 1%nat)) as [[c' n]|] eqn:E;
    [|discriminate E].
  pose proof (@reconnects_do_not_stack steps c c' 1 n Ht E) as [Hle _].
  exists c'. vm_compute in E. injection E as <- <-.
  split; reflexivity.
Defined.


(** ** The action executor: cooldown and the rate cap under it *)

Module ExecutorMore.

Import Executor.

Lemma min_interval_nonneg (cfg : Config) : 0 <= min_interval cfg.
Proof.
  unfold min_interval.
  destruct (Qgt_bool (max_actions_per_sec cfg) 0) eqn:E; [|lra].
  apply Qgt_bool_true in E.
  unfold Qdiv. rewrite Qmult_1_l. apply Qlt_le_weak, Qinv_lt_0_compat, E.
Qed.

(** What one action does to the hand-over times and to the clock. *)
Lemma execute_one_times (cfg : Config) (w : World) (ex : t) (action : string) :
  AsyncQueue.maxsize (UnityClient._send_queue (unity_client w)) = 0%Z ->
  0 <= send_latency w ->
  let w' := fst (execute_one cfg (w, ex) action) in
  exists at_time,
    sent_times w' = sent_times w ++ [at_time]
    /\ clock w <= at_time
    /\ at_time <= clock w'
    /\ at_time + action_cooldown cfg <= clock w'
    /\ send_latency w' = send_latency w
    /\ AsyncQueue.maxsize (UnityClient._send_queue (unity_client w')) = 0%Z.
Proof.
  intros Hq Hlat. unfold execute_one.
  pose proof (min_interval_nonneg cfg) as Hmi.
  set (w1 := if _check_rate_limit cfg (clock w) ex then w
             else sleep (min_interval cfg) w).
  assert (H1 : unity_client w1 = unity_client w
               /\ clock w <= clock w1
               /\ send_latency w1 = send_latency w).
  { unfold w1. destruct (_check_rate_limit _ _ _); cbn; repeat split; lra. }
  destruct H1 as (Hu & Hc & Hl).
  exists (clock w1).
  destruct (UnityClientFacts.queue_message_unbounded
              (UnityClient.mkMessage UnityClient.ACTION (Some action)
                 (clock w1) None None None)
              (unity_client w) Hq) as [Hp Hm].
  destruct (Qgt_bool (action_cooldown cfg) 0) eqn:E;
    cbn [fst]; unfold sent_times, send, sleep; cbn [unity_client clock
      send_latency]; unfold UnityClient.send_action; rewrite Hu, Hp, Hm,
      map_app, Hl; cbn [map UnityClient.timestamp].
  - apply Qgt_bool_true in E. repeat split; try reflexivity; lra.
  - apply Qgt_bool_false in E. repeat split; try reflexivity; lra.
Qed.

Lemma gap_snoc (c : Q) (l : list Q) (x : Q) :
  StronglySorted (gap c) l -> Forall (fun a => a + c <= x) l ->
  StronglySorted (gap c) (l ++ [x]).
Proof.
  induction l as [|a l IH]; intros Hs Hf; cbn.
  - constructor; constructor.
  - inversion Hs as [|? ? Hs' Ha]; subst.
    inversion Hf as [|? ? Hax Hf']; subst.
    constructor; [apply IH; assumption|].
    apply Forall_app. split; [exact Ha | constructor; [exact Hax | constructor]].
Qed.

Lemma execute_one_cooled (cfg : Config) (w : World) (ex : t)
    (action : string) :
  AsyncQueue.maxsize (UnityClient._send_queue (unity_client w)) = 0%Z ->
  0 <= send_latency w ->
  cooled (action_cooldown cfg) w ->
  let w' := fst (execute_one cfg (w, ex) action) in
  cooled (action_cooldown cfg) w'
  /\ send_latency w' = send_latency w
  /\ AsyncQueue.maxsize (UnityClient._send_queue (unity_client w')) = 0%Z.
Proof.
  intros Hq Hlat [Hs Hf] w'.
  destruct (execute_one_times cfg w ex action Hq Hlat)
    as (at_time & Ht & H1 & H2 & H3 & H4 & H5).
  fold w' in Ht, H2, H3, H4, H5. clearbody w'.
  split; [|split; assumption].
  unfold cooled. rewrite Ht. split.
  - apply gap_snoc; [exact Hs|].
    eapply Forall_impl; [|exact Hf]. cbv beta. intros a Ha. lra.
  - apply Forall_app. split.
    + eapply Forall_impl; [|exact Hf]. cbv beta. intros a Ha. lra.
    + constructor; [exact H3 | constructor].
Qed.

Lemma fold_cooled (cfg : Config) (actions : list string) :
  forall w ex,
    AsyncQueue.maxsize (UnityClient._send_queue (unity_client w)) = 0%Z ->
    0 <= send_latency w ->
    cooled (action_cooldown cfg) w ->
    cooled (action_cooldown cfg)
           (fst (fold_left (execute_one cfg) actions (w, ex))).
Proof.
  induction actions as [|a rest IH]; intros w ex Hq Hlat Hc;
    cbn [fold_left]; [exact Hc|].
  destruct (@execute_one_cooled cfg w ex a Hq Hlat Hc) as (Hc1 & Hl1 & Hq1).
  destruct (execute_one cfg (w, ex) a) as [w1 ex1].
  cbn [fst] in Hc1, Hl1, Hq1.
  apply IH; [exact Hq1 | rewrite Hl1; exact Hlat | exact Hc1].
Qed.

Lemma gap_filter (c : Q) (f : Q -> bool) (l : list Q) :
  StronglySorted (gap c) l -> StronglySorted (gap c) (filter f l).
Proof.
  induction l as [|a l IH]; intro Hs; cbn; [constructor|].
  inversion Hs as [|? ? Hs' Ha]; subst.
  destruct (f a); [|apply IH; exact Hs'].
  constructor; [apply IH; exact Hs'|].
  rewrite Forall_forall in *. intros x Hx. apply Ha.
  apply filter_In in Hx. destruct Hx as [Hx _]. exact Hx.
Qed.

(** Hand-overs at least [c] apart that all lie between [lo] and [hi] span at
    least [c] for each one after the first. *)
Lemma span (c : Q) (Hc : 0 <= c) (r : list Q) :
  forall a lo hi,
    StronglySorted (gap c) (a :: r) ->
    lo <= a ->
    Forall (fun x => x <= hi) (a :: r) ->
    lo + inject_Z (Z.of_nat (List.length r)) * c <= hi.
Proof.
  induction r as [|b r IH]; intros a lo hi Hs Hlo Hhi.
  - inversion Hhi as [|? ? Ha _]; subst.
    change (inject_Z (Z.of_nat (@List.length Q []))) with 0. lra.
  - inversion Hs as [|? ? Hs' Hg]; subst.
    inversion Hg as [|? ? Hab _]; subst. unfold gap in Hab.
    inversion Hhi as [|? ? _ Hhi']; subst.
    assert (Hlo' : lo + c <= b) by lra.
    specialize (IH b (lo + c) hi Hs' Hlo' Hhi').
    cbn [List.length]. rewrite Nat2Z.inj_succ. unfold Z.succ.
    rewrite inject_Z_plus.
    set (n := inject_Z (Z.of_nat (List.length r))) in *.
    setoid_replace ((n + inject_Z 1) * c) with (n * c + c) by ring.
    lra.
Qed.

(** With a cooldown of at least [1 / max], fewer than [max + 1] hand-overs at
    least a cooldown apart fit in a trailing second. *)
Lemma window_under_cooldown (c m : Q) (times : list Q) (t : Q) :
  0 < m -> 1 / m <= c ->
  StronglySorted (gap c) times ->
  inject_Z (Z.of_nat (window_count t times)) < m + 1.
Proof.
  intros Hm Hc Hs. unfold window_count.
  set (f := fun s => Qgt_bool s (t - 1) && Qle_bool s t).
  pose proof (gap_filter f Hs) as Hsf.
  assert (Hin : Forall (fun x => t - 1 < x /\ x <= t) (filter f times)).
  { rewrite Forall_forall. intros x Hx. apply filter_In in Hx.
    destruct Hx as [_ Hx]. unfold f in Hx. apply andb_prop in Hx.
    destruct Hx as [H1 H2]. apply Qgt_bool_true in H1.
    apply Qle_bool_iff in H2. split; assumption. }
  assert (Hinv : m * (1 / m) == 1) by (field; lra).
  assert (Hipos : 0 < 1 / m).
  { unfold Qdiv. rewrite Qmult_1_l. apply Qinv_lt_0_compat, Hm. }
  remember (1 / m) as im eqn:Him. clear Him.
  destruct (filter f times) as [|a r].
  - change (inject_Z (Z.of_nat (@List.length Q []))) with 0. lra.
  - assert (Hcpos : 0 < c) by lra.
    inversion Hin as [|? ? [Ha _] Hin']; subst.
    assert (Hhi : Forall (fun x => x <= t) (a :: r)).
    { eapply Forall_impl; [|exact Hin]. cbv beta. intros x [_ Hx]. exact Hx. }
    pose proof (@span c (Qlt_le_weak _ _ Hcpos) r a a t Hsf (Qle_refl a) Hhi)
      as Hspan.
    cbn [List.length]. rewrite Nat2Z.inj_succ. unfold Z.succ.
    rewrite inject_Z_plus.
    set (n := inject_Z (Z.of_nat (List.length r))) in *.
    assert (Hn : n < m).
    { apply Qnot_le_lt. intro Hle.
      assert (H1 : m * c <= n * c)
        by (apply Qmult_le_compat_r; [exact Hle | apply Qlt_le_weak, Hcpos]).
      assert (H2 : m * im <= m * c)
        by (apply Qmult_le_l; [exact Hm | exact Hc]).
      lra. }
    change (inject_Z 1) with 1. lra.
Qed.

End ExecutorMore.

(** X10.  The cooldown is kept.  On a channel whose queue has no bound, with
    a hand-over that takes no negative time, and starting from hand-overs that
    are a cooldown apart and a cooldown old, [execute_actions] hands its
    actions over at times that are at least [action_cooldown] apart, from one
    another and from the earlier ones. *)
Theorem cooldown_separates_actions (cfg : Executor.Config)
    (actions : list string) (w : Executor.World) (ex : Executor.t) :
  AsyncQueue.maxsize
    (UnityClient._send_queue (Executor.unity_client w)) = 0%Z ->
  0 <= Executor.send_latency w ->
  Executor.cooled (Executor.action_cooldown cfg) w ->
  StronglySorted (Executor.gap (Executor.action_cooldown cfg))
    (Executor.sent_times
       (fst (Executor.execute_actions cfg actions (w, ex)))).
Proof.
  intros Hq Hlat Hc.
  assert (H : Executor.cooled (Executor.action_cooldown cfg)
                (fst (Executor.execute_actions cfg actions (w, ex)))).
  { destruct actions as [|a rest]; [exact Hc|].
    apply (@ExecutorMore.fold_cooled cfg (a :: rest) w ex Hq Hlat Hc). }
  exact (proj1 H).
Qed.

(** X10 at work: the settings of [main.py], three actions. *)
Lemma cooldown_separates_actions_witness :
  let cfg := Executor.mkConfig (1 # 10) 10 in
  let w := Executor.fresh_world 0 (1 # 1000) in
  Executor.cooled (Executor.action_cooldown cfg) w
  /\ StronglySorted (Executor.gap (1 # 10))
       (Executor.sent_times
          (fst (Executor.execute_actions cfg ["A"; "B"; "C"]%string
                  (w, Executor.init)))).
Proof.
  intros cfg w.
  assert (Hc : Executor.cooled (Executor.action_cooldown cfg) w)
    by (split; constructor).
  split; [exact Hc|].
  apply (@cooldown_separates_actions cfg ["A"; "B"; "C"]%string w
           Executor.init eq_refl); [discriminate | exact Hc].
Defined.

(** X11.  The rate cap holds when the cooldown is long enough.  If
    [max_actions_per_sec] is positive and [action_cooldown] is at least
    [min_interval = 1 / max_actions_per_sec] (as with the values 0.1 and 10
    that [main.py] passes), then under the conditions of X10 fewer than
    [max_actions_per_sec + 1] actions, so at most [max_actions_per_sec] when
    that is a whole number, are handed over in any trailing second. *)
Theorem rate_cap_holds_under_cooldown (cfg : Executor.Config)
    (actions : list string) (w : Executor.World) (ex : Executor.t) (t : Q) :
  0 < Executor.max_actions_per_sec cfg ->
  Executor.min_interval cfg <= Executor.action_cooldown cfg ->
  AsyncQueue.maxsize
    (UnityClient._send_queue (Executor.unity_client w)) = 0%Z ->
  0 <= Executor.send_latency w ->
  Executor.cooled (Executor.action_cooldown cfg) w ->
  inject_Z
    (Z.of_nat
       (Executor.window_count t
          (Executor.sent_times
             (fst (Executor.execute_actions cfg actions (w, ex))))))
  < Executor.max_actions_per_sec cfg + 1.
Proof.
  intros Hm Hmin Hq Hlat Hc.
  assert (H : Executor.cooled (Executor.action_cooldown cfg)
                (fst (Executor.execute_actions cfg actions (w, ex)))).
  { destruct actions as [|a rest]; [exact Hc|].
    apply (@ExecutorMore.fold_cooled cfg (a :: rest) w ex Hq Hlat Hc). }
  apply ExecutorMore.window_under_cooldown
    with (c := Executor.action_cooldown cfg); [exact Hm | | exact (proj1 H)].
  unfold Executor.min_interval in Hmin.
  destruct (Qgt_bool (Executor.max_actions_per_sec cfg) 0) eqn:E;
    [exact Hmin|].
  apply Qgt_bool_false in E. lra.
Qed.

(** X11 at work: with a cooldown of 0.1 s and a cap of 10, twelve actions
    never put more than ten in the trailing second that ends at 1.1. *)
Lemma rate_cap_holds_under_cooldown_witness :
  let cfg := Executor.mkConfig (1 # 10) 10 in
  let w := Executor.fresh_world 0 0 in
  let actions := repeat "A"%string 12 in
  inject_Z
    (Z.of_nat
       (Executor.window_count (11 # 10)
          (Executor.sent_times
             (fst (Executor.execute_actions cfg actions
                     (w, Executor.init))))))
  < Executor.max_actions_per_sec cfg + 1.
Proof.
  intros cfg w actions.
  apply (@rate_cap_holds_under_cooldown cfg actions w Executor.init
           (11 # 10)).
  - reflexivity.
  - discriminate.
  - reflexivity.
  - discriminate.
  - split; constructor.
Defined.

(** ** The game loop: counters, cadences and the held button *)

Module GameLoopMore.

Import GameLoop.

(** Evaluates one tick on symbolic locals, case by case: the innermost tests
    are settled first. *)
Ltac settle_fields :=
  cbn [frame_count last_action_frame last_vision_frame pending_action_future
       current_button button_frames_remaining fst snd negb andb].

Ltac innermost x :=
  lazymatch x with
  | context [match _ with _ => _ end] => fail
  | _ => idtac
  end.

Ltac tick_cases :=
  unfold tick, emulate, hold_button, refresh_vision, collect, dispatch,
    future_done, future_result, with_frame_count, with_button, with_pending,
    with_last_action, with_last_vision, action_interval_frames,
    vision_update_interval;
  settle_fields;
  repeat match goal with
         | |- context [match ?x with _ => _ end] =>
             innermost x;
             let E := fresh "E" in
             destruct x eqn:E; settle_fields
         end.

(** Turns the boolean tests met on the way into arithmetic. *)
Ltac tests_to_arith :=
  repeat match goal with
         | H : (_ <? _)%Z = true |- _ => apply Z.ltb_lt in H
         | H : (_ <? _)%Z = false |- _ => apply Z.ltb_ge in H
         | H : (_ <=? _)%Z = true |- _ => apply Z.leb_le in H
         | H : (_ <=? _)%Z = false |- _ => apply Z.leb_gt in H
         | H : (_ =? _)%Z = true |- _ => apply Z.eqb_eq in H
         | H : (_ =? _)%Z = false |- _ => apply Z.eqb_neq in H
         end.

Lemma tick_counts (agent : option Agent) (f : Frame) (l : Loop) :
  frame_count (snd (tick agent f l)) = (frame_count l + 1)%Z
  /\ count is_tick (fst (tick agent f l)) = 1%nat.
Proof.
  destruct l as [fc la lv p cb bfr].
  tick_cases; split; reflexivity.
Qed.

Lemma count_app (p : Event -> bool) (xs ys : list Event) :
  count p (xs ++ ys) = (count p xs + count p ys)%nat.
Proof. unfold count. rewrite filter_app, length_app. reflexivity. Qed.

Lemma tick_steady (agent : option Agent) (f : Frame) (l : Loop) :
  steady l -> steady (snd (tick agent f l)).
Proof.
  destruct l as [fc la lv p cb bfr]. unfold steady.
  cbn [button_frames_remaining current_button pending_action_future].
  intros (Hr & Hz & Hp).
  assert (Hheld : forall g, cb = Some g -> bfr <> 0%Z).
  { intros g Hg Hb. apply Hz in Hb. congruence. }
  assert (Hfree : cb = None -> bfr = 0%Z) by apply Hz.
  assert (Hbusy : forall q, p = Some q -> bfr = 0%Z).
  { intros q Hq. apply Hp. congruence. }
  clear Hz Hp.
  destruct cb as [g|]; destruct p as [q|];
    try specialize (Hheld _ eq_refl); try specialize (Hfree eq_refl);
    try specialize (Hbusy _ eq_refl);
    tick_cases; tests_to_arith;
    repeat split; intros; try lia; try congruence.
Qed.

Lemma game_run_cons (agent : option Agent) (f : Frame) (frames : list Frame)
    (l : Loop) :
  run agent (f :: frames) l
  = (fst (tick agent f l) ++ fst (run agent frames (snd (tick agent f l))),
     snd (run agent frames (snd (tick agent f l)))).
Proof.
  cbn [run]. destruct (tick agent f l) as [e l1]. cbn [fst snd].
  destruct (run agent frames l1) as [es l2]. reflexivity.
Qed.

Lemma run_counts_frames (agent : option Agent) (frames : list Frame) :
  forall l,
    frame_count (snd (run agent frames l))
    = (frame_count l + Z.of_nat (List.length frames))%Z
    /\ count is_tick (fst (run agent frames l)) = List.length frames.
Proof.
  induction frames as [|f frames IH]; intro l.
  - cbn [run fst snd List.length]. split; [cbn; lia | reflexivity].
  - rewrite game_run_cons. cbn [fst snd].
    destruct (IH (snd (tick agent f l))) as [Hfc Hn].
    destruct (tick_counts agent f l) as [Hfc1 Hn1].
    rewrite count_app, Hfc, Hn, Hfc1, Hn1. cbn [List.length]. split; lia.
Qed.

Lemma run_steady (agent : option Agent) (frames : list Frame) :
  forall l, steady l -> steady (snd (run agent frames l)).
Proof.
  induction frames as [|f frames IH]; intros l Hl.
  - exact Hl.
  - rewrite game_run_cons. cbn [snd]. apply IH, tick_steady, Hl.
Qed.

Lemma init_steady : steady init.
Proof.
  unfold steady, init. cbn. repeat split; intros; try lia; congruence.
Qed.

(** A turn that makes a request moves [last_action_frame] on by at least
    twelve frames, and never past the frame counter. *)
Lemma tick_cadence (agent : option Agent) (f : Frame) (l : Loop) :
  (last_action_frame l <= frame_count l)%Z ->
  (last_action_frame l + 12 * Z.of_nat (dispatches (fst (tick agent f l)))
   <= last_action_frame (snd (tick agent f l)))%Z
  /\ (last_action_frame (snd (tick agent f l))
      <= frame_count (snd (tick agent f l)))%Z.
Proof.
  destruct l as [fc la lv p cb bfr].
  cbn [last_action_frame frame_count]. intro Hle.
  tick_cases; tests_to_arith; cbn; split; lia.
Qed.

Lemma run_cadence (agent : option Agent) (frames : list Frame) :
  forall l,
    (last_action_frame l <= frame_count l)%Z ->
    (last_action_frame l + 12 * Z.of_nat (dispatches (fst (run agent frames l)))
     <= last_action_frame (snd (run agent frames l)))%Z
    /\ (last_action_frame (snd (run agent frames l))
        <= frame_count (snd (run agent frames l)))%Z.
Proof.
  induction frames as [|f frames IH]; intros l Hl.
  - cbn [run fst snd]. cbn. split; lia.
  - rewrite game_run_cons. cbn [fst snd].
    destruct (tick_cadence agent f l Hl) as [H1 H2].
    destruct (IH _ H2) as [H3 H4].
    rewrite GameLoopFacts.dispatches_app. split; lia.
Qed.

(** With fewer than 120 frames since the last refresh, a turn refreshes the
    vision exactly when the 120th frame is reached. *)
Lemma tick_refresh (agent : option Agent) (f : Frame) (l : Loop) :
  (0 <= frame_count l - last_vision_frame l < 120)%Z ->
  last_vision_frame (snd (tick agent f l))
  = (last_vision_frame l
     + 120 * Z.of_nat (count is_refresh (fst (tick agent f l))))%Z
  /\ (0 <= frame_count (snd (tick agent f l))
           - last_vision_frame (snd (tick agent f l)) < 120)%Z.
Proof.
  destruct l as [fc la lv p cb bfr].
  cbn [last_vision_frame frame_count]. intro Hle.
  tick_cases; tests_to_arith; cbn; split; lia.
Qed.

Lemma run_refresh (agent : option Agent) (frames : list Frame) :
  forall l,
    (0 <= frame_count l - last_vision_frame l < 120)%Z ->
    last_vision_frame (snd (run agent frames l))
    = (last_vision_frame l
       + 120 * Z.of_nat (count is_refresh (fst (run agent frames l))))%Z
    /\ (0 <= frame_count (snd (run agent frames l))
             - last_vision_frame (snd (run agent frames l)) < 120)%Z.
Proof.
  induction frames as [|f frames IH]; intros l Hl.
  - cbn [run fst snd]. cbn. split; lia.
  - rewrite game_run_cons. cbn [fst snd].
    destruct (tick_refresh agent f l Hl) as [H1 H2].
    destruct (IH _ H2) as [H3 H4].
    rewrite count_app. split; lia.
Qed.

(** One turn while a button is held. *)
Lemma tick_hold (agent : option Agent) (f : Frame) (l : Loop)
    (b : GameBoyButton) :
  steady l ->
  current_button l = Some b ->
  filter is_release (fst (tick agent f l))
  = (if (button_frames_remaining l =? 1)%Z then [ButtonRelease b] else [])
  /\ filter is_press (fst (tick agent f l))
     = (if button_truthy (Some b) then [Button b] else [])
  /\ button_frames_remaining (snd (tick agent f l))
     = (button_frames_remaining l - 1)%Z
  /\ current_button (snd (tick agent f l))
     = (if (button_frames_remaining l =? 1)%Z then None else Some b).
Proof.
  destruct l as [fc la lv p cb bfr]. unfold steady.
  cbn [button_frames_remaining current_button pending_action_future].
  intros (Hr & Hz & Hp) Hb. subst cb.
  assert (Hn : bfr <> 0%Z) by (intro H0; apply Hz in H0; discriminate).
  assert (Hq : p = None).
  { destruct p as [q|]; [|reflexivity].
    exfalso. apply Hn, Hp. discriminate. }
  subst p. clear Hz Hp.
  destruct (Z.eqb_spec bfr 1) as [H1|H1];
    tick_cases; tests_to_arith; cbn; repeat split;
    try reflexivity; try lia; try congruence.
Qed.

(** The turns while a button is held, up to the one that releases it. *)
Lemma run_hold (agent : option Agent) (b : GameBoyButton)
    (frames : list Frame) :
  forall l,
    steady l ->
    current_button l = Some b ->
    (Z.of_nat (List.length frames) <= button_frames_remaining l)%Z ->
    filter is_release (fst (run agent frames l))
    = (if (Z.of_nat (List.length frames) =? button_frames_remaining l)%Z
       then [ButtonRelease b] else [])
    /\ filter is_press (fst (run agent frames l))
       = (if button_truthy (Some b)
          then repeat (Button b) (List.length frames) else [])
    /\ current_button (snd (run agent frames l))
       = (if (Z.of_nat (List.length frames) =? button_frames_remaining l)%Z
          then None else Some b).
Proof.
  induction frames as [|f frames IH]; intros l Hs Hb Hlen.
  - pose proof Hs as (Hr & Hz & Hp).
    assert (Hn : button_frames_remaining l <> 0%Z).
    { intro H0. apply Hz in H0. congruence. }
    cbn [run fst snd List.length filter repeat].
    change (Z.of_nat 0) with 0%Z.
    destruct (Z.eqb_spec 0 (button_frames_remaining l)) as [H|H]; [lia|].
    repeat split; [destruct (button_truthy (Some b)); reflexivity | exact Hb].
  - rewrite game_run_cons. cbn [fst snd]. rewrite !filter_app.
    destruct (@tick_hold agent f l b Hs Hb) as (Hrel & Hpre & Hrem & Hcb).
    pose proof (@tick_steady agent f l Hs) as Hs1.
    rewrite Hrel, Hpre.
    destruct (Z.eqb_spec (button_frames_remaining l) 1) as [H1|H1].
    + destruct frames as [|f2 frames]; [|cbn [List.length] in Hlen; lia].
      cbn [run fst snd filter repeat List.length app].
      rewrite Hcb, H1. change (Z.of_nat 1 =? 1)%Z with true. cbv iota.
      repeat split. destruct (button_truthy (Some b)); reflexivity.
    + cbn [List.length] in Hlen.
      destruct (IH _ Hs1 Hcb) as (Irel & Ipre & Icb); [rewrite Hrem; lia|].
      rewrite Irel, Ipre, Icb, Hrem. cbn [List.length repeat].
      destruct (Z.eqb_spec (Z.of_nat (List.length frames))
                  (button_frames_remaining l - 1));
        destruct (Z.eqb_spec (Z.of_nat (S (List.length frames)))
                    (button_frames_remaining l));
        try lia;
        repeat split; destruct (button_truthy (Some b)); reflexivity.
Qed.

End GameLoopMore.

(** X12.  The emulator runs in every turn of [_pokemon_game_loop], whatever
    the control mode, the agent and the state of a decision: over any frames
    the emulator is ticked once per frame and [frame_count] grows by the
    number of frames. *)
Theorem emulator_runs_every_frame (agent : option GameLoop.Agent)
    (frames : list GameLoop.Frame) (l : GameLoop.Loop) :
  GameLoop.count GameLoop.is_tick (fst (GameLoop.run agent frames l))
  = List.length frames
  /\ GameLoop.frame_count (snd (GameLoop.run agent frames l))
     = (GameLoop.frame_count l + Z.of_nat (List.length frames))%Z.
Proof.
  destruct (GameLoopMore.run_counts_frames agent frames l) as [H1 H2].
  split; assumption.
Qed.

(** X13.  From the start of the loop and over any frames, the held-button
    countdown stays within 0 .. 8, it is zero exactly when no button is held,
    and no button is held while a decision is in flight. *)
Theorem button_countdown_is_consistent (agent : option GameLoop.Agent)
    (frames : list GameLoop.Frame) :
  GameLoop.steady (snd (GameLoop.run agent frames GameLoop.init)).
Proof. apply GameLoopMore.run_steady, GameLoopMore.init_steady. Qed.

(** X14.  Decision requests are at least twelve frames apart: from locals in
    which [last_action_frame] is not ahead of [frame_count], a run makes at
    most one request per twelve frames counted from [last_action_frame]. *)
Theorem requests_are_twelve_frames_apart (agent : option GameLoop.Agent)
    (frames : list GameLoop.Frame) (l : GameLoop.Loop) :
  (GameLoop.last_action_frame l <= GameLoop.frame_count l)%Z ->
  (12 * Z.of_nat (GameLoop.dispatches (fst (GameLoop.run agent frames l)))
   <= GameLoop.frame_count l - GameLoop.last_action_frame l
      + Z.of_nat (List.length frames))%Z.
Proof.
  intro Hl.
  destruct (GameLoopMore.run_cadence agent frames l Hl) as [H1 H2].
  destruct (GameLoopMore.run_counts_frames agent frames l) as [H3 _].
  lia.
Qed.

(** X14 at work: a simple agent over thirty frames from the start makes at
    most two requests. *)
Lemma requests_are_twelve_frames_apart_witness :
  let frames := repeat (GameLoop.mkFrame false false None (Some 1%Z)) 30 in
  (GameLoop.last_action_frame GameLoop.init
   <= GameLoop.frame_count GameLoop.init)%Z
  /\ (12 * Z.of_nat (GameLoop.dispatches
                       (fst (GameLoop.run (Some GameLoop.Simple) frames
                               GameLoop.init)))
      <= 30)%Z.
Proof.
  intro frames.
  assert (H : (GameLoop.last_action_frame GameLoop.init
               <= GameLoop.frame_count GameLoop.init)%Z) by (cbn; lia).
  split; [exact H|].
  exact (@requests_are_twelve_frames_apart (Some GameLoop.Simple) frames
           GameLoop.init H).
Defined.

(** X15.  The vision analysis is started every 120 frames, in manual mode as
    in AI mode: after [n] frames from the start of the loop it has been
    started [n / 120] times (integer division), the last time at frame
    [120 * (n / 120)]. *)
Theorem vision_refreshes_every_120_frames (agent : option GameLoop.Agent)
    (frames : list GameLoop.Frame) :
  Z.of_nat (GameLoop.count GameLoop.is_refresh
              (fst (GameLoop.run agent frames GameLoop.init)))
  = (Z.of_nat (List.length frames) / 120)%Z
  /\ GameLoop.last_vision_frame (snd (GameLoop.run agent frames GameLoop.init))
     = (120 * (Z.of_nat (List.length frames) / 120))%Z.
Proof.
  assert (H0 : (0 <= GameLoop.frame_count GameLoop.init
                     - GameLoop.last_vision_frame GameLoop.init < 120)%Z)
    by (cbn; lia).
  destruct (GameLoopMore.run_refresh agent frames GameLoop.init H0)
    as [H1 H2].
  destruct (GameLoopMore.run_counts_frames agent frames GameLoop.init)
    as [H3 _].
  change (GameLoop.last_vision_frame GameLoop.init) with 0%Z in H1.
  change (GameLoop.frame_count GameLoop.init) with 0%Z in H3.
  rewrite H3 in H2. rewrite H1 in H2 |- *.
  assert (E : (Z.of_nat (List.length frames) / 120)%Z
              = Z.of_nat (GameLoop.count GameLoop.is_refresh
                            (fst (GameLoop.run agent frames GameLoop.init)))).
  { symmetry.
    apply Z.div_unique
      with (r := (Z.of_nat (List.length frames)
                  - 120 * Z.of_nat
                      (GameLoop.count GameLoop.is_refresh
                         (fst (GameLoop.run agent frames GameLoop.init))))%Z);
      lia. }
  rewrite E. split; lia.
Qed.

(** X16.  A held button is released when its countdown runs out and not
    before.  With a button [b] held and [k] frames remaining, a run of at
    most [k] frames releases [b] exactly once if it has [k] frames and not at
    all if it has fewer; nothing else is released; [b] is pressed again in
    each of these frames, except that button A, whose integer value 0 is
    false for the test [if current_button], is not pressed again. *)
Theorem held_button_is_released_on_time (agent : option GameLoop.Agent)
    (b : GameLoop.GameBoyButton) (frames : list GameLoop.Frame)
    (l : GameLoop.Loop) :
  GameLoop.steady l ->
  GameLoop.current_button l = Some b ->
  (Z.of_nat (List.length frames) <= GameLoop.button_frames_remaining l)%Z ->
  filter GameLoop.is_release (fst (GameLoop.run agent frames l))
  = (if (Z.of_nat (List.length frames)
         =? GameLoop.button_frames_remaining l)%Z
     then [GameLoop.ButtonRelease b] else [])
  /\ filter GameLoop.is_press (fst (GameLoop.run agent frames l))
     = (if GameLoop.button_truthy (Some b)
        then repeat (GameLoop.Button b) (List.length frames) else [])
  /\ GameLoop.current_button (snd (GameLoop.run agent frames l))
     = (if (Z.of_nat (List.length frames)
            =? GameLoop.button_frames_remaining l)%Z
        then None else Some b).
Proof.
  intros Hs Hb Hlen.
  exact (@GameLoopMore.run_hold agent b frames l Hs Hb Hlen).
Qed.

(** X16 at work: button A held for its eight frames is released once and
    never pressed again on the way. *)
Lemma held_button_is_released_on_time_witness :
  let l := GameLoop.with_button (Some GameLoop.A) 8 GameLoop.init in
  let frames := repeat (GameLoop.mkFrame false false None None) 8 in
  GameLoop.steady l
  /\ filter GameLoop.is_release
       (fst (GameLoop.run (Some GameLoop.WithEnv) frames l))
     = [GameLoop.ButtonRelease GameLoop.A]
  /\ filter GameLoop.is_press
       (fst (GameLoop.run (Some GameLoop.WithEnv) frames l))
     = [].
Proof.
  intros l frames.
  assert (Hs : GameLoop.steady l).
  { unfold GameLoop.steady. cbn.
    repeat split; intros; try lia; try congruence; try discriminate. }
  assert (Hlen : (Z.of_nat (List.length frames)
                  <= GameLoop.button_frames_remaining l)%Z) by (cbn; lia).
  split; [exact Hs|].
  destruct (@held_button_is_released_on_time (Some GameLoop.WithEnv)
              GameLoop.A frames l Hs eq_refl Hlen) as (H1 & H2 & _).
  split; [exact H1 | exact H2].
Defined.

Module MainLoopMore.

Import MainLoop.
Import MainLoopFacts.

(** *** Only speech is queued *)

Lemma only_says_refl (s : Sys) : only_says_added s s.
Proof. intros m H. left. exact H. Qed.

Lemma only_says_trans (s1 s2 s3 : Sys) :
  only_says_added s1 s2 -> only_says_added s2 s3 -> only_says_added s1 s3.
Proof.
  intros H12 H23 m H. destruct (H23 m H) as [H2 | H2]; [|right; exact H2].
  apply H12, H2.
Qed.

Lemma says_same (f : Sys -> Sys) :
  (forall s, unity_client (f s) = unity_client s) ->
  respects only_says_added (modify f).
Proof.
  intros H s m Hm. left. unfold outbound in *. cbn [modify snd] in Hm.
  rewrite H in Hm. exact Hm.
Qed.

(** What [_queue_message] leaves pending was pending or is the new
    message, on a queue with or without a bound. *)
Lemma queue_message_members (x m : UnityClient.Message) (c : UnityClient.t) :
  In m (UnityClient.pending (UnityClient._queue_message x c)) ->
  In m (UnityClient.pending c) \/ m = x.
Proof.
  unfold UnityClient._queue_message, UnityClient.pending,
    AsyncQueue.put_nowait, AsyncQueue.get_nowait.
  destruct (AsyncQueue.full (UnityClient._send_queue c)).
  - destruct (AsyncQueue.items (UnityClient._send_queue c)) as [|y ys] eqn:E.
    + rewrite E. intro H. left. exact H.
    + destruct (AsyncQueue.full _);
        cbn [UnityClient.with_queue UnityClient._send_queue AsyncQueue.items];
        intro H.
      * left. right. exact H.
      * apply in_app_or in H. destruct H as [H | [H | []]];
          [left; right; exact H | right; symmetry; exact H].
  - cbn [UnityClient.with_queue UnityClient._send_queue AsyncQueue.items].
    intro H. apply in_app_or in H.
    destruct H as [H | [H | []]]; [left; exact H | right; symmetry; exact H].
Qed.

Lemma says_send_say (text audio : option string) (format : string) :
  respects only_says_added (send_say text audio format).
Proof.
  intros s m Hm. unfold outbound, send_say in *.
  cbn [modify snd set_unity_client unity_client] in Hm.
  unfold UnityClient.send_say in Hm.
  apply queue_message_members in Hm. destruct Hm as [H | H];
    [left; exact H | right; rewrite H; reflexivity].
Qed.

Lemma says_gate : respects only_says_added _can_make_brain_decision.
Proof.
  intros s m Hm. left. unfold _can_make_brain_decision in Hm.
  destruct (Gate._can_make_brain_decision (now s) (gate s)) as [ok g].
  exact Hm.
Qed.

Lemma says_run_task (t : Task) (s : Sys) : only_says_added s (run_task t s).
Proof.
  destruct t as [text | text].
  - exact (says_send_say (Some text) None "mp3" s).
  - intros m H. left. exact H.
Qed.

Lemma says_fold_tasks (ts : list Task) (s : Sys) :
  only_says_added s (fold_left (fun acc t => run_task t acc) ts s).
Proof.
  revert s. induction ts as [|t ts IH]; intro s; [apply only_says_refl|].
  cbn [fold_left].
  eapply only_says_trans; [apply says_run_task | apply IH].
Qed.

Lemma says_run_tasks (s : Sys) : only_says_added s (run_tasks s).
Proof.
  unfold run_tasks.
  eapply only_says_trans; [|apply says_fold_tasks].
  intros m H. left. exact H.
Qed.

Lemma says_resume (b : bool) (s : Sys) : only_says_added s (resume b s).
Proof. destruct b; [apply says_run_tasks | apply only_says_refl]. Qed.

Lemma says_await (suspends : Await -> Sys -> bool) (a : Await) :
  respects only_says_added (await suspends a).
Proof. intro s. apply says_resume. Qed.

Lemma says_sleep (d : Q) : respects only_says_added (sleep d).
Proof.
  intro s. cbn [sleep modify snd].
  eapply only_says_trans; [apply says_run_tasks|].
  intros m H. left. exact H.
Qed.

(** Settles a step that can only queue speech. *)
Ltac says_prim :=
  first [ apply says_gate
        | apply says_await
        | apply says_sleep
        | apply says_send_say
        | apply says_same; intro; reflexivity ].

Lemma says_body (cfg : Config) (brain : Request -> Decision)
    (brain_latency : Q) (generate_speech : string -> option (string * string))
    (suspends : Await -> Sys -> bool) (strip lower : string -> string)
    (save_state load_state : option bool) (last : Q) :
  respects only_says_added
    (body cfg brain brain_latency generate_speech suspends strip lower
       save_state load_state last).
Proof.
  unfold body, serve_chat, autonomous_check, poll.
  unfold _process_chat_message, _process_twitch_event, _process_game_event,
    _make_autonomous_decision, _execute_decision, process_chat_command,
    get_status_message, toggle_mode, set_mode, save_game, load_game,
    _on_manual_control_message, ask, set_thinking,
    update_state_from_decision, emit, spawn, pass.
  respects_steps only_says_refl only_says_trans ltac:(says_prim).
Qed.

(** *** What the steps around a call leave alone *)

Lemma calm_refl (s : Sys) : calm s s.
Proof. repeat split. Qed.

Lemma calm_trans (s1 s2 s3 : Sys) : calm s1 s2 -> calm s2 s3 -> calm s1 s3.
Proof.
  intros (A1 & B1 & C1 & D1) (A2 & B2 & C2 & D2).
  repeat split; etransitivity; eassumption.
Qed.

Lemma calm_undisturbed (s s' : Sys) : undisturbed s s' -> calm s s'.
Proof.
  intro H. pose proof (undisturbed_no_call H) as Hc.
  destruct H as (_ & _ & _ & Hg & _ & Hm & _ & Hn & _).
  repeat split; assumption.
Qed.

Lemma calm_resume (b : bool) (s : Sys) : calm s (resume b s).
Proof. apply calm_undisturbed, resume_undisturbed. Qed.

Lemma calm_run_tasks (s : Sys) : calm s (run_tasks s).
Proof. apply calm_undisturbed, run_tasks_undisturbed. Qed.

Lemma calm_same (f : Sys -> Sys) :
  (forall s, gate (f s) = gate s /\ manual_controller (f s) = manual_controller s
             /\ now (f s) = now s /\ trace (f s) = trace s) ->
  respects calm (modify f).
Proof.
  intros H s. destruct (H s) as (A & B & C & D).
  cbn [modify snd]. unfold calm. rewrite A, B, C, D. repeat split.
Qed.

Lemma calm_emit (e : Effect) :
  brain_calls [e] = [] -> respects calm (emit e).
Proof.
  intros H s. cbn [emit modify snd]. unfold calm.
  cbn [gate manual_controller now trace set_trace].
  rewrite brain_calls_app, H, app_nil_r. repeat split.
Qed.

Lemma calm_await (suspends : Await -> Sys -> bool) (a : Await) :
  respects calm (await suspends a).
Proof. intro s. apply calm_resume. Qed.

(** Settles a step that makes no call. *)
Ltac calm_prim :=
  first [ apply calm_await
        | apply calm_emit; reflexivity
        | apply calm_same; intro; repeat split ].

Section Collaborators.

Variable cfg : Config.
Variable brain : Request -> Decision.
Variable brain_latency : Q.
Variable generate_speech : string -> option (string * string).
Variable suspends : Await -> Sys -> bool.
Variable strip : string -> string.
Variable lower : string -> string.
Variable save_state : option bool.
Variable load_state : option bool.

Local Abbreviation execute := (_execute_decision cfg generate_speech suspends).

Local Abbreviation answer r :=
  (decision <- ask brain brain_latency suspends r ;;
   update_state_from_decision (dtype decision) ;;
   execute decision).

Local Abbreviation decide r := (set_thinking ;; answer r).

Local Abbreviation twitch_handler :=
  (_process_twitch_event cfg brain brain_latency generate_speech suspends).

Local Abbreviation game_handler :=
  (_process_game_event cfg brain brain_latency generate_speech suspends).

Local Abbreviation chat_handler :=
  (_process_chat_message cfg brain brain_latency generate_speech suspends
     strip lower save_state load_state).

Local Abbreviation autonomous :=
  (_make_autonomous_decision cfg brain brain_latency generate_speech
     suspends).

Local Abbreviation turn :=
  (iteration cfg brain brain_latency generate_speech suspends
     strip lower save_state load_state).

Lemma calm_after_answer (d : Decision) :
  respects calm (update_state_from_decision (dtype d) ;; execute d).
Proof.
  unfold update_state_from_decision, _execute_decision, send_say.
  respects_steps calm_refl calm_trans ltac:(calm_prim).
Qed.

(** The system when the decision collaborator has answered. *)
Lemma ask_run (r : Request) (s : Sys) :
  ask brain brain_latency suspends r s
  = (Returned (brain r),
     set_now (now (resume (suspends AwaitBrain
                             (set_trace (trace s ++ [BrainCall r]) s))
                     (set_trace (trace s ++ [BrainCall r]) s))
              + brain_latency)
       (resume (suspends AwaitBrain (set_trace (trace s ++ [BrainCall r]) s))
          (set_trace (trace s ++ [BrainCall r]) s))).
Proof. reflexivity. Qed.

(** A call of the decision collaborator and what follows it: the gate and
    the control mode stay, one call is made, and the time of the call
    passes. *)
Lemma answer_run (r : Request) (s : Sys) :
  let out := answer r s in
  gate (snd out) = gate s
  /\ manual_controller (snd out) = manual_controller s
  /\ now (snd out) = now s + brain_latency
  /\ brain_calls (trace (snd out)) = brain_calls (trace s) ++ [r].
Proof.
  intro out. unfold out. rewrite bind_run, ask_run.
  set (s1 := set_trace (trace s ++ [BrainCall r]) s).
  destruct (calm_resume (suspends AwaitBrain s1) s1) as (A & B & C & D).
  set (s2 := resume (suspends AwaitBrain s1) s1) in *.
  set (s3 := set_now (now s2 + brain_latency) s2).
  destruct (calm_after_answer (brain r) s3) as (A' & B' & C' & D').
  rewrite A', B', C', D'. unfold s3.
  cbn [gate manual_controller now trace set_now].
  rewrite A, B, C, D. unfold s1.
  cbn [gate manual_controller now trace set_trace].
  rewrite brain_calls_app. repeat split.
Qed.

Lemma decide_run (r : Request) (s : Sys) :
  let out := decide r s in
  gate (snd out) = gate s
  /\ manual_controller (snd out) = manual_controller s
  /\ now (snd out) = now s + brain_latency
  /\ brain_calls (trace (snd out)) = brain_calls (trace s) ++ [r].
Proof.
  intro out. unfold out. rewrite bind_run. cbn [set_thinking modify].
  match goal with
  | |- context [answer r ?x] => destruct (answer_run r x) as (A & B & C & D)
  end.
  rewrite A, B, C, D. repeat split.
Qed.

Lemma twitch_run (e : TwitchEvent) (s : Sys) :
  let out := twitch_handler e s in
  gate (snd out) = gate s
  /\ brain_calls (trace (snd out))
     = brain_calls (trace s)
         ++ [ProcessEvent (event_type_map (event_type e)) (display_name e)]
  /\ now (snd out) = now s + brain_latency.
Proof.
  intro out. unfold out, _process_twitch_event.
  rewrite bind_run. cbn [set_thinking modify].
  rewrite bind_run.
  destruct (overlay_server cfg); cbn [when].
  - rewrite bind_run. cbn [emit modify]. cbn [await modify].
    match goal with
    | |- context [answer ?r (resume ?b ?x)] =>
        destruct (answer_run r (resume b x)) as (A & _ & C & D);
        destruct (calm_resume b x) as (A1 & _ & C1 & D1)
    end.
    rewrite A, C, D, A1, C1, D1.
    cbn [gate now trace set_trace set_state_manager].
    rewrite brain_calls_app. cbn [brain_calls]. rewrite app_nil_r.
    repeat split.
  - cbn [ret].
    match goal with
    | |- context [answer ?r ?x] =>
        destruct (answer_run r x) as (A & _ & C & D)
    end.
    rewrite A, C, D. repeat split.
Qed.

Lemma game_run (g : GameEvent) (s : Sys) :
  let out := game_handler g s in
  gate (snd out) = gate s
  /\ brain_calls (trace (snd out))
     = brain_calls (trace s)
         ++ (if disable_brain_while_gaming cfg then []
             else [ProcessGameEvent (game_event_type g)]).
Proof.
  unfold _process_game_event.
  destruct (disable_brain_while_gaming cfg).
  - cbn. rewrite app_nil_r. split; reflexivity.
  - destruct (decide_run (ProcessGameEvent (game_event_type g)) s)
      as (H1 & _ & _ & H4).
    split; assumption.
Qed.

(** [set_thinking()] then [update_state_from_decision("GOAL")] leaves the
    machine in PLAYING. *)
Lemma goal_cycle_state (c1 c2 : StateManager.Readings) (sm : StateManager.t) :
  StateManager.current_state
    (fst (StateManager.update_state_from_decision "GOAL" c2
            (fst (StateManager.set_thinking c1 sm))))
  = StateManager.PLAYING.
Proof.
  unfold StateManager.set_thinking, StateManager.update_state_from_decision,
    StateManager.can_transition_to, StateManager.transition_to.
  destruct sm as [cur hist start]. destruct cur; reflexivity.
Qed.

(** With no task pending, an await changes nothing. *)
Lemma idle_resume (b : bool) (s : Sys) :
  tasks s = [] ->
  tasks (resume b s) = [] /\ unity_client (resume b s) = unity_client s.
Proof.
  intro H. rewrite (resume_idle b s H). split; [exact H | reflexivity].
Qed.

(** A call the collaborator answers with a decision of type GOAL, made while
    the machine is thinking: [_execute_decision] raises. *)
Lemma answer_goal (r : Request) (x : Sys) (c : StateManager.Readings)
    (sm : StateManager.t) :
  dtype (brain r) = "GOAL"%string ->
  state_manager x = fst (StateManager.set_thinking c sm) ->
  exists s',
    answer r x = (Raised "AttributeError", s')
    /\ events_queue s' = events_queue x
    /\ StateManager.current_state (state_manager s') = StateManager.PLAYING
    /\ now s' = now x + brain_latency
    /\ (tasks x = [] -> tasks s' = [] /\ unity_client s' = unity_client x).
Proof.
  intros Hgoal Hsm. rewrite bind_run, ask_run.
  set (s1 := set_trace (trace x ++ [BrainCall r]) x).
  pose proof (resume_undisturbed (suspends AwaitBrain s1) s1) as U.
  pose proof (idle_resume (suspends AwaitBrain s1) s1) as I.
  set (s2 := resume (suspends AwaitBrain s1) s1) in *.
  destruct U as (E & _ & _ & _ & S & _ & _ & N & _).
  set (s3 := set_now (now s2 + brain_latency) s2).
  rewrite bind_run. cbn [update_state_from_decision modify].
  unfold _execute_decision. rewrite Hgoal.
  change (String.eqb "GOAL" "GOAL") with true. cbv iota.
  eexists. split; [reflexivity|].
  cbn [events_queue state_manager now tasks unity_client set_state_manager].
  unfold s3.
  cbn [events_queue state_manager now tasks unity_client set_now].
  rewrite E, S, N. unfold s1 in *.
  cbn [events_queue state_manager now tasks unity_client set_trace] in *.
  split; [reflexivity|]. split; [rewrite Hsm; apply goal_cycle_state|].
  split; [reflexivity | exact I].
Qed.

Lemma twitch_goal (e : TwitchEvent) (s : Sys) :
  dtype (brain (ProcessEvent (event_type_map (event_type e))
                  (display_name e))) = "GOAL"%string ->
  exists s',
    twitch_handler e s = (Raised "AttributeError", s')
    /\ events_queue s' = events_queue s
    /\ StateManager.current_state (state_manager s') = StateManager.PLAYING
    /\ now s' = now s + brain_latency
    /\ (tasks s = [] -> tasks s' = [] /\ unity_client s' = unity_client s).
Proof.
  intro Hgoal. unfold _process_twitch_event.
  rewrite bind_run. cbn [set_thinking modify].
  set (x0 := set_state_manager _ s).
  assert (S0 : state_manager x0
               = fst (StateManager.set_thinking (readings s)
                        (state_manager s))) by reflexivity.
  assert (F0 : events_queue x0 = events_queue s /\ now x0 = now s
               /\ tasks x0 = tasks s /\ unity_client x0 = unity_client s)
    by (repeat split).
  clearbody x0. destruct F0 as (E0 & N0 & T0 & C0).
  rewrite bind_run.
  destruct (overlay_server cfg); cbn [when].
  - rewrite bind_run. cbn [emit modify]. cbn [await modify].
    set (x1 := set_trace _ x0).
    pose proof (resume_undisturbed (suspends AwaitOverlay x1) x1) as U.
    pose proof (idle_resume (suspends AwaitOverlay x1) x1) as I.
    set (x2 := resume (suspends AwaitOverlay x1) x1) in *.
    destruct U as (E & _ & _ & _ & S & _ & _ & N & _).
    unfold x1 in E, S, N, I.
    cbn [events_queue state_manager now tasks unity_client set_trace]
      in E, S, N, I.
    clearbody x2.
    destruct (@answer_goal _ x2 (readings s) (state_manager s) Hgoal)
      as (s' & Eq & E' & P' & N' & I').
    { rewrite S. exact S0. }
    exists s'. split; [exact Eq|].
    split; [rewrite E', E; exact E0|]. split; [exact P'|].
    split; [rewrite N', N, N0; reflexivity|].
    intro Ht. rewrite <- T0 in Ht. destruct (I Ht) as [I1 I2].
    destruct (I' I1) as [I3 I4].
    split; [exact I3 | rewrite I4, I2; exact C0].
  - cbn [ret].
    destruct (@answer_goal _ x0 (readings s) (state_manager s) Hgoal S0)
      as (s' & Eq & E' & P' & N' & I').
    exists s'. split; [exact Eq|].
    split; [rewrite E'; exact E0|]. split; [exact P'|].
    split; [rewrite N', N0; reflexivity|].
    intro Ht. rewrite <- T0 in Ht. destruct (I' Ht) as [I3 I4].
    split; [exact I3 | rewrite I4; exact C0].
Qed.

Lemma platform_goal (last : Q) (s : Sys) (e : TwitchEvent)
    (rest : list TwitchEvent) :
  events_queue s = e :: rest ->
  dtype (brain (ProcessEvent (event_type_map (event_type e))
                  (display_name e))) = "GOAL"%string ->
  let r := turn last s in
  fst r = (Caught, last)
  /\ events_queue (snd r) = rest
  /\ StateManager.current_state (state_manager (snd r))
     = StateManager.PLAYING
  /\ now (snd r) = now s + brain_latency + 1
  /\ (tasks s = [] -> outbound (snd r) = outbound s).
Proof.
  intros Hq Hgoal r. unfold r, iteration.
  rewrite (@body_platform_eq cfg brain brain_latency generate_speech
             suspends strip lower save_state load_state last s e rest Hq).
  pose proof (resume_undisturbed (suspends AwaitGet s) s) as U.
  pose proof (idle_resume (suspends AwaitGet s) s) as I.
  set (s0 := resume (suspends AwaitGet s) s) in *.
  destruct U as (_ & _ & _ & _ & _ & _ & _ & N & _).
  clearbody s0.
  rewrite bind_run. cbn [emit modify]. rewrite bind_run.
  set (x := set_trace _ (set_events_queue rest s0)).
  assert (F : events_queue x = rest /\ now x = now s0
              /\ tasks x = tasks s0 /\ unity_client x = unity_client s0)
    by (repeat split).
  clearbody x. destruct F as (Ex & Nx & Tx & Cx).
  destruct (twitch_goal e x Hgoal) as (s' & Eq & E' & P' & N' & I').
  rewrite Eq. cbv iota.
  destruct (run_tasks_undisturbed s') as (E2 & _ & _ & _ & S2 & _ & _ & N2 & _).
  cbn [fst snd events_queue state_manager now set_now].
  split; [reflexivity|].
  split; [rewrite E2, E'; exact Ex|].
  split; [rewrite S2; exact P'|].
  split; [rewrite N', Nx, N; reflexivity|].
  intro Ht. destruct (I Ht) as [I1 I2].
  rewrite <- Tx in I1. destruct (I' I1) as [I3 I4].
  unfold outbound. cbn [unity_client set_now].
  rewrite (run_tasks_idle s' I3), I4, Cx, I2. reflexivity.
Qed.





End Collaborators.

End MainLoopMore.

(** X17.  The main loop queues nothing but speech.  After any turn of
    [_main_loop], with whatever is queued, whatever tasks are pending,
    whatever the decision collaborator answers and whether or not the turn
    ends in the [except] clause, every outbound command pending for the
    remote consumer was pending before the turn or is a [SAY] command: no
    [ACTION] command is ever queued by the loop, a [GOAL] decision
    included. *)
Theorem main_loop_queues_only_speech
    (cfg : MainLoop.Config) (brain : MainLoop.Request -> MainLoop.Decision)
    (brain_latency : Q) (generate_speech : string -> option (string * string))
    (suspends : MainLoop.Await -> MainLoop.Sys -> bool)
    (strip lower : string -> string) (save_state load_state : option bool)
    (last : Q) (s : MainLoop.Sys) :
  MainLoop.only_says_added s
    (snd (MainLoop.iteration cfg brain brain_latency generate_speech
            suspends strip lower save_state load_state last s)).
Proof.
  unfold MainLoop.iteration.
  pose proof (@MainLoopMore.says_body cfg brain brain_latency generate_speech
                suspends strip lower save_state load_state last s) as H.
  destruct (MainLoop.body cfg brain brain_latency generate_speech suspends
              strip lower save_state load_state last s)
    as [[[flow last'] | exn] s1]; cbn [snd] in *; [exact H|].
  eapply MainLoopMore.only_says_trans; [exact H|].
  eapply MainLoopMore.only_says_trans;
    [apply MainLoopMore.says_run_tasks|].
  intros m Hm. left. exact Hm.
Qed.

(** X18.  Platform events and game events are never rate-limited.  Their
    handlers do not consult the decision gate and leave it as it was, however
    recently a decision was made: a platform event always leads to exactly
    one call [process_event] of the decision collaborator, and a game event
    to exactly one call [process_game_event], or to none at all when
    [disable_brain_while_gaming] is set. *)
Theorem events_are_never_rate_limited
    (cfg : MainLoop.Config) (brain : MainLoop.Request -> MainLoop.Decision)
    (brain_latency : Q) (generate_speech : string -> option (string * string))
    (suspends : MainLoop.Await -> MainLoop.Sys -> bool)
    (e : MainLoop.TwitchEvent) (g : MainLoop.GameEvent) (s : MainLoop.Sys) :
  (let out := MainLoop._process_twitch_event
                cfg brain brain_latency generate_speech suspends e s in
   MainLoop.gate (snd out) = MainLoop.gate s
   /\ MainLoop.brain_calls (MainLoop.trace (snd out))
      = MainLoop.brain_calls (MainLoop.trace s)
          ++ [MainLoop.ProcessEvent
                (MainLoop.event_type_map (MainLoop.event_type e))
                (MainLoop.display_name e)])
  /\ (let out := MainLoop._process_game_event
                   cfg brain brain_latency generate_speech suspends g s in
      MainLoop.gate (snd out) = MainLoop.gate s
      /\ MainLoop.brain_calls (MainLoop.trace (snd out))
         = MainLoop.brain_calls (MainLoop.trace s)
             ++ (if MainLoop.disable_brain_while_gaming cfg then []
                 else [MainLoop.ProcessGameEvent
                         (MainLoop.game_event_type g)])).
Proof.
  split.
  - destruct (MainLoopMore.twitch_run cfg brain brain_latency generate_speech
                suspends e s) as (H1 & H2 & _).
    split; assumption.
  - exact (MainLoopMore.game_run cfg brain brain_latency generate_speech
             suspends g s).
Qed.

(** X19.  A GOAL decision never reaches the executor.  When the decision
    collaborator answers a platform event with a decision of type GOAL, the
    turn of [_main_loop] ends in its [except] clause: [self.executor] is a
    [ThreadPoolExecutor] by then and has no [execute_actions].  The event is
    consumed, the state machine is left in PLAYING, the loop sleeps one
    second, and with no task pending no outbound command is queued. *)
Theorem goal_decision_ends_in_except
    (cfg : MainLoop.Config) (brain : MainLoop.Request -> MainLoop.Decision)
    (brain_latency : Q) (generate_speech : string -> option (string * string))
    (suspends : MainLoop.Await -> MainLoop.Sys -> bool)
    (strip lower : string -> string) (save_state load_state : option bool)
    (last : Q) (s : MainLoop.Sys) (e : MainLoop.TwitchEvent)
    (rest : list MainLoop.TwitchEvent) :
  MainLoop.events_queue s = e :: rest ->
  MainLoop.dtype
    (brain (MainLoop.ProcessEvent
              (MainLoop.event_type_map (MainLoop.event_type e))
              (MainLoop.display_name e))) = "GOAL"%string ->
  let r := MainLoop.iteration cfg brain brain_latency generate_speech
             suspends strip lower save_state load_state last s in
  fst r = (MainLoop.Caught, last)
  /\ MainLoop.events_queue (snd r) = rest
  /\ StateManager.current_state (MainLoop.state_manager (snd r))
     = StateManager.PLAYING
  /\ MainLoop.now (snd r) = MainLoop.now s + brain_latency + 1
  /\ (MainLoop.tasks s = [] ->
      MainLoop.outbound (snd r) = MainLoop.outbound s).
Proof.
  intros Hq Hgoal.
  exact (@MainLoopMore.platform_goal cfg brain brain_latency generate_speech
           suspends strip lower save_state load_state last s e rest
           Hq Hgoal).
Qed.

(** X19 at work: a follow answered with the goal "pular". *)
Lemma goal_decision_ends_in_except_witness :
  let cfg := MainLoop.mkConfig false false false false in
  let brain := fun _ : MainLoop.Request =>
                 MainLoop.mkDecision "GOAL" (Some "pular"%string) in
  let s := MainLoop.mkSys [MainLoop.mkTwitchEvent MainLoop.FOLLOW "ana"] [] []
             (Gate.mk 0 (1 # 2)) (StateManager.init StateManager.IDLE 0)
             UnityClient.init None false 10 [] [] in
  let r := MainLoop.iteration cfg brain 1 (fun _ => None) (fun _ _ => true)
             (fun m => m) (fun m => m) None None 0 s in
  fst r = (MainLoop.Caught, 0)
  /\ MainLoop.outbound (snd r) = []
  /\ StateManager.current_state (MainLoop.state_manager (snd r))
     = StateManager.PLAYING.
Proof.
  intros cfg brain s r.
  destruct (@goal_decision_ends_in_except cfg brain 1 (fun _ => None)
              (fun _ _ => true) (fun m => m) (fun m => m) None None 0 s
              (MainLoop.mkTwitchEvent MainLoop.FOLLOW "ana") []
              eq_refl eq_refl) as (H1 & _ & H3 & _ & H5).
  split; [exact H1 | split; [exact (H5 eq_refl) | exact H3]].
Defined.




(** ** The planner: what a plan can be *)

Module PlannerFacts.

Import Planner.

(** Runs the keyword scan, one dictionary entry at a time. *)
Ltac scan_cases gl :=
  unfold scan, ACTION_KEYWORDS;
  cbn [fold_left scan_one];
  repeat match goal with
         | |- context [if any_in ?ws gl then _ else _] =>
             let E := fresh "E" in
             destruct (any_in ws gl) eqn:E;
             cbn [Text.mem existsb String.eqb Ascii.eqb Bool.eqb orb andb
                  app is_empty]
         end.

(** Splits a failed search into the words that do not occur. *)
Ltac absent_words :=
  repeat match goal with
         | H : any_in _ _ = false |- _ =>
             unfold any_in in H; cbn [existsb] in H
         | H : (_ || _)%bool = false |- _ =>
             apply orb_false_elim in H; destruct H
         end.

Lemma ordered_cases (actions : list string) :
  Forall (fun a => (rank a < 5)%nat) actions ->
  StronglySorted (fun a b => (rank a < rank b)%nat) actions ->
  ordered actions.
Proof. intros H1 H2. split; assumption. Qed.

(** Settles [ordered] for a list that is written out. *)
Ltac ordered_list :=
  apply ordered_cases;
  [ repeat constructor; cbn; lia
  | repeat constructor; cbn; lia ].

Lemma plan_ordered (lower : string -> string) (goal : option string) :
  plan lower goal <> [] /\ ordered (plan lower goal).
Proof.
  unfold plan. destruct goal as [[|c g]|];
    try (split; [discriminate | ordered_list]).
  set (gl := lower (String c g)). cbv zeta.
  scan_cases gl; try (split; [discriminate | ordered_list]).
  unfold _infer_action.
  repeat match goal with
         | |- context [if ?b then _ else _] =>
             lazymatch b with
             | context [if _ then _ else _] => fail
             | _ => destruct b; cbn [app is_empty]
             end
         end;
    (split; [discriminate | ordered_list]).
Qed.

Lemma plan_infers_little (lower : string -> string) (c : ascii) (g : string) :
  let goal_lower := lower (String c g) in
  plan lower (Some (String c g))
  = if is_empty (scan goal_lower)
    then if any_in ["desviar"; "fugir"; "esquivar"; "evitar"]%string goal_lower
         then ["MOVE_LEFT"%string] else ["IDLE"%string]
    else scan goal_lower.
Proof.
  unfold plan. set (gl := lower (String c g)). cbv zeta.
  scan_cases gl; try reflexivity; unfold _infer_action;
    match goal with
    | H : any_in ["desviar"%string; _; _; _] gl = _ |- _ =>
        rewrite H; clear H
    end;
    absent_words; unfold any_in; cbn [existsb];
    repeat match goal with
           | H : contains ?k gl = false |- context [contains ?k gl] =>
               rewrite H
           end;
    reflexivity.
Qed.

Lemma slice_to_prefix {A : Type} (stop : Z) (l : list A) :
  (0 <= stop)%Z ->
  List.length (Py.slice_to stop l)
  = Nat.min (Z.to_nat stop) (List.length l)
  /\ l = Py.slice_to stop l ++ skipn (Z.to_nat stop) l.
Proof.
  intro H. unfold Py.slice_to, Py.clamp.
  destruct (stop <? 0)%Z eqn:E; [apply Z.ltb_lt in E; lia|].
  rewrite Z2Nat.inj_min, Nat2Z.id. split.
  - rewrite length_firstn. lia.
  - destruct (Nat.le_ge_cases (Z.to_nat stop) (List.length l)) as [Hle | Hge].
    + rewrite Nat.min_l by exact Hle. symmetry. apply firstn_skipn.
    + rewrite Nat.min_r by exact Hge.
      rewrite firstn_all, skipn_all2 by exact Hge.
      symmetry. apply app_nil_r.
Qed.

End PlannerFacts.

(** X22.  A plan is never empty, and it names actions of [ACTION_KEYWORDS]
    only, each at most once, in the order of the dictionary (MOVE_LEFT,
    MOVE_RIGHT, JUMP, ATTACK, IDLE), whatever the goal is and whatever
    lower-casing does to it; no goal, or an empty one, included. *)
Theorem plan_is_never_empty_and_ordered (lower : string -> string)
    (goal : option string) :
  Planner.plan lower goal <> [] /\ Planner.ordered (Planner.plan lower goal).
Proof. apply PlannerFacts.plan_ordered. Qed.

(** X23.  As [plan] calls it, [_infer_action] contributes MOVE_LEFT or
    nothing.  It is called only when no keyword occurs in the goal, and then
    none of its tests for a direction, for jumping or for attacking can
    succeed, each of their words being a keyword: the plan of a non-empty
    goal is what the keyword scan found, or else MOVE_LEFT when the goal
    contains "desviar", "fugir", "esquivar" or "evitar", or else IDLE. *)
Theorem infer_action_only_moves_left (lower : string -> string)
    (c : ascii) (g : string) :
  let goal_lower := lower (String c g) in
  Planner.plan lower (Some (String c g))
  = if Planner.is_empty (Planner.scan goal_lower)
    then if Planner.any_in
              ["desviar"; "fugir"; "esquivar"; "evitar"]%string goal_lower
         then ["MOVE_LEFT"%string] else ["IDLE"%string]
    else Planner.scan goal_lower.
Proof. apply PlannerFacts.plan_infers_little. Qed.

(** X24.  With a limit that is not negative, [plan_sequence] returns the
    first [max_actions] actions of the plan, or the whole plan when it has no
    more than that. *)
Theorem plan_sequence_is_a_bounded_prefix (lower : string -> string)
    (goal : option string) (max_actions : Z) :
  (0 <= max_actions)%Z ->
  List.length (Planner.plan_sequence lower goal max_actions)
  = Nat.min (Z.to_nat max_actions) (List.length (Planner.plan lower goal))
  /\ exists rest,
       Planner.plan lower goal
       = Planner.plan_sequence lower goal max_actions ++ rest.
Proof.
  intro H. unfold Planner.plan_sequence.
  destruct (max_actions <? Z.of_nat (List.length (Planner.plan lower goal)))%Z
    eqn:E.
  - destruct (@PlannerFacts.slice_to_prefix string max_actions
                (Planner.plan lower goal) H) as [H1 H2].
    split; [exact H1|].
    exists (skipn (Z.to_nat max_actions) (Planner.plan lower goal)).
    exact H2.
  - apply Z.ltb_ge in E. split; [lia|].
    exists []. symmetry. apply app_nil_r.
Qed.

(** X24 at work: a goal with three keywords, cut to two actions. *)
Lemma plan_sequence_is_a_bounded_prefix_witness :
  let goal := Some "pular para a esquerda e atacar"%string in
  Planner.plan (fun s => s) goal
  = ["MOVE_LEFT"; "JUMP"; "ATTACK"]%string
  /\ List.length (Planner.plan_sequence (fun s => s) goal 2) = 2%nat.
Proof.
  intro goal. split; [reflexivity|].
  assert (H : (0 <= 2)%Z) by lia.
  exact (proj1 (@plan_sequence_is_a_bounded_prefix (fun s => s) goal 2 H)).
Defined.

(** ** The short-term memory: what it keeps and what it hands back *)

Module MemoryFacts.

Import Memory.

Lemma deque_append_last {A : Type} (maxlen : Z) (x : A) (items : list A) :
  (Z.of_nat (List.length items) <= maxlen)%Z ->
  deque_append maxlen x items
  = skipn (List.length (items ++ [x]) - Z.to_nat maxlen) (items ++ [x]).
Proof.
  intro H. unfold deque_append. rewrite length_app. cbn [List.length].
  destruct (maxlen <? Z.of_nat (List.length items + 1))%Z eqn:E.
  - apply Z.ltb_lt in E.
    replace (List.length items + 1 - Z.to_nat maxlen)%nat with 1%nat by lia.
    destruct (items ++ [x]); reflexivity.
  - apply Z.ltb_ge in E.
    replace (List.length items + 1 - Z.to_nat maxlen)%nat with 0%nat by lia.
    reflexivity.
Qed.

(** The last [k] of the last [k], with one more item after them. *)
Lemma skipn_last_snoc {A : Type} (k : nat) (x : A) (l : list A) :
  skipn (List.length (skipn (List.length l - k) l ++ [x]) - k)
        (skipn (List.length l - k) l ++ [x])
  = skipn (List.length (l ++ [x]) - k) (l ++ [x]).
Proof.
  destruct (Nat.le_gt_cases (List.length l) k) as [H | H].
  - replace (List.length l - k)%nat with 0%nat by lia. reflexivity.
  - rewrite !length_app, length_skipn. cbn [List.length].
    replace (List.length l - (List.length l - k) + 1 - k)%nat with 1%nat
      by lia.
    replace (List.length l + 1 - k)%nat with (1 + (List.length l - k))%nat
      by lia.
    rewrite <- skipn_skipn. f_equal.
    rewrite skipn_app.
    replace (List.length l - k - List.length l)%nat with 0%nat by lia.
    reflexivity.
Qed.

Lemma add_all_snoc (calls : list Call) (c : Call) (m : t) :
  add_all (calls ++ [c]) m
  = add (call_type c) (call_content c) (call_metadata c) (call_time c)
        (add_all calls m).
Proof. unfold add_all. rewrite fold_left_app. reflexivity. Qed.

(** A memory within its bound stays within it, and holds the last
    [max_size] of what it held and what was added. *)
Lemma add_all_buffer (calls : list Call) (m : t) :
  (Z.of_nat (List.length (buffer m)) <= max_size m)%Z ->
  max_size (add_all calls m) = max_size m
  /\ buffer (add_all calls m)
     = skipn (List.length (buffer m ++ map entry_of calls)
              - Z.to_nat (max_size m))
             (buffer m ++ map entry_of calls).
Proof.
  intro Hb. induction calls as [|c calls IH] using rev_ind.
  - cbn [add_all fold_left map]. rewrite app_nil_r. split; [reflexivity|].
    replace (List.length (buffer m) - Z.to_nat (max_size m))%nat with 0%nat
      by lia.
    reflexivity.
  - destruct IH as [Hmax Hbuf]. rewrite add_all_snoc.
    unfold add at 1 2. cbn [max_size buffer]. split; [exact Hmax|].
    rewrite deque_append_last.
    + rewrite Hmax, Hbuf, map_app, app_assoc. cbn [map].
      apply skipn_last_snoc.
    + rewrite Hmax, Hbuf, length_skipn. lia.
Qed.

Lemma suffix_all {A : Type} (P : A -> Prop) (older l : list A) :
  Forall P (older ++ l) -> Forall P l.
Proof. intro H. apply Forall_app in H. exact (proj2 H). Qed.

End MemoryFacts.

(** X25.  The memory holds the latest entries.  After [Memory(max_size)] and
    any number of calls of [add], the buffer holds the entries of the last
    [max_size] calls, oldest first, and all of them while fewer calls were
    made; [size()] is the smaller of the number of calls and [max_size], and
    [is_full()] answers whether at least [max_size] calls were made. *)
Theorem memory_keeps_the_latest_entries (max_size : Z) (m : Memory.t)
    (calls : list Memory.Call) :
  Memory.init max_size = Some m ->
  Memory.buffer (Memory.add_all calls m)
  = skipn (List.length calls - Z.to_nat max_size)
          (map Memory.entry_of calls)
  /\ Memory.size (Memory.add_all calls m)
     = Z.min (Z.of_nat (List.length calls)) max_size
  /\ Memory.is_full (Memory.add_all calls m)
     = (max_size <=? Z.of_nat (List.length calls))%Z.
Proof.
  unfold Memory.init. destruct (max_size <? 0)%Z eqn:E; [discriminate|].
  apply Z.ltb_ge in E. intro H. injection H as <-.
  destruct (@MemoryFacts.add_all_buffer calls
              {| Memory.max_size := max_size; Memory.buffer := [] |})
    as [Hmax Hbuf]; [cbn; lia|].
  cbn [Memory.max_size Memory.buffer app] in Hmax, Hbuf.
  rewrite length_map in Hbuf.
  assert (Hsize : Memory.size
                    (Memory.add_all calls
                       {| Memory.max_size := max_size; Memory.buffer := [] |})
                  = Z.min (Z.of_nat (List.length calls)) max_size).
  { unfold Memory.size. rewrite Hbuf, length_skipn, length_map. lia. }
  split; [exact Hbuf|]. split; [exact Hsize|].
  unfold Memory.is_full. rewrite Hsize, Hmax.
  destruct (Z.leb_spec max_size (Z.of_nat (List.length calls)));
    [apply Z.leb_le | apply Z.leb_gt]; lia.
Qed.

(** X25 at work: three entries added to a memory of two. *)
Lemma memory_keeps_the_latest_entries_witness :
  let m := {| Memory.max_size := 2; Memory.buffer := [] |} in
  let c1 := Memory.mkCall "CHAT" (Some "ana: oi"%string) None 1 in
  let c2 := Memory.mkCall "SAY" None None 2 in
  let c3 := Memory.mkCall "IDLE" (Some EmptyString) None 3 in
  Memory.init 2 = Some m
  /\ Memory.buffer (Memory.add_all [c1; c2; c3] m)
     = [Memory.entry_of c2; Memory.entry_of c3]
  /\ Memory.is_full (Memory.add_all [c1; c2; c3] m) = true.
Proof.
  intros m c1 c2 c3.
  destruct (@memory_keeps_the_latest_entries 2 m [c1; c2; c3] eq_refl)
    as (H1 & _ & H3).
  split; [reflexivity | split; [exact H1 | exact H3]].
Defined.

(** X26.  [get_context(n)] with a positive [n] returns the latest [n]
    entries, oldest first, or all of them when there are no more than [n];
    with [n] zero, as with no [n] at all, it returns every entry, not none;
    with a negative [n] it leaves out the oldest [-n] entries. *)
Theorem context_is_the_latest_entries (n : Z) (m : Memory.t) :
  ((0 < n)%Z ->
   Memory.get_context (Some n) m
   = map Memory.to_dict
       (skipn (List.length (Memory.buffer m) - Z.to_nat n) (Memory.buffer m)))
  /\ Memory.get_context (Some 0%Z) m = map Memory.to_dict (Memory.buffer m)
  /\ Memory.get_context None m = map Memory.to_dict (Memory.buffer m)
  /\ ((n < 0)%Z ->
      Memory.get_context (Some n) m
      = map Memory.to_dict (skipn (Z.to_nat (- n)) (Memory.buffer m))).
Proof.
  unfold Memory.get_context, Py.slice_from, Py.clamp.
  split; [|split; [|split]].
  - intro H. destruct (n =? 0)%Z eqn:E; [apply Z.eqb_eq in E; lia|].
    destruct (- n <? 0)%Z eqn:N; [|apply Z.ltb_ge in N; lia].
    f_equal. f_equal. lia.
  - reflexivity.
  - reflexivity.
  - intro H. destruct (n =? 0)%Z eqn:E; [apply Z.eqb_eq in E; lia|].
    destruct (- n <? 0)%Z eqn:N; [apply Z.ltb_lt in N; lia|].
    f_equal. rewrite Z2Nat.inj_min, Nat2Z.id.
    apply StateManagerMore.skipn_min.
Qed.

(** X27.  [get_recent_by_type(entry_type, limit)] returns entries of that
    type only, and always the latest of them: what it returns is a final
    segment of the entries of that type.  With a positive [limit] it returns
    [limit] of them, or all when there are no more; with a [limit] of zero it
    returns all of them, not none. *)
Theorem recent_by_type_is_a_suffix (entry_type : string) (limit : Z)
    (m : Memory.t) :
  let matching :=
    map Memory.to_dict
      (filter (fun e => String.eqb (Memory.type e) entry_type)
              (Memory.buffer m)) in
  let result := Memory.get_recent_by_type entry_type limit m in
  (exists older, matching = older ++ result)
  /\ Forall (fun d => Memory.dict_type d = entry_type) result
  /\ ((0 < limit)%Z ->
      List.length result
      = Nat.min (Z.to_nat limit) (List.length matching))
  /\ (limit = 0%Z -> result = matching).
Proof.
  intros matching result.
  assert (Hall : Forall (fun d => Memory.dict_type d = entry_type) matching).
  { apply Forall_forall. intros d Hd. unfold matching in Hd.
    apply in_map_iff in Hd. destruct Hd as (e & <- & He).
    apply filter_In in He. destruct He as [_ He].
    apply String.eqb_eq in He. exact He. }
  assert (Hsuf : exists older, matching = older ++ result).
  { unfold result, Memory.get_recent_by_type. fold matching.
    destruct (limit <? Z.of_nat (List.length matching))%Z.
    - exists (firstn (Py.clamp (List.length matching) (- limit)) matching).
      unfold Py.slice_from. symmetry. apply firstn_skipn.
    - exists []. reflexivity. }
  split; [exact Hsuf|]. split.
  - destruct Hsuf as [older Ho]. rewrite Ho in Hall.
    exact (@MemoryFacts.suffix_all _ _ older result Hall).
  - unfold result, Memory.get_recent_by_type. fold matching.
    unfold Py.slice_from, Py.clamp. split.
    + intro H. destruct (limit <? Z.of_nat (List.length matching))%Z eqn:E.
      * apply Z.ltb_lt in E.
        destruct (- limit <? 0)%Z eqn:N; [|apply Z.ltb_ge in N; lia].
        rewrite length_skipn. lia.
      * apply Z.ltb_ge in E. lia.
    + intros ->.
      destruct (0 <? Z.of_nat (List.length matching))%Z; [|reflexivity].
      change (- 0)%Z with 0%Z. change (0 <? 0)%Z with false. cbv iota.
      rewrite Z.min_l by lia. reflexivity.
Qed.

(** ** The chat listener: a sliding window that holds *)

Module ChatListenerFacts.

Import ChatListener.

Lemma run_snoc_call (times : list Q) (now : Q) (c : t) :
  run (times ++ [now]) c = snd (_check_rate_limit now (run times c)).
Proof. unfold run. rewrite fold_left_app. reflexivity. Qed.

Lemma admitted_snoc (times : list Q) (now : Q) :
  forall c,
    admitted (times ++ [now]) c
    = admitted times c
        ++ (if fst (_check_rate_limit now (run times c)) then [now] else []).
Proof.
  induction times as [|t0 times IH]; intro c.
  - cbn [app admitted run fold_left].
    destruct (_check_rate_limit now c) as [ok c1]. cbn [fst].
    destruct ok; reflexivity.
  - cbn [app admitted]. unfold run. cbn [fold_left]. fold (run times).
    destruct (_check_rate_limit t0 c) as [ok c1]. cbn [snd].
    rewrite IH. destruct ok; reflexivity.
Qed.

(** On times in order, expiring from the left removes exactly the times that
    lie more than a second back. *)
Lemma expire_sorted (now : Q) (times : list Q) :
  StronglySorted Qle times -> expire now times = recent now times.
Proof.
  unfold recent. induction times as [|t0 rest IH]; intro Hs; [reflexivity|].
  inversion Hs as [|? ? Hs' Hall]; subst. cbn [expire filter].
  unfold Qgt_bool. destruct (Qle_bool (now - t0) 1) eqn:E; cbn [negb].
  - f_equal. symmetry. apply forallb_filter_id.
    apply forallb_forall. intros t Ht.
    rewrite Forall_forall in Hall. specialize (Hall t Ht).
    apply Qle_bool_iff in E. apply Qle_bool_iff. lra.
  - apply IH. exact Hs'.
Qed.

Lemma recent_recent (earlier now : Q) (times : list Q) :
  earlier <= now ->
  recent now (recent earlier times) = recent now times.
Proof.
  intro H. unfold recent. induction times as [|t0 rest IH]; [reflexivity|].
  cbn [filter].
  destruct (Qle_bool (earlier - t0) 1) eqn:E1; cbn [filter]; rewrite IH;
    [reflexivity|].
  destruct (Qle_bool (now - t0) 1) eqn:E2; [|reflexivity].
  apply Qle_bool_iff in E2.
  assert (Hle : earlier - t0 <= 1) by lra.
  apply Qle_bool_iff in Hle. congruence.
Qed.

Lemma recent_app (now : Q) (xs ys : list Q) :
  recent now (xs ++ ys) = recent now xs ++ recent now ys.
Proof. unfold recent. apply filter_app. Qed.

Lemma recent_now (now : Q) : recent now [now] = [now].
Proof.
  unfold recent. cbn [filter].
  assert (H : now - now <= 1) by lra.
  apply Qle_bool_iff in H. rewrite H. reflexivity.
Qed.

Lemma recent_length (now : Q) (times : list Q) :
  (List.length (recent now times) <= List.length times)%nat.
Proof. unfold recent. apply filter_length_le. Qed.

Lemma sorted_snoc_le (times : list Q) (now : Q) :
  StronglySorted Qle times ->
  Forall (fun t => t <= now) times ->
  StronglySorted Qle (times ++ [now]).
Proof.
  induction times as [|t0 rest IH]; intros Hs Hall.
  - repeat constructor.
  - inversion Hs as [|? ? Hs' Hle]; subst.
    inversion Hall as [|? ? H0 Hall']; subst.
    cbn [app]. constructor; [apply IH; assumption|].
    apply Forall_app. split; [exact Hle | repeat constructor; exact H0].
Qed.

Lemma sorted_app_inv (xs : list Q) (now : Q) :
  StronglySorted Qle (xs ++ [now]) ->
  StronglySorted Qle xs /\ Forall (fun t => t <= now) xs.
Proof.
  induction xs as [|x xs IH]; intro Hs; [split; constructor|].
  cbn [app] in Hs. inversion Hs as [|? ? Hs' Hall]; subst.
  destruct (IH Hs') as [H1 H2].
  apply Forall_app in Hall. destruct Hall as [Hx Hn].
  inversion Hn as [|? ? Hxn _]; subst.
  split; constructor; assumption.
Qed.

Lemma recent_sorted (now : Q) (times : list Q) :
  StronglySorted Qle times -> StronglySorted Qle (recent now times).
Proof.
  unfold recent. induction times as [|t0 rest IH]; intro Hs; [constructor|].
  inversion Hs as [|? ? Hs' Hall]; subst. cbn [filter].
  destruct (Qle_bool (now - t0) 1); [|apply IH; exact Hs'].
  constructor; [apply IH; exact Hs'|].
  rewrite Forall_forall in *. intros x Hx. apply Hall.
  apply filter_In in Hx. exact (proj1 Hx).
Qed.

Lemma recent_bound (now hi : Q) (times : list Q) :
  Forall (fun t => t <= hi) times ->
  Forall (fun t => t <= hi) (recent now times).
Proof.
  unfold recent. rewrite !Forall_forall. intros H x Hx. apply H.
  apply filter_In in Hx. exact (proj1 Hx).
Qed.

(** What the listener remembers after calls made in order: times in order,
    none later than the last call, fewer than [rate + 1] of them, and among
    them every admitted time that is recent for a later clock reading. *)
Lemma run_invariant (rate : Q) (times : list Q) :
  0 <= rate ->
  StronglySorted Qle times ->
  let c := run times (init rate) in
  rate_limit_per_sec c = rate
  /\ StronglySorted Qle (message_times c)
  /\ (forall hi, Forall (fun t => t <= hi) times ->
                 Forall (fun t => t <= hi) (message_times c))
  /\ inject_Z (Z.of_nat (List.length (message_times c))) < rate + 1
  /\ (forall now, Forall (fun t => t <= now) times ->
                  recent now (message_times c)
                  = recent now (admitted times (init rate))).
Proof.
  intros Hrate. induction times as [|n0 times IH] using rev_ind; intro Hs.
  - cbn. repeat split; try constructor.
    change (inject_Z 0) with 0. lra.
  - destruct (sorted_app_inv _ _ Hs) as [Hs1 Hle].
    specialize (IH Hs1). cbv zeta in IH.
    destruct IH as (Hr & Hsort & Hhi & Hlen & Hrec).
    cbv zeta. rewrite run_snoc_call, admitted_snoc.
    generalize dependent (run times (init rate)).
    intros c Hr Hsort Hhi Hlen Hrec.
    unfold _check_rate_limit. rewrite Hr.
    rewrite (expire_sorted n0 Hsort).
    pose proof (recent_sorted n0 Hsort) as Hs2.
    pose proof (recent_bound n0 (Hhi n0 Hle)) as Hb2.
    pose proof (recent_length n0 (message_times c)) as Hl2.
    destruct (Qge_bool (inject_Z (Z.of_nat
                (List.length (recent n0 (message_times c))))) rate) eqn:E;
      cbn [fst snd rate_limit_per_sec message_times].
    + split; [reflexivity|]. split; [exact Hs2|].
      split.
      { intros hi Hall. apply Forall_app in Hall.
        apply recent_bound, Hhi. exact (proj1 Hall). }
      split.
      { apply Nat2Z.inj_le in Hl2.
        rewrite Zle_Qle in Hl2. lra. }
      intros now Hall. apply Forall_app in Hall. destruct Hall as [Ha Hn].
      inversion Hn as [|? ? Hn0 _]; subst.
      rewrite app_nil_r, (recent_recent _ Hn0). apply Hrec. exact Ha.
    + apply Qge_bool_false in E.
      split; [reflexivity|].
      split; [apply sorted_snoc_le; assumption|].
      split.
      { intros hi Hall. apply Forall_app in Hall. destruct Hall as [Ha Hn].
        apply Forall_app. split; [apply recent_bound, Hhi; exact Ha|].
        exact Hn. }
      split.
      { rewrite length_app. cbn [List.length].
        rewrite Nat2Z.inj_add, inject_Z_plus.
        change (inject_Z (Z.of_nat 1)) with 1. lra. }
      intros now Hall. apply Forall_app in Hall. destruct Hall as [Ha Hn].
      inversion Hn as [|? ? Hn0 _]; subst.
      rewrite !recent_app, (recent_recent _ Hn0). f_equal.
      apply Hrec. exact Ha.
Qed.

End ChatListenerFacts.

(** X28.  The chat listener's rate limit holds, and lets through what it can.
    When the clock does not run backwards over a sequence of calls of
    [_check_rate_limit], a call is let through exactly when fewer than
    [rate_limit_per_sec] earlier calls were let through in the second that
    ends with it; so the calls let through in any such second, the last call
    included, number less than [rate_limit_per_sec + 1]. *)
Theorem chat_rate_limit_holds (rate : Q) (times : list Q) (now : Q) :
  0 <= rate ->
  StronglySorted Qle (times ++ [now]) ->
  let c := ChatListener.run times (ChatListener.init rate) in
  fst (ChatListener._check_rate_limit now c)
  = negb (Qge_bool
            (inject_Z
               (Z.of_nat
                  (List.length
                     (ChatListener.recent now
                        (ChatListener.admitted times
                           (ChatListener.init rate))))))
            rate)
  /\ inject_Z
       (Z.of_nat
          (List.length
             (ChatListener.recent now
                (ChatListener.admitted (times ++ [now])
                   (ChatListener.init rate)))))
     < rate + 1.
Proof.
  intros Hrate Hs c.
  destruct (ChatListenerFacts.sorted_app_inv _ _ Hs) as [Hs1 Hle].
  destruct (@ChatListenerFacts.run_invariant rate times Hrate Hs1)
    as (Hr & Hsort & _ & _ & Hrec).
  destruct (@ChatListenerFacts.run_invariant rate (times ++ [now]) Hrate Hs)
    as (_ & _ & Hhi' & Hlen' & Hrec').
  fold c in Hr, Hsort, Hrec. split.
  - unfold ChatListener._check_rate_limit.
    rewrite Hr, (ChatListenerFacts.expire_sorted now Hsort), (Hrec now Hle).
    destruct (Qge_bool _ rate); reflexivity.
  - assert (Hall : Forall (fun t => t <= now) (times ++ [now])).
    { apply Forall_app. split; [exact Hle|].
      repeat constructor. lra. }
    rewrite <- (Hrec' now Hall).
    pose proof (ChatListenerFacts.recent_length now
                  (ChatListener.message_times
                     (ChatListener.run (times ++ [now])
                        (ChatListener.init rate)))) as Hl.
    apply Nat2Z.inj_le in Hl. rewrite Zle_Qle in Hl. lra.
Qed.

(** X28 at work: at two messages per second, of three messages within half a
    second the third is held back. *)
Lemma chat_rate_limit_holds_witness :
  let times := [0; 1 # 4] in
  let c := ChatListener.run times (ChatListener.init 2) in
  StronglySorted Qle (times ++ [1 # 2])
  /\ fst (ChatListener._check_rate_limit (1 # 2) c) = false.
Proof.
  intros times c.
  assert (Hs : StronglySorted Qle (times ++ [1 # 2])).
  { repeat constructor; unfold Qle; cbn; lia. }
  assert (Hrate : 0 <= 2) by (unfold Qle; cbn; lia).
  split; [exact Hs|].
  exact (proj1 (@chat_rate_limit_holds 2 times (1 # 2) Hrate Hs)).
Defined.

